(** * The pigato broker (lib/Broker.js): a shallow embedding

    The broker is a single-threaded state machine: every handler runs to
    completion on the event loop, reads and mutates the three registries
    ([services], [workers], [rmap]), the persistence controller and the
    cache, writes frames to the router socket and defers work with
    [setImmediate].  The embedding keeps that shape: one record for the
    broker, a small monad for the handlers, and an environment for what
    the JavaScript runtime decides (the wall clock, [_.random], the order
    produced by [Array.prototype.sort], [JSON.parse] and the md5 digest).

    The file has three parts: the embedding of Broker.js, function by
    function and under the names of the source; the vocabulary of the
    properties and the broker states used as examples; the properties and
    their proofs.

    Conventions.
    - A value read from an array or an object that may be [undefined] is an
      [option string]; [None] is [undefined].
    - Option values carried in the JSON frames are numbers; JSON [true] and
      [false] read as 1 and 0, as they do in JavaScript arithmetic.  The
      timeout of a request is a rational number, since the deadline test
      [timeout > -1] tells apart timeouts between -1 and 0; the other options
      are integers.
    - JavaScript objects used as tables and enumerated with [_.each]
      ([services], [workers]) are association lists in insertion order, with
      the enumeration order of the engine computed by [own_keys]; tables that
      are only indexed ([rmap], the controller, the cache) are [gmap]s.
    - Request records are shared between the service queues, [rmap], the
      controller and pending callbacks, and are mutated in place; they live in
      [heap] and are referred to by address.
    - Identities and service names are not names of properties inherited
      from [Object.prototype], so that [k in obj] is an own-property test.
      A read of [rmap] under a rid is the read of an own property as well;
      that is the case when the rid has an entry, and when it is not the
      name of an inherited property ([Js.inherited]): the properties that
      read [rmap] under a rid without an entry say so.
    - With the cache on, [_rhandle] hands the request to [async.auto]; the
      lookup in the cache and the continuation that replies or assigns are
      one deferred task here.
    - [start] (the binding of the socket and the reload of persisted
      requests) is not part of the embedding: a broker starts from
      [Broker_new], with its socket open, and the heartbeat timer is the
      event [ETimer]. *)

From Stdlib Require Import ZArith QArith Lqa String Ascii Permutation.
From stdpp Require Import base option list strings gmap.

Local Open Scope string_scope.
Local Open Scope list_scope.

(** ** JavaScript strings and property keys *)

Module Js.

(** [!v] is false exactly on a non-empty string. *)
Definition truthy (v : option string) : bool :=
  match v with
  | Some s => negb (String.eqb s "")
  | None => false
  end.

(** [ToString] of a property key: [obj[undefined]] is [obj["undefined"]]. *)
Definition key (v : option string) : string := default "undefined" v.

(** [s[s.length - 1]]; [undefined] on the empty string. *)
Definition last_char (s : string) : option ascii :=
  match String.length s with
  | O => None
  | S n => String.get n s
  end.

(** [s.slice(0, -1)]. *)
Definition slice_init (s : string) : string :=
  String.substring 0 (String.length s - 1) s.

(** [s.indexOf(p)], [None] standing for -1. *)
Definition indexOf (s p : string) : option nat := String.index 0 p s.

(** [s[s.length - 1] === '*']. *)
Definition ends_with_star (s : string) : bool :=
  match last_char s with
  | Some c => Ascii.eqb c "*"%char
  | None => false
  end.

(** [s.indexOf(p.slice(0, -1)) === 0]. *)
Definition starts_with_init (s p : string) : bool :=
  match indexOf s (slice_init p) with
  | Some O => true
  | _ => false
  end.

(** *** Own-property enumeration order

    An engine enumerates the own keys of an object with the array indices
    first, in ascending numeric order, and the other keys after them in the
    order they were created. *)

Definition digit (c : ascii) : option N :=
  let n := N_of_ascii c in
  if ((48 <=? n) && (n <=? 57))%N then Some (n - 48)%N else None.

Fixpoint digits (acc : N) (s : string) : option N :=
  match s with
  | EmptyString => Some acc
  | String c s' =>
      match digit c with
      | Some d => digits (acc * 10 + d)%N s'
      | None => None
      end
  end.

(** A canonical numeric string below 2^32 - 1. *)
Definition array_index (s : string) : option N :=
  match s with
  | EmptyString => None
  | String c s' =>
      if Ascii.eqb c "0"%char && negb (String.eqb s' "") then None
      else if (10 <? String.length s)%nat then None
      else match digits 0 s with
           | Some n => if (n <? 4294967295)%N then Some n else None
           | None => None
           end
  end.

Fixpoint insert_index {V} (n : N) (kv : string * V) (l : list (N * (string * V)))
  : list (N * (string * V)) :=
  match l with
  | [] => [(n, kv)]
  | (m, kv') :: l' =>
      if (n <? m)%N then (n, kv) :: l else (m, kv') :: insert_index n kv l'
  end.

Fixpoint split_keys {V} (o : list (string * V))
  : list (N * (string * V)) * list (string * V) :=
  match o with
  | [] => ([], [])
  | kv :: o' =>
      let '(ix, nm) := split_keys o' in
      match array_index kv.1 with
      | Some n => (insert_index n kv ix, nm)
      | None => (ix, kv :: nm)
      end
  end.

(** The entries of an object in enumeration order ([_.each], [Object.keys]). *)
Definition own_entries {V} (o : list (string * V)) : list (string * V) :=
  let '(ix, nm) := split_keys o in (snd <$> ix) ++ nm.

Definition own_keys {V} (o : list (string * V)) : list string :=
  fst <$> own_entries o.

(** *** Objects as tables *)

Fixpoint get {V} (k : string) (o : list (string * V)) : option V :=
  match o with
  | [] => None
  | (k', v) :: o' => if String.eqb k k' then Some v else get k o'
  end.

(** [o[k] = v]: in place when the key exists, a new last key otherwise. *)
Fixpoint set {V} (k : string) (v : V) (o : list (string * V)) : list (string * V) :=
  match o with
  | [] => [(k, v)]
  | (k', v') :: o' =>
      if String.eqb k k' then (k, v) :: o' else (k', v') :: set k v o'
  end.

(** [delete o[k]]. *)
Fixpoint del {V} (k : string) (o : list (string * V)) : list (string * V) :=
  match o with
  | [] => []
  | (k', v') :: o' =>
      if String.eqb k k' then del k o' else (k', v') :: del k o'
  end.

(** A field update of the object stored under [k]; nothing when absent. *)
Definition upd {V} (k : string) (f : V -> V) (o : list (string * V)) : list (string * V) :=
  match get k o with
  | Some v => set k (f v) o
  | None => o
  end.

(** [k in o]. *)
Definition has {V} (k : string) (o : list (string * V)) : bool :=
  match get k o with Some _ => true | None => false end.

(** The names of the properties every object inherits from
    [Object.prototype]: [o[k]] is not [undefined] for them, whatever the own
    properties of [o]. *)
Definition proto_keys : list string :=
  ["constructor"; "toString"; "toLocaleString"; "valueOf"; "hasOwnProperty";
   "isPrototypeOf"; "propertyIsEnumerable"; "__proto__"; "__defineGetter__";
   "__defineSetter__"; "__lookupGetter__"; "__lookupSetter__"].

Definition inherited (k : string) : bool := bool_decide (k ∈ proto_keys).

End Js.

(** ** Data model *)

(** Modelled from the spec: the protocol tags and command bytes of ./mdp,
    which Broker.js requires and which is not part of the sources at hand.
    The broker only compares them for equality; they are pairwise distinct. *)
Module MDP.
Definition CLIENT : string := "MDPC01".
Definition WORKER : string := "MDPW01".
Definition W_READY : string := String (ascii_of_nat 1) EmptyString.
Definition W_REQUEST : string := String (ascii_of_nat 2) EmptyString.
Definition W_REPLY : string := String (ascii_of_nat 3) EmptyString.
Definition W_HEARTBEAT : string := String (ascii_of_nat 4) EmptyString.
Definition W_DISCONNECT : string := String (ascii_of_nat 5) EmptyString.
Definition W_REPLY_PARTIAL : string := String (ascii_of_nat 6) EmptyString.
Definition W_REPLY_REJECT : string := String (ascii_of_nat 7) EmptyString.
End MDP.

Definition HEARTBEAT_LIVENESS : Z := 3.

(** The options object obtained from a JSON frame; an absent key is [None]. *)
Record Opts := {
  o_timeout : option Q;
  o_retry : option Z;
  o_persist : option Z;
  o_cache : option Z;
  o_concurrency : option Z
}.

Definition no_opts : Opts :=
  {| o_timeout := None; o_retry := None; o_persist := None;
     o_cache := None; o_concurrency := None |}.

(** Truth value of a number or [undefined]. *)
Definition truthyZ (v : option Z) : bool :=
  match v with Some z => negb (z =? 0)%Z | None => false end.

(** [v || d]. *)
Definition orZ (v : option Z) (d : Z) : Z :=
  match v with Some z => if (z =? 0)%Z then d else z | None => d end.

Definition orQ (v : option Q) (d : Q) : Q :=
  match v with Some q => if Qeq_bool q 0 then d else q | None => d end.

(** [x > y] on numbers that need not be integers. *)
Definition Qgtb (x y : Q) : bool := negb (Qle_bool x y).

(** An integer among the rationals. *)
Coercion inject_Z : Z >-> Q.

(** Modelled from the spec: [putils.mparse] of ./utils, which Broker.js
    requires and which is not part of the sources at hand, turns the frames
    of an inbound message into strings.  A message from the router socket
    has the identity frame the socket prepends, and the frames after it. *)
Record Message := { identity : string; rest : list string }.

Definition frames (m : Message) : list string := identity m :: rest m.

(** [msg[i]]. *)
Definition frame (m : Message) (i : nat) : option string := frames m !! i.

(** The request record built by [onClient]. *)
Record Request := {
  r_service : string;
  r_clientId : string;
  r_attempts : Z;
  r_rid : option string;
  r_hash : option string;
  r_timeout : Q;
  r_retry : Z;
  r_ts : Z;
  r_rejects : list string;
  r_msg : list string;
  r_opts : Opts;
  r_workerId : option string
}.

(** The worker record built by [workerRequire]; [w_oid] tells apart two
    records created for the same identity at different times. *)
Record Worker := {
  w_workerId : string;
  w_service : option string;
  w_liveness : Z;
  w_rids : list (option string);
  w_concurrency : Z;
  w_oid : nat
}.

Record Service := {
  s_name : option string;
  s_workers : list string;
  s_q : list nat
}.

Record Conf := {
  heartbeat : Z;
  dmode : string;
  rattempts : Z;
  cache : bool
}.

Record CacheEntry := { data : list string; expire : Z }.

(** Work deferred with [setImmediate]: the re-entry of [dispatch], and the
    callback of [Cache.prototype.get] with what its continuation in
    [_rhandle] has captured (the request, and the worker record as read
    under the key [wk]). *)
Inductive Task :=
| TDispatch (srvName : option string) (mode : option string)
| TCacheGet (req : nat) (wk : string) (worker : Worker).

Record Broker := {
  services : list (string * Service);
  workers : list (string * Worker);
  rmap : gmap string nat;
  conf : Conf;
  ctrl_reqs : gmap string nat;
  cache_m : gmap string CacheEntry;
  heap : list Request;
  socket : bool;
  sent : list (list (option string));
  pending : list Task;
  _wcheck : option Z;
  n_clock : nat;
  n_random : nat;
  n_oid : nat
}.

(** What the runtime and the required libraries decide. *)
Record Env := {
  (** the value of the n-th reading of [(new Date()).getTime()] *)
  clock : nat -> Z;
  (** the n-th random draw *)
  random : nat -> nat;
  (** the order [Array.prototype.sort] leaves an array of worker ids in *)
  array_sort : (string -> string -> Z) -> list string -> list string;
  array_sort_perm : forall cmp l, Permutation (array_sort cmp l) l;
  (** [JSON.parse] followed by [_.isObject]: [None] when the frame does
      not parse to an object *)
  JSON_parse : string -> option Opts;
  (** [crypto.createHash('md5').update(v).digest('hex')] for a string [v] *)
  md5_hex : string -> string
}.

(** ** Field updates *)

Definition with_services (f : list (string * Service) -> list (string * Service)) (b : Broker) : Broker :=
  {| services := f (services b); workers := workers b; rmap := rmap b; conf := conf b;
     ctrl_reqs := ctrl_reqs b; cache_m := cache_m b; heap := heap b; socket := socket b;
     sent := sent b; pending := pending b; _wcheck := _wcheck b; n_clock := n_clock b;
     n_random := n_random b; n_oid := n_oid b |}.

Definition with_workers (f : list (string * Worker) -> list (string * Worker)) (b : Broker) : Broker :=
  {| services := services b; workers := f (workers b); rmap := rmap b; conf := conf b;
     ctrl_reqs := ctrl_reqs b; cache_m := cache_m b; heap := heap b; socket := socket b;
     sent := sent b; pending := pending b; _wcheck := _wcheck b; n_clock := n_clock b;
     n_random := n_random b; n_oid := n_oid b |}.

Definition with_rmap (f : gmap string nat -> gmap string nat) (b : Broker) : Broker :=
  {| services := services b; workers := workers b; rmap := f (rmap b); conf := conf b;
     ctrl_reqs := ctrl_reqs b; cache_m := cache_m b; heap := heap b; socket := socket b;
     sent := sent b; pending := pending b; _wcheck := _wcheck b; n_clock := n_clock b;
     n_random := n_random b; n_oid := n_oid b |}.

Definition with_ctrl (f : gmap string nat -> gmap string nat) (b : Broker) : Broker :=
  {| services := services b; workers := workers b; rmap := rmap b; conf := conf b;
     ctrl_reqs := f (ctrl_reqs b); cache_m := cache_m b; heap := heap b; socket := socket b;
     sent := sent b; pending := pending b; _wcheck := _wcheck b; n_clock := n_clock b;
     n_random := n_random b; n_oid := n_oid b |}.

Definition with_cache (f : gmap string CacheEntry -> gmap string CacheEntry) (b : Broker) : Broker :=
  {| services := services b; workers := workers b; rmap := rmap b; conf := conf b;
     ctrl_reqs := ctrl_reqs b; cache_m := f (cache_m b); heap := heap b; socket := socket b;
     sent := sent b; pending := pending b; _wcheck := _wcheck b; n_clock := n_clock b;
     n_random := n_random b; n_oid := n_oid b |}.

Definition with_heap (f : list Request -> list Request) (b : Broker) : Broker :=
  {| services := services b; workers := workers b; rmap := rmap b; conf := conf b;
     ctrl_reqs := ctrl_reqs b; cache_m := cache_m b; heap := f (heap b); socket := socket b;
     sent := sent b; pending := pending b; _wcheck := _wcheck b; n_clock := n_clock b;
     n_random := n_random b; n_oid := n_oid b |}.

Definition with_socket (v : bool) (b : Broker) : Broker :=
  {| services := services b; workers := workers b; rmap := rmap b; conf := conf b;
     ctrl_reqs := ctrl_reqs b; cache_m := cache_m b; heap := heap b; socket := v;
     sent := sent b; pending := pending b; _wcheck := _wcheck b; n_clock := n_clock b;
     n_random := n_random b; n_oid := n_oid b |}.

Definition with_sent (f : list (list (option string)) -> list (list (option string))) (b : Broker) : Broker :=
  {| services := services b; workers := workers b; rmap := rmap b; conf := conf b;
     ctrl_reqs := ctrl_reqs b; cache_m := cache_m b; heap := heap b; socket := socket b;
     sent := f (sent b); pending := pending b; _wcheck := _wcheck b; n_clock := n_clock b;
     n_random := n_random b; n_oid := n_oid b |}.

Definition with_pending (f : list Task -> list Task) (b : Broker) : Broker :=
  {| services := services b; workers := workers b; rmap := rmap b; conf := conf b;
     ctrl_reqs := ctrl_reqs b; cache_m := cache_m b; heap := heap b; socket := socket b;
     sent := sent b; pending := f (pending b); _wcheck := _wcheck b; n_clock := n_clock b;
     n_random := n_random b; n_oid := n_oid b |}.

Definition with_wcheck (v : option Z) (b : Broker) : Broker :=
  {| services := services b; workers := workers b; rmap := rmap b; conf := conf b;
     ctrl_reqs := ctrl_reqs b; cache_m := cache_m b; heap := heap b; socket := socket b;
     sent := sent b; pending := pending b; _wcheck := v; n_clock := n_clock b;
     n_random := n_random b; n_oid := n_oid b |}.

Definition tick_clock (b : Broker) : Broker :=
  {| services := services b; workers := workers b; rmap := rmap b; conf := conf b;
     ctrl_reqs := ctrl_reqs b; cache_m := cache_m b; heap := heap b; socket := socket b;
     sent := sent b; pending := pending b; _wcheck := _wcheck b; n_clock := S (n_clock b);
     n_random := n_random b; n_oid := n_oid b |}.

Definition tick_random (b : Broker) : Broker :=
  {| services := services b; workers := workers b; rmap := rmap b; conf := conf b;
     ctrl_reqs := ctrl_reqs b; cache_m := cache_m b; heap := heap b; socket := socket b;
     sent := sent b; pending := pending b; _wcheck := _wcheck b; n_clock := n_clock b;
     n_random := S (n_random b); n_oid := n_oid b |}.

Definition tick_oid (b : Broker) : Broker :=
  {| services := services b; workers := workers b; rmap := rmap b; conf := conf b;
     ctrl_reqs := ctrl_reqs b; cache_m := cache_m b; heap := heap b; socket := socket b;
     sent := sent b; pending := pending b; _wcheck := _wcheck b; n_clock := n_clock b;
     n_random := n_random b; n_oid := S (n_oid b) |}.

Definition upd_request (f : Request -> Request) (a : nat) (b : Broker) : Broker :=
  with_heap (fun h => match h !! a with Some r => <[a := f r]> h | None => h end) b.

Definition upd_worker (f : Worker -> Worker) (k : string) (b : Broker) : Broker :=
  with_workers (Js.upd k f) b.

Definition upd_service (f : Service -> Service) (k : string) (b : Broker) : Broker :=
  with_services (Js.upd k f) b.

Definition r_with_attempts (v : Z) (r : Request) : Request :=
  {| r_service := r_service r; r_clientId := r_clientId r; r_attempts := v;
     r_rid := r_rid r; r_hash := r_hash r; r_timeout := r_timeout r; r_retry := r_retry r;
     r_ts := r_ts r; r_rejects := r_rejects r; r_msg := r_msg r; r_opts := r_opts r;
     r_workerId := r_workerId r |}.

Definition r_with_rejects (v : list string) (r : Request) : Request :=
  {| r_service := r_service r; r_clientId := r_clientId r; r_attempts := r_attempts r;
     r_rid := r_rid r; r_hash := r_hash r; r_timeout := r_timeout r; r_retry := r_retry r;
     r_ts := r_ts r; r_rejects := v; r_msg := r_msg r; r_opts := r_opts r;
     r_workerId := r_workerId r |}.

Definition r_with_workerId (v : option string) (r : Request) : Request :=
  {| r_service := r_service r; r_clientId := r_clientId r; r_attempts := r_attempts r;
     r_rid := r_rid r; r_hash := r_hash r; r_timeout := r_timeout r; r_retry := r_retry r;
     r_ts := r_ts r; r_rejects := r_rejects r; r_msg := r_msg r; r_opts := r_opts r;
     r_workerId := v |}.

Definition w_with_service (v : option string) (w : Worker) : Worker :=
  {| w_workerId := w_workerId w; w_service := v; w_liveness := w_liveness w;
     w_rids := w_rids w; w_concurrency := w_concurrency w; w_oid := w_oid w |}.

Definition w_with_liveness (v : Z) (w : Worker) : Worker :=
  {| w_workerId := w_workerId w; w_service := w_service w; w_liveness := v;
     w_rids := w_rids w; w_concurrency := w_concurrency w; w_oid := w_oid w |}.

Definition w_with_rids (v : list (option string)) (w : Worker) : Worker :=
  {| w_workerId := w_workerId w; w_service := w_service w; w_liveness := w_liveness w;
     w_rids := v; w_concurrency := w_concurrency w; w_oid := w_oid w |}.

Definition w_with_concurrency (v : Z) (w : Worker) : Worker :=
  {| w_workerId := w_workerId w; w_service := w_service w; w_liveness := w_liveness w;
     w_rids := w_rids w; w_concurrency := v; w_oid := w_oid w |}.

Definition s_with_workers (v : list string) (s : Service) : Service :=
  {| s_name := s_name s; s_workers := v; s_q := s_q s |}.

Definition s_with_q (v : list nat) (s : Service) : Service :=
  {| s_name := s_name s; s_workers := s_workers s; s_q := v |}.

(** [new Broker(endpoint, conf)] followed by a successful [start]. *)
Definition default_conf : Conf :=
  {| heartbeat := 2500; dmode := "load"; rattempts := 5; cache := false |}.

Definition Broker_new (c : Conf) : Broker :=
  {| services := []; workers := []; rmap := ∅; conf := c; ctrl_reqs := ∅;
     cache_m := ∅; heap := []; socket := true; sent := []; pending := [];
     _wcheck := None; n_clock := 0; n_random := 0; n_oid := 0 |}.

(** ** The handler monad

    A handler either runs to completion, or is still inside the loop of
    [dispatch] when the fuel is used up, or is left by a [TypeError]; in each
    case the state reached is kept. *)

Inductive Res (A : Type) : Type :=
| Ok (a : A) (b : Broker)
| Spin (b : Broker)
| Throw (b : Broker).
Arguments Ok {A} a b.
Arguments Spin {A} b.
Arguments Throw {A} b.

Definition state_of {A} (r : Res A) : Broker :=
  match r with Ok _ b | Spin b | Throw b => b end.

Definition M (A : Type) : Type := Broker -> Res A.

Definition ret {A} (a : A) : M A := fun b => Ok a b.

Definition bind {A B} (m : M A) (f : A -> M B) : M B :=
  fun b =>
    match m b with
    | Ok a b' => f a b'
    | Spin b' => Spin b'
    | Throw b' => Throw b'
    end.

Definition gets {A} (f : Broker -> A) : M A := fun b => Ok (f b) b.
Definition modify (f : Broker -> Broker) : M unit := fun b => Ok tt (f b).
Definition throw {A} : M A := fun b => Throw b.
Definition spin {A} : M A := fun b => Spin b.

Notation "x <- m ;; k" := (bind m (fun x => k))
  (at level 20, m at level 99, k at level 200, only parsing).
Notation "m ;; k" := (bind m (fun _ => k))
  (at level 100, k at level 200, right associativity, only parsing).

Fixpoint each {A} (f : A -> M unit) (l : list A) : M unit :=
  match l with
  | [] => ret tt
  | x :: l' => f x ;; each f l'
  end.

(** ** The broker's operations *)

Record Sws := { sws_service : option string; sws_workerId : option string }.

Definition new_service (srvName : option string) : Service :=
  {| s_name := srvName; s_workers := []; s_q := [] |}.

Definition new_worker (workerId : string) (oid : nat) : Worker :=
  {| w_workerId := workerId; w_service := None; w_liveness := HEARTBEAT_LIVENESS;
     w_rids := []; w_concurrency := 100; w_oid := oid |}.

(** [_.indexOf(l, x) === -1]. *)
Definition absent {A} `{EqDecision A} (x : A) (l : list A) : bool :=
  negb (bool_decide (x ∈ l)).

(** [_.pull(l, x)]. *)
Definition pull {A} `{EqDecision A} (x : A) (l : list A) : list A :=
  filter (fun y => y ≠ x) l.

(** The key of the cache table for [req.hash], which is [null] when the
    request was built with the cache off. *)
Definition hash_key (h : option string) : string := default "null" h.

Definition nonempty {A} (l : list A) : bool :=
  match l with [] => false | _ => true end.

(** [worker.opts.concurrency > -1 && worker.rids.length > worker.opts.concurrency]. *)
Definition over_limit (w : Worker) : bool :=
  (w_concurrency w >? -1)%Z && (Z.of_nat (length (w_rids w)) >? w_concurrency w)%Z.

(** [_wval]: the worker id when it names a worker within its limit. *)
Definition _wval (b : Broker) (workerId : option string) : option string :=
  if negb (Js.truthy workerId) then None
  else match Js.get (Js.key workerId) (workers b) with
       | None => None
       | Some worker => if over_limit worker then None else workerId
       end.

(** The comparator of the 'load' mode; it is only called on ids of
    registered workers (see [_wsel]). *)
Definition rids_length (b : Broker) (a : string) : nat :=
  match Js.get a (workers b) with
  | Some w => length (w_rids w)
  | None => 0
  end.

Definition load_cmp (b : Broker) (x y : string) : Z :=
  if (rids_length b x <=? rids_length b y)%nat then (-1)%Z else 1%Z.

Section Handlers.

Variable E : Env.

(** [(new Date()).getTime()] *)
Definition getTime : M Z :=
  fun b => Ok (clock E (n_clock b)) (tick_clock b).

(** [_.random(0, n - 1)] *)
Definition draw (n : nat) : M nat :=
  fun b => Ok (random E (n_random b) mod n) (tick_random b).

Definition send (msg : list (option string)) : M unit :=
  modify (fun b => if socket b then with_sent (fun l => l ++ [msg]) b else b).

Definition stop : M unit := modify (with_socket false).

Definition reply (type : string) (req : Request) (msg : list string) : M unit :=
  send ([Some (r_clientId req); Some MDP.CLIENT; Some type; Some ""; r_rid req]
          ++ (Some <$> msg)).

Definition serviceRequire (srvName : option string) : M Service :=
  fun b =>
    match Js.get (Js.key srvName) (services b) with
    | Some s => Ok s b
    | None =>
        let s := new_service srvName in
        Ok s (with_services (Js.set (Js.key srvName) s) b)
    end.

Definition workerRequire (workerId : string) : M Worker :=
  fun b =>
    match Js.get workerId (workers b) with
    | Some w => Ok w b
    | None =>
        let w := new_worker workerId (n_oid b) in
        Ok w (tick_oid (with_workers (Js.set workerId w) b))
    end.

(** The persistence controller and the cache. *)
Definition Controller_rset (a : nat) (req : Request) : M unit :=
  modify (with_ctrl (insert (Js.key (r_rid req)) a)).

Definition Controller_rdel (req : Request) : M unit :=
  modify (with_ctrl (delete (Js.key (r_rid req)))).

Definition Cache_valid (entry : CacheEntry) : M bool :=
  if (expire entry >? -1)%Z then
    now <- getTime;;
    ret (negb (expire entry <? now)%Z)
  else ret true.

(** The body of the callback [Cache.prototype.get] defers. *)
Definition Cache_get (hash : option string) : M (option (list string)) :=
  entry <- gets (fun b => cache_m b !! hash_key hash);;
  match entry with
  | None => ret None
  | Some e =>
      ok <- Cache_valid e;;
      if ok then ret (Some (data e))
      else modify (with_cache (delete (hash_key hash)));; ret None
  end.

Definition Cache_set (hash : option string) (d : list string) (opts_expire : option Z) : M unit :=
  exp <- (if truthyZ opts_expire
          then now <- getTime;; ret (now + default 0%Z opts_expire)%Z
          else ret (-1)%Z);;
  modify (with_cache (insert (hash_key hash) {| data := d; expire := exp |})).

Definition requestValidate (worker : option Worker) (req : option Request) : M Z :=
  match req with
  | None => ret (-1)%Z
  | Some req =>
      expired <- (if Qgtb (r_timeout req) (-1)
                  then now <- getTime;; ret (Qgtb now (r_ts req + r_timeout req))
                  else ret false);;
      if expired then ret (-1)%Z
      else match worker with
           | None => throw
           | Some worker =>
               n <- gets (fun b => rattempts (conf b));;
               if negb (absent (w_workerId worker) (r_rejects req))
                  && (r_attempts req >=? n)%Z
               then ret (-2)%Z else ret 1%Z
           end
  end.

(** [_wsel(service, mode)]; [k] is the key [service] is stored under.  The
    sort of the 'load' mode calls its comparator on every element of an
    array of two or more, and that call fails on an id that names no
    worker; an array of fewer than two elements is left as it is. *)
Definition _wsel (k : string) (service : Service) (mode : string) : M (option string) :=
  let ws := s_workers service in
  if String.eqb mode "rand" then
    i <- draw (length ws);;
    gets (fun b => _wval b (ws !! i))
  else if String.eqb mode "load" then
    match ws with
    | [] | [_] => gets (fun b => _wval b (ws !! 0))
    | _ =>
        b <- gets id;;
        if forallb (fun a => Js.has a (workers b)) ws then
          let ws' := array_sort E (load_cmp b) ws in
          modify (upd_service (s_with_workers ws') k);;
          gets (fun b' => _wval b' (ws' !! 0))
        else throw
    end
  else ret None.

(** The scan of [serviceWorkerSelect] for a wildcard name: the first other
    service whose name starts with the prefix and whose queue is not empty. *)
Fixpoint scan_queues (srvName : string) (ents : list (string * Service)) : option string :=
  match ents with
  | [] => None
  | (mSrvName, mSrv) :: ents' =>
      if String.eqb srvName mSrvName then scan_queues srvName ents'
      else if Js.starts_with_init mSrvName srvName && nonempty (s_q mSrv)
           then Some mSrvName
           else scan_queues srvName ents'
  end.

(** The scan for a concrete name: the first wildcard service whose prefix
    the name starts with and which has workers chooses the worker. *)
Fixpoint scan_workers (srvName mode : string) (ents : list (string * Service))
  : M (option string) :=
  match ents with
  | [] => ret None
  | (mSrvName, mSrv) :: ents' =>
      if String.eqb srvName mSrvName then scan_workers srvName mode ents'
      else if Js.ends_with_star mSrvName && Js.starts_with_init srvName mSrvName
              && nonempty (s_workers mSrv)
           then _wsel mSrvName mSrv mode
           else scan_workers srvName mode ents'
  end.

Definition serviceWorkerSelect (srvName : option string) (mode : string) : M (option Sws) :=
  service <- serviceRequire srvName;;
  if nonempty (s_workers service) && nonempty (s_q service) then
    w <- _wsel (Js.key srvName) service mode;;
    ret (Some {| sws_service := srvName; sws_workerId := w |})
  else
    match srvName with
    | None => throw
    | Some name =>
        if Js.ends_with_star name then
          if nonempty (s_workers service) then
            w <- _wsel name service mode;;
            ents <- gets (fun b => Js.own_entries (services b));;
            ret (Some {| sws_service := scan_queues name ents; sws_workerId := w |})
          else ret None
        else
          if nonempty (s_q service) then
            ents <- gets (fun b => Js.own_entries (services b));;
            w <- scan_workers name mode ents;;
            ret (Some {| sws_service := Some name; sws_workerId := w |})
          else ret None
    end.

(** [_rproc(service, worker, req)]: [wk] is the key the worker record was
    read under, [worker] the record as read; the push on [worker.rids]
    reaches the registry when that record is still the registered one. *)
Definition _rproc (wk : string) (worker : Worker) (a : nat) : M unit :=
  r <- gets (fun b => heap b !! a);;
  match r with
  | None => throw
  | Some req =>
      modify (with_rmap (insert (Js.key (r_rid req)) a));;
      modify (upd_request (r_with_workerId (Some (w_workerId worker))) a);;
      modify (upd_worker
                (fun w => if Nat.eqb (w_oid w) (w_oid worker)
                          then w_with_rids (w_rids w ++ [r_rid req]) w else w) wk);;
      (if truthyZ (o_persist (r_opts req)) then Controller_rset a req else ret tt);;
      send ([Some (w_workerId worker); Some MDP.WORKER; Some MDP.W_REQUEST;
             Some (r_clientId req); Some (r_service req); Some ""]
              ++ (Some <$> drop 4 (r_msg req)))
  end.

Definition _rhandle (sws : Sws) : M Z :=
  let wk := Js.key (sws_workerId sws) in
  let k := Js.key (sws_service sws) in
  worker <- gets (fun b => Js.get wk (workers b));;
  service <- serviceRequire (sws_service sws);;
  match s_q service with
  | [] => throw
  | a :: q' =>
      modify (upd_service (s_with_q q') k);;
      r <- gets (fun b => heap b !! a);;
      match r with
      | None => throw
      | Some _ =>
          modify (upd_request (fun r => r_with_attempts (r_attempts r + 1) r) a);;
          req <- gets (fun b => heap b !! a);;
          vld <- requestValidate worker req;;
          if (vld <=? 0)%Z then
            (if (vld =? -2)%Z
             then modify (upd_service (fun s => s_with_q (s_q s ++ [a]) s) k)
             else match req with Some req => Controller_rdel req | None => throw end);;
            ret vld
          else
            match worker with
            | None => throw
            | Some w =>
                c <- gets (fun b => cache (conf b));;
                (if c then modify (with_pending (fun l => l ++ [TCacheGet a wk w]))
                 else _rproc wk w a);;
                ret 1%Z
            end
      end
  end.

(** The loop of [dispatch]: one unit of fuel for each turn. *)
Fixpoint dispatch_loop (fuel : nat) (srvName : option string) (mode : option string)
         (tryagain : nat) : M (option string * nat) :=
  match fuel with
  | O => spin
  | S fuel' =>
      cm <- gets (fun b => dmode (conf b));;
      sws <- serviceWorkerSelect srvName (if Js.truthy mode then Js.key mode else cm);;
      match sws with
      | None => ret (mode, tryagain)
      | Some s =>
          if negb (Js.truthy (sws_service s)) || negb (Js.truthy (sws_workerId s))
          then ret (mode, tryagain)
          else
            r <- _rhandle s;;
            dispatch_loop fuel' srvName
              (if (r =? -2)%Z then Some "rand" else mode)
              (if (r <? 0)%Z then S tryagain else tryagain)
      end
  end.

Definition dispatch (fuel : nat) (srvName : option string) (mode : option string) : M unit :=
  out <- dispatch_loop fuel srvName mode 0;;
  match out.2 with
  | O => ret tt
  | S _ => modify (with_pending (fun l => l ++ [TDispatch srvName out.1]))
  end.

Definition requestQueue (fuel : nat) (a : nat) : M unit :=
  r <- gets (fun b => heap b !! a);;
  match r with
  | None => throw
  | Some req =>
      serviceRequire (Some (r_service req));;
      modify (upd_service (fun s => s_with_q (s_q s ++ [a]) s) (r_service req));;
      (if truthyZ (o_persist (r_opts req)) then Controller_rset a req else ret tt);;
      dispatch fuel (Some (r_service req)) None
  end.

(** The function [workerDelete] applies to each [rid] of the deleted
    worker's [rids]. *)
Definition workerDelete_rid (fuel : nat) (worker : Worker) (rid : option string) : M unit :=
  a <- gets (fun b => rmap b !! Js.key rid);;
  match a with
  | None => ret tt
  | Some a =>
      r <- gets (fun b => heap b !! a);;
      match r with
      | None => ret tt
      | Some req =>
          modify (with_rmap (delete (Js.key rid)));;
          modify (upd_request (r_with_workerId None) a);;
          if Js.truthy (w_service worker) then
            modify (upd_service (fun s => s_with_q (s_q s ++ [a]) s)
                      (Js.key (w_service worker)));;
            if negb (r_retry req =? 0)%Z
            then dispatch fuel (w_service worker) None
            else Controller_rdel req
          else ret tt
      end
  end.

Definition workerDelete (fuel : nat) (workerId : string) (disconnect : bool) : M unit :=
  w <- gets (fun b => Js.get workerId (workers b));;
  match w with
  | None => modify (with_workers (Js.del workerId))
  | Some worker =>
      (if disconnect
       then send [Some workerId; Some MDP.WORKER; Some MDP.W_DISCONNECT]
       else ret tt);;
      (if Js.truthy (w_service worker)
       then serviceRequire (w_service worker);;
            modify (upd_service (fun s => s_with_workers (pull workerId (s_workers s)) s)
                      (Js.key (w_service worker)))
       else ret tt);;
      modify (with_workers (Js.del workerId));;
      each (workerDelete_rid fuel worker) (w_rids worker)
  end.

Definition serviceWorkerAdd (fuel : nat) (srvName workerId : string) : M unit :=
  service <- serviceRequire (Some srvName);;
  workerRequire workerId;;
  (if absent workerId (s_workers service) then
     modify (upd_worker (w_with_service (Some srvName)) workerId);;
     modify (upd_service (fun s => s_with_workers (s_workers s ++ [workerId]) s) srvName)
   else ret tt);;
  dispatch fuel (Some srvName) None.

(** [try { opts = JSON.parse(opts); } catch(e) {}; if (!_.isObject(opts)) opts = {}]. *)
Definition parse_opts (f : option string) : Opts :=
  match f with
  | Some s => default no_opts (JSON_parse E s)
  | None => no_opts
  end.

(** [v == c] for a frame [v] and a constant [c]. *)
Definition eqs (type : option string) (c : string) : bool :=
  match type with Some t => String.eqb t c | None => false end.

Definition onClient (fuel : nat) (msg : Message) : M unit :=
  let clientId := identity msg in
  let type := frame msg 2 in
  if eqs type MDP.W_REQUEST then
    let srvName := if Js.truthy (frame msg 3) then Js.key (frame msg 3) else "UNK" in
    let rid := frame msg 4 in
    let opts := parse_opts (frame msg 6) in
    c <- gets (fun b => cache (conf b));;
    rhash <- (if c then
                match frame msg 5 with
                | Some v => ret (Some (String.append srvName (md5_hex E v)))
                | None => throw
                end
              else ret None);;
    ts <- getTime;;
    a <- gets (fun b => length (heap b));;
    modify (with_heap (fun h => h ++ [
      {| r_service := srvName; r_clientId := clientId; r_attempts := 0; r_rid := rid;
         r_hash := rhash; r_timeout := orQ (o_timeout opts) 60000;
         r_retry := orZ (o_retry opts) 0; r_ts := ts; r_rejects := [];
         r_msg := frames msg; r_opts := opts; r_workerId := None |}]));;
    requestQueue fuel a
  else if eqs type MDP.W_HEARTBEAT then
    if Nat.eqb (length (frames msg)) 4 then
      let rid := frame msg 3 in
      a <- gets (fun b => rmap b !! Js.key rid);;
      r <- gets (fun b => a ≫= fun a => heap b !! a);;
      match r with
      | Some req =>
          if Js.truthy (r_workerId req)
          then send [r_workerId req; Some MDP.WORKER; Some MDP.W_HEARTBEAT;
                     Some clientId; Some ""; rid]
          else ret tt
      | None => ret tt
      end
    else ret tt
  else ret tt.

Definition onWorker (fuel : nat) (msg : Message) : M unit :=
  let workerId := identity msg in
  let type := frame msg 2 in
  wready <- gets (fun b => Js.has workerId (workers b));;
  workerRequire workerId;;
  if eqs type MDP.W_READY then
    let srvName := frame msg 3 in
    if negb (Js.truthy srvName) then workerDelete fuel workerId true
    else if negb wready then
      serviceRequire srvName;;
      serviceWorkerAdd fuel (Js.key srvName) workerId
    else ret tt
  else if negb wready then workerDelete fuel workerId true
  else
    modify (upd_worker (w_with_liveness HEARTBEAT_LIVENESS) workerId);;
    w <- gets (fun b => Js.get workerId (workers b));;
    match w with
    | None => throw
    | Some worker =>
        if eqs type MDP.W_REPLY || eqs type MDP.W_REPLY_PARTIAL || eqs type MDP.W_REPLY_REJECT then
          let rid := frame msg 5 in
          if absent rid (w_rids worker) then workerDelete fuel workerId true
          else
            a <- gets (fun b => rmap b !! Js.key rid);;
            r <- gets (fun b => a ≫= fun a => heap b !! a);;
            match a, r with
            | Some a, Some req =>
                serviceRequire (Some (r_service req));;
                if eqs type MDP.W_REPLY_REJECT then
                  modify (upd_request (fun r => r_with_rejects (r_rejects r ++ [workerId]) r) a);;
                  modify (upd_request (r_with_workerId None) a);;
                  modify (upd_worker (fun w => w_with_rids (pull rid (w_rids w)) w) workerId);;
                  modify (upd_service (fun s => s_with_q (s_q s ++ [a]) s) (r_service req));;
                  dispatch fuel (w_service worker) (Some "rand")
                else
                  let opts := parse_opts (frame msg 8) in
                  let obj := drop 6 (frames msg) in
                  reply (Js.key type) req obj;;
                  if eqs type MDP.W_REPLY then
                    modify (upd_worker (fun w => w_with_rids (pull rid (w_rids w)) w) workerId);;
                    Controller_rdel req;;
                    c <- gets (fun b => cache (conf b));;
                    (if c && truthyZ (o_cache opts)
                     then Cache_set (r_hash req) obj (o_cache opts)
                     else ret tt);;
                    dispatch fuel (w_service worker) None
                  else ret tt
            | _, _ => workerDelete fuel workerId true
            end
        else if eqs type MDP.W_HEARTBEAT then
          match (frame msg 4) ≫= JSON_parse E with
          | Some opts =>
              match o_concurrency opts with
              | Some c => modify (upd_worker (w_with_concurrency c) workerId)
              | None => ret tt
              end
          | None => ret tt
          end
        else if eqs type MDP.W_DISCONNECT then workerDelete fuel workerId false
        else ret tt
    end.

(** The function [workersCheck] applies to each worker id. *)
Definition workersCheck_worker (fuel : nat) (workerId : string) : M unit :=
  w <- gets (fun b => Js.get workerId (workers b));;
  match w with
  | None => workerDelete fuel workerId true
  | Some worker =>
      modify (upd_worker (w_with_liveness (w_liveness worker - 1)) workerId);;
      if (w_liveness worker - 1 <? 0)%Z
      then workerDelete fuel workerId true
      else send [Some workerId; Some MDP.WORKER; Some MDP.W_HEARTBEAT]
  end.

Definition workersCheck (fuel : nat) : M unit :=
  last <- gets _wcheck;;
  early <- (if truthyZ last
            then now <- getTime;;
                 h <- gets (fun b => heartbeat (conf b));;
                 ret (now - default 0%Z last <? h)%Z
            else ret false);;
  if early then ret tt
  else
    now <- getTime;;
    modify (with_wcheck (Some now));;
    ids <- gets (fun b => Js.own_keys (workers b));;
    each (workersCheck_worker fuel) ids.

Definition onMsg (fuel : nat) (msg : Message) : M unit :=
  let header := frame msg 1 in
  (if eqs header MDP.CLIENT then onClient fuel msg
   else if eqs header MDP.WORKER then onWorker fuel msg
   else ret tt);;
  workersCheck fuel.

(** One callback deferred with [setImmediate]. *)
Definition run_task (fuel : nat) (t : Task) : M unit :=
  match t with
  | TDispatch srvName mode => dispatch fuel srvName mode
  | TCacheGet a wk worker =>
      r <- gets (fun b => heap b !! a);;
      match r with
      | None => throw
      | Some req =>
          res <- Cache_get (r_hash req);;
          match res with
          | Some d => reply MDP.W_REPLY req d;; Controller_rdel req
          | None => _rproc wk worker a
          end
      end
  end.

(** The events of the loop: a message from the socket, the heartbeat
    timer, or the oldest deferred callback. *)
Inductive Event := EMsg (msg : Message) | ETimer | EImmediate.

Definition step (fuel : nat) (e : Event) : M unit :=
  match e with
  | EMsg msg => onMsg fuel msg
  | ETimer => workersCheck fuel
  | EImmediate =>
      p <- gets pending;;
      match p with
      | [] => ret tt
      | t :: p' => modify (with_pending (fun _ => p'));; run_task fuel t
      end
  end.

Fixpoint run (fuel : nat) (es : list Event) : M unit :=
  match es with
  | [] => ret tt
  | e :: es' => step fuel e;; run fuel es'
  end.

End Handlers.

(** A runtime to evaluate examples in: the clock advances one millisecond
    with each reading, the random draws count upwards, the sort keeps the
    order it finds, the frame "c1" parses to [{concurrency: 1}] and "t-1"
    to [{timeout: -1}], and the digest of a frame is the frame. *)
Definition sample_env : Env :=
  {| clock := fun n => (1000 + Z.of_nat n)%Z;
     random := fun n => n;
     array_sort := fun _ l => l;
     array_sort_perm := fun _ l => Permutation_refl l;
     JSON_parse := fun s =>
       if String.eqb s "c1" then
         Some {| o_timeout := None; o_retry := None; o_persist := None;
                 o_cache := None; o_concurrency := Some 1%Z |}
       else if String.eqb s "t-1" then
         Some {| o_timeout := Some (-1)%Q; o_retry := None; o_persist := None;
                 o_cache := None; o_concurrency := None |}
       else None;
     md5_hex := fun v => v |}.

(** * Vocabulary of the properties, and scenarios *)

(** The value a handler returns, when it returns. *)
Definition result {A} (r : Res A) : option A :=
  match r with Ok a _ => Some a | _ => None end.

(** The words of the specification: the timeout is non-negative and the
    current time exceeds [ts + timeout]. *)
Definition timed_out (now : Z) (req : Request) : Prop :=
  (0 <= r_timeout req)%Q ∧ (r_ts req + r_timeout req < now)%Q.

(** The request has a deadline, which is a timeout greater than -1, and the
    clock is past it. *)
Definition past_deadline (now : Z) (req : Request) : Prop :=
  (-1 < r_timeout req)%Q ∧ (r_ts req + r_timeout req < now)%Q.




(** A fresh broker after [set("h", ["3"], {expire: 5})] at time 1000. *)
Definition cache_after_set : Broker :=
  state_of (Cache_set sample_env (Some "h") ["3"] (Some 5%Z) (Broker_new default_conf)).

(** The same broker four clock readings later: the next reading is 1005. *)
Definition cache_at_expiry : Broker :=
  tick_clock (tick_clock (tick_clock (tick_clock cache_after_set))).

(** The words of the specification: a worker is over its limit when the
    limit is non-negative and the number of its assignments exceeds it. *)
Definition exceeds_limit (w : Worker) : Prop :=
  (0 <= w_concurrency w)%Z ∧ (Z.of_nat (length (w_rids w)) > w_concurrency w)%Z.

(** The words of the specification: a service name that ends in '*' is a
    wildcard pattern, and it matches the names that start with the
    characters before the '*'. *)
Definition matches (pattern name : string) : Prop :=
  ∃ p t, pattern = p +:+ "*" ∧ name = p +:+ t.

(** [ent] is the first element of [ents] that is as [Q] says. *)
Definition first_with {A} (Q : A → Prop) (ents : list A) (ent : A) : Prop :=
  ∃ l1 l2, ents = l1 ++ ent :: l2 ∧ Q ent ∧ ∀ e, e ∈ l1 → ¬ Q e.

(** The words of the specification: [ent] is a wildcard service whose
    pattern matches [name] and which has workers. *)
Definition matching_wildcard (name : string) (ent : string * Service) : Prop :=
  matches ent.1 name ∧ s_workers ent.2 ≠ [].

(** [ent] is another service, whose name the pattern [name] matches and
    which has requests queued. *)
Definition matching_queue (name : string) (ent : string * Service) : Prop :=
  ent.1 ≠ name ∧ matches name ent.1 ∧ s_q ent.2 ≠ [].

(** The test the scan for a concrete name makes on an entry. *)
Definition wildcard_for (name : string) (ent : string * Service) : bool :=
  Js.ends_with_star ent.1
  && String.prefix (Js.slice_init ent.1) name
  && nonempty (s_workers ent.2).

(** The queue of the service stored under [k]; empty when there is none. *)
Definition queue_of (k : string) (b : Broker) : list nat :=
  match Js.get k (services b) with
  | Some s => s_q s
  | None => []
  end.

(** A client request with an empty service-name frame. *)
Definition nameless_request : Message :=
  {| identity := "C"; rest := [MDP.CLIENT; MDP.W_REQUEST; ""; "7"; "hi"; "{}"] |}.

(** A client request that ends after the command frame. *)
Definition bare_request : Message :=
  {| identity := "C"; rest := [MDP.CLIENT; MDP.W_REQUEST] |}.

(** The default configuration with the cache on. *)
Definition caching_conf : Conf :=
  {| heartbeat := 2500; dmode := "load"; rattempts := 5; cache := true |}.

(** [P] holds of the state a handler reaches (whether it returns, spins or
    throws) whenever it held of the state the handler started in. *)
Definition stable {A} (P : Broker → Prop) (m : M A) : Prop :=
  ∀ b, P b → P (state_of (m b)).

(** [P] survives the updates that the dispatcher and the reply path make:
    they do not delete from [rmap], and they neither add nor remove a key of
    [workers]. *)
Record Framed (P : Broker → Prop) : Prop := {
  fr_services : ∀ f b, P b → P (with_services f b);
  fr_worker : ∀ f k b, P b → P (upd_worker f k b);
  fr_rmap : ∀ k a b, P b → P (with_rmap (insert k a) b);
  fr_ctrl : ∀ f b, P b → P (with_ctrl f b);
  fr_cache : ∀ f b, P b → P (with_cache f b);
  fr_heap : ∀ f b, P b → P (with_heap f b);
  fr_sent : ∀ m b, P b → P (with_sent (λ l, l ++ [m]) b);
  fr_pending : ∀ f b, P b → P (with_pending f b);
  fr_clock : ∀ b, P b → P (tick_clock b);
  fr_random : ∀ b, P b → P (tick_random b)
}.

(** The frame [workerDelete] sends to a worker it disconnects. *)
Definition disconnect_frame (workerId : string) : list (option string) :=
  [Some workerId; Some MDP.WORKER; Some MDP.W_DISCONNECT].

(** The broker once [workerDelete] has sent the DISCONNECT frame, taken
    the worker off its service and deleted its record. *)
Definition without_worker (workerId : string) (disconnect : bool) (worker : Worker)
           (b : Broker) : Broker :=
  let b1 := if disconnect && socket b
            then with_sent (λ l, l ++ [disconnect_frame workerId]) b else b in
  let b2 := if Js.truthy (w_service worker)
            then upd_service (λ s, s_with_workers (pull workerId (s_workers s)) s)
                   (Js.key (w_service worker))
                   (state_of (serviceRequire (w_service worker) b1))
            else b1 in
  with_workers (Js.del workerId) b2.

(** The broker with the counts of clock readings and random draws set. *)
Definition with_ticks (c r : nat) (b : Broker) : Broker :=
  {| services := services b; workers := workers b; rmap := rmap b; conf := conf b;
     ctrl_reqs := ctrl_reqs b; cache_m := cache_m b; heap := heap b; socket := socket b;
     sent := sent b; pending := pending b; _wcheck := _wcheck b; n_clock := c;
     n_random := r; n_oid := n_oid b |}.

(** The only worker [w] of the service [srv] has rejected the only queued
    request, which has no deadline, and the next attempt reaches the
    ceiling [rattempts]. *)
Definition stuck_request (srv w : string) (a : nat) (b : Broker) : Prop :=
  srv ≠ "" ∧ w ≠ ""
  ∧ (dmode (conf b) = "load" ∨ dmode (conf b) = "rand")
  ∧ ∃ service worker req,
      Js.get srv (services b) = Some service
      ∧ s_workers service = [w] ∧ s_q service = [a]
      ∧ Js.get w (workers b) = Some worker ∧ over_limit worker = false
      ∧ heap b !! a = Some req
      ∧ (r_timeout req <= -1)%Q
      ∧ w_workerId worker ∈ r_rejects req
      ∧ (rattempts (conf b) <= r_attempts req + 1)%Z.

(** The messages of the wire protocol, as they reach [onMsg]. *)
Definition ready (id srv : string) : Message :=
  {| identity := id; rest := [MDP.WORKER; MDP.W_READY; srv] |}.

Definition worker_heartbeat (id opts : string) : Message :=
  {| identity := id; rest := [MDP.WORKER; MDP.W_HEARTBEAT; ""; opts] |}.

Definition request (id srv rid payload opts : string) : Message :=
  {| identity := id; rest := [MDP.CLIENT; MDP.W_REQUEST; srv; rid; payload; opts] |}.

Definition final_reply (id client rid payload : string) : Message :=
  {| identity := id; rest := [MDP.WORKER; MDP.W_REPLY; client; ""; rid; payload] |}.

Definition partial_reply (id client rid payload : string) : Message :=
  {| identity := id; rest := [MDP.WORKER; MDP.W_REPLY_PARTIAL; client; ""; rid; payload] |}.

Definition reject (id client rid : string) : Message :=
  {| identity := id; rest := [MDP.WORKER; MDP.W_REPLY_REJECT; client; ""; rid] |}.

Definition disconnect (id : string) : Message :=
  {| identity := id; rest := [MDP.WORKER; MDP.W_DISCONNECT] |}.

(** A worker W registered for "echo". *)
Definition registered : Broker :=
  state_of (onWorker sample_env 5 (ready "W" "echo") (Broker_new default_conf)).

(** W registered for "echo" and request "1" of client C assigned to it. *)
Definition echo_assigned : Broker :=
  state_of (run sample_env 5
              [EMsg (ready "W" "echo"); EMsg (request "C" "echo" "1" "hi" "{}")]
              (Broker_new default_conf)).

(** The request record in that broker. *)
Definition echo_request : Request :=
  {| r_service := "echo"; r_clientId := "C"; r_attempts := 1; r_rid := Some "1";
     r_hash := None; r_timeout := 60000; r_retry := 0; r_ts := 1001; r_rejects := [];
     r_msg := frames (request "C" "echo" "1" "hi" "{}"); r_opts := no_opts;
     r_workerId := Some "W" |}.

(** The record of W in that broker: one heartbeat tick has passed. *)
Definition echo_worker : Worker :=
  {| w_workerId := "W"; w_service := Some "echo"; w_liveness := 2;
     w_rids := [Some "1"]; w_concurrency := 100; w_oid := 0 |}.

(** W registered for "svc" with concurrency 1, request "1" assigned to it. *)
Definition one_in_flight : Broker :=
  state_of (run sample_env 5
              [EMsg (ready "W" "svc"); EMsg (worker_heartbeat "W" "c1");
               EMsg (request "C" "svc" "1" "a" "{}")]
              (Broker_new default_conf)).

(** A second request for "svc", as [onClient] builds it. *)
Definition second_request : Request :=
  {| r_service := "svc"; r_clientId := "C"; r_attempts := 0; r_rid := Some "2";
     r_hash := None; r_timeout := 60000; r_retry := 0; r_ts := 1003; r_rejects := [];
     r_msg := frames (request "C" "svc" "2" "b" "{}"); r_opts := no_opts;
     r_workerId := None |}.

(** The same broker with a second request at the tail of the queue of
    "svc", as [requestQueue] leaves it for the dispatcher. *)
Definition second_queued : Broker :=
  upd_service (λ s, s_with_q (s_q s ++ [1]) s) "svc"
    (with_heap (λ h, h ++ [second_request]) one_in_flight).

(** What the dispatcher makes of it. *)
Definition over_limit_state : Broker :=
  state_of (dispatch sample_env 5 (Some "svc") None second_queued).

(** The only worker of "svc" has rejected the only request four times; the
    request has no deadline. *)
Definition rejected_request : Request :=
  {| r_service := "svc"; r_clientId := "C"; r_attempts := 4; r_rid := Some "1";
     r_hash := None; r_timeout := -1; r_retry := 0; r_ts := 1001;
     r_rejects := ["W"; "W"; "W"; "W"];
     r_msg := frames (request "C" "svc" "1" "hi" "t-1");
     r_opts := {| o_timeout := Some (-1)%Q; o_retry := None; o_persist := None;
                  o_cache := None; o_concurrency := None |};
     r_workerId := None |}.

(** The broker when the handler of the fourth reject calls [dispatch]. *)
Definition rejected_four_times : Broker :=
  {| services := [("svc", {| s_name := Some "svc"; s_workers := ["W"]; s_q := [0] |})];
     workers := [("W", w_with_service (Some "svc") (new_worker "W" 0))];
     rmap := {[ "1" := 0 ]}; conf := default_conf; ctrl_reqs := ∅; cache_m := ∅;
     heap := [rejected_request]; socket := true; sent := []; pending := [];
     _wcheck := Some 1000%Z; n_clock := 6; n_random := 3; n_oid := 1 |}.

(** A worker for the pattern "audio.*", and a request queued for
    "audio.transcode", which has no worker of its own. *)
Definition wildcard_broker : Broker :=
  {| services :=
       [("audio.*", {| s_name := Some "audio.*"; s_workers := ["W"]; s_q := [] |});
        ("audio.transcode",
          {| s_name := Some "audio.transcode"; s_workers := []; s_q := [0] |})];
     workers := [("W", w_with_service (Some "audio.*") (new_worker "W" 0))];
     rmap := ∅; conf := default_conf; ctrl_reqs := ∅; cache_m := ∅;
     heap := [ {| r_service := "audio.transcode"; r_clientId := "C"; r_attempts := 0;
                  r_rid := Some "9"; r_hash := None; r_timeout := 60000; r_retry := 0;
                  r_ts := 1001; r_rejects := [];
                  r_msg := frames (request "C" "audio.transcode" "9" "x" "{}");
                  r_opts := no_opts; r_workerId := None |} ];
     socket := true; sent := []; pending := [];
     _wcheck := Some 1000%Z; n_clock := 2; n_random := 0; n_oid := 1 |}.

(** W1 serves "a*" with the concurrency limit 1 and holds two requests, W2
    serves "ab*" and holds nothing, and a request for "abc" has arrived. *)
Definition two_patterns : Broker :=
  state_of (run sample_env 5
              [EMsg (ready "W1" "a*"); EMsg (worker_heartbeat "W1" "c1");
               EMsg (request "C" "a1" "1" "x" "{}"); EMsg (request "C" "a2" "2" "x" "{}");
               EMsg (ready "W2" "ab*"); EMsg (request "C" "abc" "3" "x" "{}")]
              (Broker_new default_conf)).

(** What a handler may change in a request record: the attempts grow, the
    rejects are appended to, and the assignment comes and goes. *)
Definition same_request (r r' : Request) : Prop :=
  r_service r' = r_service r ∧ r_clientId r' = r_clientId r ∧ r_rid r' = r_rid r
  ∧ r_hash r' = r_hash r ∧ r_timeout r' = r_timeout r ∧ r_retry r' = r_retry r
  ∧ r_ts r' = r_ts r ∧ r_msg r' = r_msg r ∧ r_opts r' = r_opts r
  ∧ (r_attempts r <= r_attempts r')%Z ∧ r_rejects r `prefix_of` r_rejects r'.

(** [P] survives every update the handlers make: a service is created
    under a key that is free and updated under its name, a request record
    is appended or updated as [same_request] allows, a frame is written when
    the socket is there. *)
Record Kept (P : Broker → Prop) : Prop := {
  kp_service_new : ∀ srvName b,
    Js.get (Js.key srvName) (services b) = None → P b →
    P (with_services (Js.set (Js.key srvName) (new_service srvName)) b);
  kp_service : ∀ f k b, (∀ s, s_name (f s) = s_name s) → P b → P (upd_service f k b);
  kp_workers : ∀ f b, P b → P (with_workers f b);
  kp_rmap : ∀ f b, P b → P (with_rmap f b);
  kp_ctrl : ∀ f b, P b → P (with_ctrl f b);
  kp_cache : ∀ f b, P b → P (with_cache f b);
  kp_request_new : ∀ r b, P b → P (with_heap (λ h, h ++ [r]) b);
  kp_request : ∀ f a b, (∀ r, same_request r (f r)) → P b → P (upd_request f a b);
  kp_send : ∀ m b, P b → P (if socket b then with_sent (λ l, l ++ [m]) b else b);
  kp_pending : ∀ f b, P b → P (with_pending f b);
  kp_wcheck : ∀ v b, P b → P (with_wcheck v b);
  kp_clock : ∀ b, P b → P (tick_clock b);
  kp_random : ∀ b, P b → P (tick_random b);
  kp_oid : ∀ b, P b → P (tick_oid b)
}.

(** The test the scan for a wildcard name makes on an entry. *)
Definition queued_under (name : string) (ent : string * Service) : bool :=
  negb (String.eqb name ent.1)
  && String.prefix (Js.slice_init name) ent.1
  && nonempty (s_q ent.2).

(** The frame [_rproc] sends to the worker. *)
Definition request_frame (worker : Worker) (req : Request) : list (option string) :=
  [Some (w_workerId worker); Some MDP.WORKER; Some MDP.W_REQUEST;
   Some (r_clientId req); Some (r_service req); Some ""]
    ++ (Some <$> drop 4 (r_msg req)).

(** The broker once [_rproc] has assigned the request at [a], whose
    record is [req], to the worker read as [worker] under the key [wk]. *)
Definition assigned (wk : string) (worker : Worker) (a : nat) (req : Request)
           (b : Broker) : Broker :=
  let b1 := upd_worker
              (λ w, if Nat.eqb (w_oid w) (w_oid worker)
                    then w_with_rids (w_rids w ++ [r_rid req]) w else w) wk
              (upd_request (r_with_workerId (Some (w_workerId worker))) a
                 (with_rmap (insert (Js.key (r_rid req)) a) b)) in
  let b2 := if truthyZ (o_persist (r_opts req))
            then with_ctrl (insert (Js.key (r_rid req)) a) b1 else b1 in
  if socket b then with_sent (λ l, l ++ [request_frame worker req]) b2 else b2.

(** Two entries of a table with the same key, and the same value unless
    the key is [k]. *)
Definition alike {V} (k : string) (e e' : string * V) : Prop :=
  e.1 = e'.1 ∧ (e.1 ≠ k → e = e').

(** How many of [n] queued requests a worker with the concurrency limit
    [limit] that holds [held] requests is given by one run of the
    dispatcher: all of them without a limit, and otherwise as many as bring
    its assignments to [limit + 1]. *)
Definition room (limit : Z) (held : nat) (n : nat) : nat :=
  if (limit >? -1)%Z then min n (Z.to_nat (limit + 1 - Z.of_nat held)) else n.

(** The rid of the request at [a], and the frame that assigns it. *)
Definition rid_at (b : Broker) (a : nat) : option string :=
  match heap b !! a with Some req => r_rid req | None => None end.

Definition frame_at (b : Broker) (worker : Worker) (a : nat) : list (option string) :=
  match heap b !! a with Some req => request_frame worker req | None => [] end.

(** The request table [m] once the requests at [l] have been entered in
    it under their rids, in that order. *)
Definition tabled (b : Broker) (m : gmap string nat) (l : list nat) : gmap string nat :=
  foldl (λ m a, <[Js.key (rid_at b a) := a]> m) m l.

(** The request at [a] has not been rejected by the worker [wid], and its
    deadline is not reached by any of the next [k] readings of the clock. *)
Definition waiting (E : Env) (b : Broker) (wid : string) (k : nat) (a : nat) : Prop :=
  ∃ req, heap b !! a = Some req
         ∧ (wid ∉ r_rejects req)
         ∧ ((r_timeout req <= -1)%Q
            ∨ ∀ n, n < k → (clock E (n_clock b + n) <= r_ts req + r_timeout req)%Q).

(** The heartbeat the broker sends to a worker. *)
Definition heartbeat_frame (workerId : string) : list (option string) :=
  [Some workerId; Some MDP.WORKER; Some MDP.W_HEARTBEAT].

(** [workersCheck] has not run yet, or its last run is at least a heartbeat
    interval back at the next reading of the clock. *)
Definition check_due (E : Env) (b : Broker) : Prop :=
  match _wcheck b with
  | Some last => last = 0%Z ∨ (heartbeat (conf b) <= clock E (n_clock b) - last)%Z
  | None => True
  end.

(** What a check makes of a worker record: one unit of liveness less, and
    no record at all once the liveness is below zero. *)
Definition aged (worker : Worker) : option Worker :=
  if (w_liveness worker - 1 <? 0)%Z then None
  else Some (w_with_liveness (w_liveness worker - 1) worker).

(** The frame a check sends to the worker [workerId]. *)
Definition check_frame (b : Broker) (workerId : string) : list (option string) :=
  match Js.get workerId (workers b) ≫= aged with
  | Some _ => heartbeat_frame workerId
  | None => disconnect_frame workerId
  end.


(** The record of W in [registered]. *)
Definition fresh_echo_worker : Worker := w_with_service (Some "echo") (new_worker "W" 0).

(** A request of client C for "svc" with the rid [rid], submitted at 1001
    with the default deadline. *)
Definition svc_request (rid : string) : Request :=
  {| r_service := "svc"; r_clientId := "C"; r_attempts := 0; r_rid := Some rid;
     r_hash := None; r_timeout := 60000; r_retry := 0; r_ts := 1001; r_rejects := [];
     r_msg := frames (request "C" "svc" rid "x" "{}"); r_opts := no_opts;
     r_workerId := None |}.




(** The cache is on; the dispatcher has selected W for a request with the
    fingerprint "svch", and the lookup in the cache is pending.  The cache
    holds an entry for the fingerprint that expires at [exp]. *)
Definition cached_request : Request :=
  {| r_service := "svc"; r_clientId := "C"; r_attempts := 1; r_rid := Some "1";
     r_hash := Some "svch"; r_timeout := 60000; r_retry := 0; r_ts := 1001;
     r_rejects := []; r_msg := frames (request "C" "svc" "1" "h" "{}");
     r_opts := no_opts; r_workerId := None |}.

Definition lookup_pending (exp : Z) : Broker :=
  {| services := [("svc", {| s_name := Some "svc"; s_workers := ["W"]; s_q := [] |})];
     workers := [("W", w_with_service (Some "svc") (new_worker "W" 0))];
     rmap := ∅;
     conf := {| heartbeat := 2500; dmode := "load"; rattempts := 5; cache := true |};
     ctrl_reqs := ∅;
     cache_m := {[ "svch" := {| data := ["cached"]; expire := exp |} ]};
     heap := [cached_request]; socket := true; sent := [];
     pending := [TCacheGet 0 "W" (w_with_service (Some "svc") (new_worker "W" 0))];
     _wcheck := Some 1000%Z; n_clock := 4; n_random := 0; n_oid := 1 |}.

(** What a deferred callback needs of the broker it will run in: a
    re-entry of [dispatch] has a service name, and a cache lookup refers to
    a request record and to a worker record that, if it is still the
    registered one, belongs to a service. *)
Definition task_ok (wks : list (string * Worker)) (hl no : nat) (t : Task) : Prop :=
  match t with
  | TDispatch srvName _ => is_Some srvName
  | TCacheGet a wk worker =>
      a < hl ∧ w_oid worker < no
      ∧ ∀ w', Js.get wk wks = Some w' → w_oid w' = w_oid worker →
              ∃ k, w_service w' = Some k ∧ k ≠ ""
  end.

(** The registries fit together: service keys are distinct; a worker
    listed by a service is registered and belongs to that service, whose
    name is not empty; queued requests and the requests of the request
    table exist; a worker that holds requests belongs to a service; worker
    records are older than the next one to be created; deferred callbacks
    are as [task_ok] says. *)
Record WF (svs : list (string * Service)) (wks : list (string * Worker))
       (rm : gmap string nat) (hl : nat) (pe : list Task) (no : nat) : Prop := {
  wf_keys : NoDup svs.*1;
  wf_listed : ∀ k s w,
    Js.get k svs = Some s → w ∈ s_workers s →
    k ≠ "" ∧ ∃ worker, Js.get w wks = Some worker ∧ w_service worker = Some k;
  wf_queued : ∀ k s a, Js.get k svs = Some s → a ∈ s_q s → a < hl;
  wf_rmap : ∀ k a, rm !! k = Some a → a < hl;
  wf_rids : ∀ w worker,
    Js.get w wks = Some worker → w_rids worker ≠ [] →
    ∃ k, w_service worker = Some k ∧ k ≠ "";
  wf_oid : ∀ w worker, Js.get w wks = Some worker → w_oid worker < no;
  wf_pending : ∀ t, t ∈ pe → task_ok wks hl no t
}.

Definition well_formed (b : Broker) : Prop :=
  WF (services b) (workers b) (rmap b) (length (heap b)) (pending b) (n_oid b).

(** A handler that has returned or is still in the loop of [dispatch] has
    left a well-formed broker, and it has not thrown. *)
Definition fine {A} (r : Res A) : Prop :=
  match r with
  | Ok _ b | Spin b => well_formed b
  | Throw _ => False
  end.

(** A rid that is not the name of a property inherited from
    [Object.prototype]. *)
Definition plain (rid : option string) : Prop := Js.inherited (Js.key rid) = false.

(** The rids in use are plain: those of the request records, and those
    the workers hold. *)
Definition plain_rids (b : Broker) : Prop :=
  (∀ a req, heap b !! a = Some req → plain (r_rid req))
  ∧ (∀ w worker, Js.get w (workers b) = Some worker → Forall plain (w_rids worker)).

(** An event the properties of this part are about: the rid of a client
    request is plain, and, when the cache is on, the request has the payload
    frame the digest is computed of. *)
Definition acceptable (cache_on : bool) (e : Event) : Prop :=
  match e with
  | EMsg msg =>
      eqs (frame msg 1) MDP.CLIENT = true → eqs (frame msg 2) MDP.W_REQUEST = true →
      plain (frame msg 4) ∧ (cache_on = true → is_Some (frame msg 5))
  | _ => True
  end.

(** [b'] has the services of [b], with the same queues, and lists every
    worker [b] lists. *)
Definition same_queues (b b' : Broker) : Prop :=
  ∀ k s, Js.get k (services b) = Some s →
         ∃ s', Js.get k (services b') = Some s' ∧ s_q s' = s_q s
               ∧ ∀ w, w ∈ s_workers s → w ∈ s_workers s'.

(** Three requests wait for "svc", which no worker serves yet. *)
Definition backlog : Broker :=
  {| services := [("svc", {| s_name := Some "svc"; s_workers := []; s_q := [0; 1; 2] |})];
     workers := [];
     rmap := ∅; conf := default_conf; ctrl_reqs := ∅; cache_m := ∅;
     heap := [svc_request "1"; svc_request "2"; svc_request "3"];
     socket := true; sent := []; pending := [];
     _wcheck := Some 1000%Z; n_clock := 4; n_random := 0; n_oid := 0 |}.

(** A request for "svc" with its fingerprint, as the broker records it
    when the cache is on. *)
Definition hashed_request (rid payload : string) : Request :=
  {| r_service := "svc"; r_clientId := "C"; r_attempts := 0; r_rid := Some rid;
     r_hash := Some (String.append "svc" payload); r_timeout := 60000; r_retry := 0; r_ts := 1001;
     r_rejects := []; r_msg := frames (request "C" "svc" rid payload "{}");
     r_opts := no_opts; r_workerId := None |}.

Definition one_at_a_time : Worker :=
  w_with_concurrency 1 (w_with_service (Some "svc") (new_worker "W" 0)).

(** The cache is on and empty; W serves "svc" with the concurrency limit 1
    and holds nothing; three requests are queued. *)
Definition cache_waiting : Broker :=
  {| services := [("svc", {| s_name := Some "svc"; s_workers := ["W"]; s_q := [0; 1; 2] |})];
     workers := [("W", one_at_a_time)];
     rmap := ∅;
     conf := {| heartbeat := 2500; dmode := "load"; rattempts := 5; cache := true |};
     ctrl_reqs := ∅; cache_m := ∅;
     heap := [hashed_request "1" "x"; hashed_request "2" "y"; hashed_request "3" "z"];
     socket := true; sent := []; pending := [];
     _wcheck := Some 1000%Z; n_clock := 4; n_random := 0; n_oid := 1 |}.

(** That broker once the dispatcher has run for "svc". *)
Definition lookups_deferred : Broker :=
  state_of (dispatch sample_env 4 (Some "svc") None cache_waiting).

(** * Properties *)

(** ** Tables: lookups after updates *)

Module JsFacts.
Import Js.

Section Table.
Context {V : Type}.
Implicit Types (o : list (string * V)) (k : string).

Lemma get_set_eq k v o : get k (set k v o) = Some v.
Proof.
  induction o as [|[k' v'] o IH]; simpl.
  - now rewrite String.eqb_refl.
  - destruct (String.eqb k k') eqn:Hk; simpl.
    + now rewrite String.eqb_refl.
    + now rewrite Hk.
Qed.

Lemma get_set_ne k k' v o : k ≠ k' → get k (set k' v o) = get k o.
Proof.
  intros Hne. induction o as [|[k0 v0] o IH]; simpl.
  - apply String.eqb_neq in Hne. now rewrite Hne.
  - destruct (String.eqb k' k0) eqn:Hk; simpl.
    + apply String.eqb_eq in Hk. subst k0.
      apply String.eqb_neq in Hne. now rewrite Hne.
    + now rewrite IH.
Qed.

Lemma get_del_eq k o : get k (del k o) = None.
Proof.
  induction o as [|[k' v'] o IH]; simpl; [done|].
  destruct (String.eqb k k') eqn:Hk; simpl; [done|]. now rewrite Hk.
Qed.

Lemma get_del_ne k k' o : k ≠ k' → get k (del k' o) = get k o.
Proof.
  intros Hne. induction o as [|[k0 v0] o IH]; simpl; [done|].
  destruct (String.eqb k' k0) eqn:Hk; simpl.
  - apply String.eqb_eq in Hk. subst k0.
    apply String.eqb_neq in Hne. now rewrite Hne.
  - now rewrite IH.
Qed.

Lemma get_upd_eq k f o v : get k o = Some v → get k (upd k f o) = Some (f v).
Proof. intros H. unfold upd. rewrite H. apply get_set_eq. Qed.

Lemma get_upd_ne k k' f o : k ≠ k' → get k (upd k' f o) = get k o.
Proof.
  intros Hne. unfold upd. destruct (get k' o); [|done]. now apply get_set_ne.
Qed.

Lemma get_upd k k' f o :
  get k (upd k' f o) = if String.eqb k k' then f <$> get k o else get k o.
Proof.
  destruct (String.eqb_spec k k') as [->|Hne].
  - destruct (get k' o) eqn:H; simpl.
    + now apply get_upd_eq.
    + unfold upd. now rewrite H.
  - now apply get_upd_ne.
Qed.

Lemma get_upd_None k k' f o : get k o = None → get k (upd k' f o) = None.
Proof. intros H. rewrite get_upd, H. now destruct (String.eqb k k'). Qed.

Lemma get_upd_is_Some k k' f o : is_Some (get k (upd k' f o)) ↔ is_Some (get k o).
Proof.
  rewrite get_upd. destruct (String.eqb k k'); [|done].
  now rewrite fmap_is_Some.
Qed.

End Table.

(** [s.indexOf(p) === 0] says that [s] starts with [p]. *)
Lemma index_0_prefix p s : String.index 0 p s = Some 0 ↔ String.prefix p s = true.
Proof.
destruct s as [|c s].
- destruct p; simpl; split; congruence.
- change (String.index 0 p (String c s))
    with (if String.prefix p (String c s) then Some 0
          else match String.index 0 p s with
               | Some n => Some (S n)
               | None => None
               end).
  destruct (String.prefix p (String c s)); [done|].
  split; [|done]. destruct (String.index 0 p s); congruence.
Qed.

Lemma starts_with_init_prefix s p :
starts_with_init s p = String.prefix (slice_init p) s.
Proof.
unfold starts_with_init, indexOf.
destruct (String.prefix (slice_init p) s) eqn:Hp.
- apply index_0_prefix in Hp. now rewrite Hp.
- destruct (String.index 0 (slice_init p) s) as [[|n]|] eqn:Hi; [|done..].
  apply index_0_prefix in Hi. congruence.
Qed.

(** [({})["constructor"]] is the function [Object], while [({})["undefined"]]
    and [({})["1"]] are [undefined]. *)
Lemma inherited_names :
  inherited "constructor" = true ∧ inherited "__proto__" = true
  ∧ inherited (key None) = false ∧ inherited "1" = false.
Proof. repeat split. Qed.

(** Strings that end in a given character, and strings that start with a
    given string. *)
Lemma length_append (p t : string) :
  String.length (p +:+ t) = String.length p + String.length t.
Proof. induction p as [|c p IH]; simpl; [done|]. now rewrite IH. Qed.

Lemma get_append_end (p : string) (c : ascii) :
  String.get (String.length p) (p +:+ String c "") = Some c.
Proof. induction p as [|a p IH]; simpl; [done|exact IH]. Qed.

Lemma substring_append_init (p t : string) :
  String.substring 0 (String.length p) (p +:+ t) = p.
Proof.
  induction p as [|a p IH]; simpl.
  - now destruct t.
  - now rewrite IH.
Qed.

Lemma last_char_append (p : string) (c : ascii) : last_char (p +:+ String c "") = Some c.
Proof.
  unfold last_char. rewrite length_append. simpl.
  replace (String.length p + 1) with (S (String.length p)) by lia.
  apply get_append_end.
Qed.

Lemma slice_init_append (p : string) (c : ascii) : slice_init (p +:+ String c "") = p.
Proof.
  unfold slice_init. rewrite length_append. simpl.
  replace (String.length p + 1 - 1) with (String.length p) by lia.
  apply substring_append_init.
Qed.

Lemma last_char_inv (s : string) (c : ascii) :
  last_char s = Some c → ∃ p, s = p +:+ String c "".
Proof.
  induction s as [|a s IH]; [done|].
  destruct s as [|a' s'].
  - simpl. intros [= ->]. now exists "".
  - intros H. destruct IH as [p Hp]; [exact H|].
    exists (String a p). now rewrite Hp.
Qed.

Lemma append_star_inj (p q : string) (c : ascii) :
  p +:+ String c "" = q +:+ String c "" → p = q.
Proof.
  intros H. rewrite <- (slice_init_append p c), <- (slice_init_append q c). now rewrite H.
Qed.

Lemma ends_with_star_iff (s : string) : ends_with_star s = true ↔ ∃ p, s = p +:+ "*".
Proof.
  unfold ends_with_star. split.
  - destruct (last_char s) as [c|] eqn:Hc; [|done].
    intros H. apply Ascii.eqb_eq in H. subst c. now apply last_char_inv.
  - intros [p ->]. now rewrite last_char_append.
Qed.

Lemma prefix_iff (p s : string) : String.prefix p s = true ↔ ∃ t, s = p +:+ t.
Proof.
  revert s. induction p as [|a p IH]; intros s.
  - split; [intros _; now exists s|]. intros _. now destruct s.
  - destruct s as [|b s]; simpl.
    + split; [done|]. intros [t Ht]. discriminate Ht.
    + destruct (ascii_dec a b) as [<-|Hne].
      * rewrite IH. split; intros [t Ht]; exists t.
        -- now rewrite Ht.
        -- now injection Ht.
      * split; [done|]. intros [t Ht]. injection Ht as Hab _. congruence.
Qed.

End JsFacts.

(** ** Request validation *)

Lemma Qgtb_spec (x y : Q) : reflect (y < x)%Q (Qgtb x y).
Proof.
  unfold Qgtb. destruct (Qle_bool x y) eqn:H; constructor.
  - apply Qle_bool_iff in H. now apply Qle_not_lt.
  - apply Qnot_le_lt. intros Hle. apply Qle_bool_iff in Hle. congruence.
Qed.

(** For an integer timeout, greater than -1 is non-negative. *)
Lemma past_deadline_integer (now : Z) (req : Request) (z : Z) :
  (r_timeout req == z)%Q → (past_deadline now req ↔ timed_out now req).
Proof.
  intros Hz. unfold past_deadline, timed_out. rewrite !Hz.
  unfold Qlt, Qle. simpl. lia.
Qed.

Section Validation.

Variable E : Env.


End Validation.


(** ** The response cache *)

Section CacheLaws.

Variable E : Env.

(** C8 (as amended): after [set(h, d, ttl)], and while that entry is the
    one stored under [h], a lookup returns exactly [d] if and only if the
    current time is at most the entry's expiry time (for a non-negative
    expiry; an entry without expiry is always returned), and returns
    nothing once the expiry time has passed; a lookup that returns nothing
    has deleted the entry, and one that returns the payload leaves the table
    as it is. *)
Theorem Cache_get_after_set (h : option string) (d : list string) (ttl : option Z)
        (b b2 : Broker) :
  cache_m b2 !! hash_key h = cache_m (state_of (Cache_set E h d ttl b)) !! hash_key h →
  let expire_at := if truthyZ ttl then (clock E (n_clock b) + default 0 ttl)%Z
                   else (-1)%Z in
  let now := clock E (n_clock b2) in
  ∃ res b3, Cache_get E h b2 = Ok res b3
            ∧ ((0 <= expire_at)%Z → (res = Some d ↔ (now <= expire_at)%Z))
            ∧ ((expire_at < 0)%Z → res = Some d)
            ∧ (res = None → cache_m b3 !! hash_key h = None)
            ∧ (res = Some d → cache_m b3 = cache_m b2)
            ∧ ((0 <= expire_at)%Z → (expire_at < now)%Z → res = None).
Proof.
  intros Hm expire_at now.
  assert (Hset : cache_m (state_of (Cache_set E h d ttl b)) !! hash_key h
                 = Some {| data := d; expire := expire_at |}).
  { unfold Cache_set, expire_at, bind, modify, ret, getTime.
    destruct (truthyZ ttl); simpl; apply lookup_insert_eq. }
  rewrite Hset in Hm. clear Hset.
  unfold Cache_get, Cache_valid, bind, gets, modify, ret, getTime. rewrite Hm. simpl.
  destruct (Z.gtb_spec expire_at (-1)) as [He|He]; simpl.
  - fold now. destruct (Z.ltb_spec expire_at now) as [Hn|Hn]; simpl.
    + eexists _, _. split; [reflexivity|]. repeat split; intros; try lia; try congruence.
      simpl. apply lookup_delete_eq.
    + eexists _, _. split; [reflexivity|]. repeat split; intros; try lia; congruence.
  - eexists _, _. split; [reflexivity|]. repeat split; intros; try lia; congruence.
Qed.

End CacheLaws.

(** The cache law at the moment of expiry. *)
Lemma Cache_get_after_set_witness :
  ∃ res b3, Cache_get sample_env (Some "h") cache_at_expiry = Ok res b3
            ∧ ((0 <= 1005)%Z → (res = Some ["3"] ↔ (1005 <= 1005)%Z))
            ∧ ((1005 < 0)%Z → res = Some ["3"])
            ∧ (res = None → cache_m b3 !! "h" = None)
            ∧ (res = Some ["3"] → cache_m b3 = cache_m cache_at_expiry)
            ∧ ((0 <= 1005)%Z → (1005 < 1005)%Z → res = None).
Proof.
  apply (Cache_get_after_set sample_env (Some "h") ["3"] (Some 5%Z)
           (Broker_new default_conf) cache_at_expiry).
  reflexivity.
Defined.

(** C8, the claim as stated fails: at the very millisecond of the expiry
    the current time is not strictly less than the expiry time, and the
    lookup still returns the payload. *)
Lemma Cache_get_hit_at_expiry :
  cache_m cache_at_expiry !! "h" = Some {| data := ["3"]; expire := 1005 |}
  ∧ clock sample_env (n_clock cache_at_expiry) = 1005%Z
  ∧ result (Cache_get sample_env (Some "h") cache_at_expiry) = Some (Some ["3"]).
Proof. repeat split; vm_compute; reflexivity. Qed.

(** ** Worker selection *)

Lemma over_limit_spec (w : Worker) : over_limit w = true ↔ exceeds_limit w.
Proof.
  unfold over_limit, exceeds_limit. rewrite andb_true_iff.
  destruct (Z.gtb_spec (w_concurrency w) (-1));
    destruct (Z.gtb_spec (Z.of_nat (length (w_rids w))) (w_concurrency w));
    intuition (lia || congruence).
Qed.

Lemma _wval_Some (b : Broker) (v : option string) (w : string) :
  _wval b v = Some w →
  v = Some w ∧ ∃ worker, Js.get w (workers b) = Some worker ∧ over_limit worker = false.
Proof.
  unfold _wval. destruct (Js.truthy v); simpl; [|done].
  destruct (Js.get (Js.key v) (workers b)) as [worker|] eqn:Hg; [|done].
  destruct (over_limit worker) eqn:Ho; [done|].
  intros ->. split; [done|]. simpl in Hg. eauto.
Qed.

Section Selection.

Variable E : Env.

(** [_wsel] leaves the worker registry alone, and a worker it returns is
    one of the service's workers and has passed [_wval]. *)
Lemma _wsel_Some k service mode b w b' :
  _wsel E k service mode b = Ok (Some w) b' →
  workers b' = workers b ∧ _wval b (Some w) = Some w ∧ w ∈ s_workers service.
Proof.
  unfold _wsel.
  destruct (String.eqb mode "rand").
  { unfold bind, draw, gets. simpl. intros [= Hw <-]. simpl.
    destruct (_wval_Some _ _ _ Hw) as [Hl _]. rewrite Hl in Hw.
    repeat split; [done|]. eapply list_elem_of_lookup_2, Hl. }
  destruct (String.eqb mode "load"); [|done].
  destruct (s_workers service) as [|x [|y ws]] eqn:Hws.
  - unfold gets. now intros [= ? <-].
  - unfold gets. simpl. intros [= Hw <-].
    destruct (_wval_Some _ _ _ Hw) as [[= ->] _].
    repeat split; [done|]. apply list_elem_of_here.
  - unfold bind, gets, modify, id.
    destruct (forallb _ _); [|done]. simpl. intros [= Hw <-]. simpl.
    unfold _wval in Hw |- *. simpl in Hw |- *.
    destruct (_wval_Some (upd_service
      (s_with_workers (array_sort E (load_cmp b) (x :: y :: ws))) k b) _ _ Hw) as [Hl _].
    rewrite Hl in Hw. simpl in Hw. repeat split; [done|].
    apply list_elem_of_lookup_2 in Hl.
    now rewrite (array_sort_perm E) in Hl.
Qed.

Lemma scan_workers_Some name mode ents b w b' :
  scan_workers E name mode ents b = Ok (Some w) b' →
  workers b' = workers b ∧ _wval b (Some w) = Some w.
Proof.
  induction ents as [|[mName mSrv] ents IH]; simpl; [done|].
  destruct (String.eqb name mName); [exact IH|].
  destruct (_ && _); [|exact IH].
  intros H. apply _wsel_Some in H. tauto.
Qed.

Lemma serviceRequire_workers srvName b :
  ∃ s b', serviceRequire srvName b = Ok s b' ∧ workers b' = workers b
          ∧ Js.get (Js.key srvName) (services b') = Some s.
Proof.
  unfold serviceRequire.
  destruct (Js.get (Js.key srvName) (services b)) eqn:Hg; eauto.
  eexists _, _. repeat split. simpl. apply JsFacts.get_set_eq.
Qed.

Lemma serviceWorkerSelect_Some srvName mode b sws b' w :
  serviceWorkerSelect E srvName mode b = Ok (Some sws) b' →
  sws_workerId sws = Some w →
  ∃ worker, Js.get w (workers b') = Some worker ∧ over_limit worker = false.
Proof.
  unfold serviceWorkerSelect, bind at 1.
  destruct (serviceRequire_workers srvName b) as (s & b1 & -> & Hw1 & _).
  assert (Hsel : ∀ k b2 r,
             _wsel E k s mode b1 = Ok r b2 → r = Some w →
             ∃ worker, Js.get w (workers b2) = Some worker ∧ over_limit worker = false).
  { intros k b2 r H ->. apply _wsel_Some in H as (-> & H & _).
    now apply _wval_Some in H as [_ H]. }
  destruct (_ && _).
  { unfold bind, ret. destruct (_wsel E _ s mode b1) as [r b2| |] eqn:Hs; [|done..].
    intros [= <- <-] Hr. simpl in Hr. eauto. }
  destruct srvName as [name|]; [|done].
  destruct (Js.ends_with_star name).
  - destruct (nonempty (s_workers s)); [|done].
    unfold bind, gets, ret.
    destruct (_wsel E _ s mode b1) as [r b2| |] eqn:Hs; [|done..].
    intros [= <- <-] Hr. simpl in Hr. eauto.
  - destruct (nonempty (s_q s)); [|done].
    unfold bind at 1, gets. unfold bind, ret.
    destruct (scan_workers E name mode _ b1) as [r b2| |] eqn:Hs; [|done..].
    intros [= <- <-] Hr. simpl in Hr. subst r.
    apply scan_workers_Some in Hs as [-> Hs].
    now apply _wval_Some in Hs as [_ Hs].
Qed.

(** C6: whatever the service and the mode, a worker that
    [serviceWorkerSelect] returns is registered and does not have more
    assignments than a non-negative concurrency limit; and for a worker
    that has, [_wval] yields null. *)
Theorem select_respects_limit (b : Broker) :
  (∀ srvName mode sws b' w,
      serviceWorkerSelect E srvName mode b = Ok (Some sws) b' →
      sws_workerId sws = Some w →
      ∃ worker, Js.get w (workers b') = Some worker ∧ ¬ exceeds_limit worker)
  ∧ (∀ workerId worker,
        Js.get (Js.key workerId) (workers b) = Some worker →
        exceeds_limit worker →
        _wval b workerId = None).
Proof.
  split.
  - intros srvName mode sws b' w Hs Hw.
    destruct (serviceWorkerSelect_Some _ _ _ _ _ _ Hs Hw) as (worker & Hg & Ho).
    exists worker. split; [done|]. rewrite <- over_limit_spec. congruence.
  - intros workerId worker Hg Hex. unfold _wval. rewrite Hg.
    apply over_limit_spec in Hex. rewrite Hex. now destruct (negb _).
Qed.

End Selection.

(** ** Wildcard routing for a concrete name *)

Section First.
Context {A : Type} (f : A → bool) (Q : A → Prop).
Hypothesis HfQ : ∀ x, f x = true ↔ Q x.

Lemma find_first_with (l : list A) (x : A) : List.find f l = Some x ↔ first_with Q l x.
Proof.
  split.
  - induction l as [|y l IH]; simpl; [done|].
    destruct (f y) eqn:Hy.
    + intros [= ->]. exists [], l. split; [done|]. split; [now apply HfQ|].
      intros e He. now apply not_elem_of_nil in He.
    + intros H. destruct (IH H) as (l1 & l2 & -> & HQ & Hl1).
      exists (y :: l1), l2. split; [done|]. split; [done|].
      intros e [->|He]%elem_of_cons; [|now apply Hl1].
      rewrite <- HfQ. congruence.
  - intros (l1 & l2 & -> & HQ & Hl1). induction l1 as [|y l1 IH]; simpl.
    + apply HfQ in HQ. now rewrite HQ.
    + destruct (f y) eqn:Hy.
      * exfalso. apply (Hl1 y); [apply list_elem_of_here|now apply HfQ].
      * apply IH. intros e He. apply Hl1. apply elem_of_cons; now right.
Qed.

Lemma find_none_with (l : list A) : List.find f l = None ↔ ∀ e, e ∈ l → ¬ Q e.
Proof.
  induction l as [|y l IH]; simpl.
  - split; [|done]. intros _ e He. now apply not_elem_of_nil in He.
  - destruct (f y) eqn:Hy.
    + split; [done|]. intros H. exfalso. apply (H y); [apply list_elem_of_here|now apply HfQ].
    + rewrite IH. split.
      * intros H e [->|He]%elem_of_cons; [|now apply H]. rewrite <- HfQ. congruence.
      * intros H e He. apply H. apply elem_of_cons; now right.
Qed.

End First.

(** The test of the scan for a concrete name says what the specification
    says. *)
Lemma wildcard_for_matching name ent :
  wildcard_for name ent = true ↔ matching_wildcard name ent.
Proof.
  unfold wildcard_for, matching_wildcard, matches.
  rewrite !andb_true_iff, JsFacts.ends_with_star_iff, JsFacts.prefix_iff.
  split.
  - intros [[[p Hp] [t Ht]] Hw]. rewrite Hp, JsFacts.slice_init_append in Ht.
    split; [eauto|]. now destruct (s_workers ent.2).
  - intros [(p & t & Hp & Ht) Hw]. rewrite Hp, JsFacts.slice_init_append.
    split; [eauto|]. now destruct (s_workers ent.2).
Qed.

Section Wildcards.

Variable E : Env.

Lemma scan_workers_find name mode ents b :
  Js.ends_with_star name = false →
  scan_workers E name mode ents b =
    match List.find (wildcard_for name) ents with
    | Some (mName, mSrv) => _wsel E mName mSrv mode b
    | None => Ok None b
    end.
Proof.
  intros Hname. induction ents as [|[mName mSrv] ents IH]; simpl; [done|].
  unfold wildcard_for at 1. simpl.
  rewrite <- JsFacts.starts_with_init_prefix.
  destruct (String.eqb_spec name mName) as [<-|Hne].
  - rewrite Hname. simpl. exact IH.
  - destruct (_ && _); [done|exact IH].
Qed.

Lemma serviceWorkerSelect_concrete b name mode service :
  Js.ends_with_star name = false →
  Js.get name (services b) = Some service →
  s_workers service = [] →
  s_q service ≠ [] →
  serviceWorkerSelect E (Some name) mode b =
    match List.find (wildcard_for name) (Js.own_entries (services b)) with
    | Some (mName, mSrv) =>
        (w <- _wsel E mName mSrv mode;;
         ret (Some {| sws_service := Some name; sws_workerId := w |})) b
    | None => Ok (Some {| sws_service := Some name; sws_workerId := None |}) b
    end.
Proof.
  intros Hname Hget Hws Hq.
  unfold serviceWorkerSelect, bind at 1, serviceRequire. simpl. rewrite Hget, Hws. simpl.
  rewrite Hname. destruct (s_q service) as [|a q]; [done|]. simpl.
  unfold bind at 1, gets. unfold bind at 1.
  rewrite scan_workers_find by done.
  destruct (List.find _ _) as [[mName mSrv]|]; [|done].
  unfold bind. now destruct (_wsel E mName mSrv mode b).
Qed.

(** C9 (as amended): for a concrete name whose service has queued requests
    and no workers of its own, [serviceWorkerSelect] scans the services in
    enumeration order and returns the name itself paired with what [_wsel]
    chooses in the first wildcard service whose pattern matches the name and
    which has workers, be it one of that service's workers or null; the
    wildcard services after the first are not tried.  Where no wildcard
    service with workers matches, the name is paired with null.  A worker
    that is returned is a worker of the first matching wildcard service
    with workers. *)
Theorem concrete_name_selects_wildcard_worker
        (b : Broker) (name mode : string) (service : Service) :
  Js.ends_with_star name = false →
  Js.get name (services b) = Some service →
  s_workers service = [] →
  s_q service ≠ [] →
  (∀ mName mSrv,
      first_with (matching_wildcard name) (Js.own_entries (services b)) (mName, mSrv) →
      serviceWorkerSelect E (Some name) mode b
      = (w <- _wsel E mName mSrv mode;;
         ret (Some {| sws_service := Some name; sws_workerId := w |})) b)
  ∧ ((∀ ent, ent ∈ Js.own_entries (services b) → ¬ matching_wildcard name ent) →
     serviceWorkerSelect E (Some name) mode b
     = Ok (Some {| sws_service := Some name; sws_workerId := None |}) b)
  ∧ ∀ sws b' w,
      serviceWorkerSelect E (Some name) mode b = Ok (Some sws) b' →
      sws_workerId sws = Some w →
      sws_service sws = Some name
      ∧ ∃ mName mSrv,
          first_with (matching_wildcard name) (Js.own_entries (services b)) (mName, mSrv)
          ∧ w ∈ s_workers mSrv.
Proof.
  intros Hname Hget Hws Hq.
  pose proof (serviceWorkerSelect_concrete b name mode service Hname Hget Hws Hq) as Heq.
  split; [|split].
  - intros mName mSrv Hfirst.
    apply (find_first_with _ _ (wildcard_for_matching name)) in Hfirst.
    now rewrite Heq, Hfirst.
  - intros Hnone.
    apply (find_none_with _ _ (wildcard_for_matching name)) in Hnone.
    now rewrite Heq, Hnone.
  - intros sws b' w. rewrite Heq.
    destruct (List.find _ _) as [[mName mSrv]|] eqn:Hfind; [|now intros [= <- <-]].
    apply (find_first_with _ _ (wildcard_for_matching name)) in Hfind.
    unfold bind, ret. destruct (_wsel E mName mSrv mode b) as [r b2| |] eqn:Hsel; [|done..].
    intros [= <- <-] Hw. simpl in Hw. subst r. split; [done|].
    apply _wsel_Some in Hsel as (_ & _ & Hin). eauto.
Qed.

End Wildcards.

(** C9, the claim as stated fails: the request for "abc" is not eligible
    for the worker of every wildcard service that matches.  The pattern
    "ab*" matches "abc" and its worker W2 holds nothing and passes [_wval],
    but the scan stops at "a*", the first wildcard service with workers,
    whose only worker is over its limit: the selection pairs "abc" with
    null, and the dispatcher leaves the request in the queue. *)
Lemma second_wildcard_is_not_tried :
  matches "ab*" "abc"
  ∧ Js.get "ab*" (services two_patterns)
    = Some {| s_name := Some "ab*"; s_workers := ["W2"]; s_q := [] |}
  ∧ _wval two_patterns (Some "W2") = Some "W2"
  ∧ Js.get "abc" (services two_patterns)
    = Some {| s_name := Some "abc"; s_workers := []; s_q := [2] |}
  ∧ serviceWorkerSelect sample_env (Some "abc") "load" two_patterns
    = Ok (Some {| sws_service := Some "abc"; sws_workerId := None |}) two_patterns
  ∧ dispatch sample_env 5 (Some "abc") None two_patterns = Ok tt two_patterns.
Proof.
  split; [now exists "ab", "c"|].
  repeat split; vm_compute; reflexivity.
Qed.

(** ** Requests without a service name *)

Section ClientRequests.

Variable E : Env.

(** [requestQueue] puts the request at the tail of the queue of its
    service, and then runs the dispatcher for that service. *)
Lemma requestQueue_enqueues fuel b a req :
  heap b !! a = Some req →
  ∃ b1, requestQueue E fuel a b = dispatch E fuel (Some (r_service req)) None b1
        ∧ heap b1 = heap b
        ∧ sent b1 = sent b
        ∧ queue_of (r_service req) b1 = queue_of (r_service req) b ++ [a].
Proof.
  intros Ha. unfold requestQueue, bind at 1, gets. rewrite Ha.
  unfold bind at 1, serviceRequire, queue_of. simpl.
  destruct (Js.get (r_service req) (services b)) as [s|] eqn:Hs.
  - unfold bind at 1, modify.
    destruct (truthyZ (o_persist (r_opts req))); unfold bind, Controller_rset, modify, ret;
      eexists; (split; [reflexivity|]); simpl; (split; [done|]); (split; [done|]);
      now rewrite (JsFacts.get_upd_eq _ _ _ _ Hs).
  - unfold bind at 1, modify.
    destruct (truthyZ (o_persist (r_opts req))); unfold bind, Controller_rset, modify, ret;
      eexists; (split; [reflexivity|]); simpl; (split; [done|]); (split; [done|]);
      now rewrite (JsFacts.get_upd_eq _ _ _ _ (JsFacts.get_set_eq _ _ _)).
Qed.

(** X25: a client W_REQUEST whose service-name frame is empty or missing
    is not turned away when the cache is off, or when the message has the
    payload frame the fingerprint is computed of: [onClient] builds a
    request record for the service 'UNK', puts it at the tail of the queue of
    'UNK' without sending anything, and runs the dispatcher for 'UNK'. *)
Theorem onClient_without_service_name (fuel : nat) (b : Broker) (msg : Message) :
  frame msg 2 = Some MDP.W_REQUEST →
  frame msg 3 = None ∨ frame msg 3 = Some "" →
  (cache (conf b) = true → is_Some (frame msg 5)) →
  ∃ req b1,
    r_service req = "UNK" ∧ r_rid req = frame msg 4 ∧ r_clientId req = identity msg
    ∧ heap b1 = heap b ++ [req]
    ∧ sent b1 = sent b
    ∧ queue_of "UNK" b1 = queue_of "UNK" b ++ [length (heap b)]
    ∧ onClient E fuel msg b = dispatch E fuel (Some "UNK") None b1.
Proof.
  intros Ht Hs Hmd.
  assert (Js.truthy (frame msg 3) = false) as Htr
      by (destruct Hs as [-> | ->]; reflexivity).
  assert (eqs (frame msg 2) MDP.W_REQUEST = true) as Hty by (rewrite Ht; reflexivity).
  unfold onClient. rewrite Hty, Htr.
  unfold bind at 1, gets.
  assert (∃ rhash, (if cache (conf b)
                    then match frame msg 5 with
                         | Some v => ret (Some ("UNK" +:+ md5_hex E v))
                         | None => throw
                         end
                    else ret None) b = Ok rhash b) as [rhash Hh].
  { destruct (cache (conf b)); [|by eexists].
    destruct Hmd as [d ->]; [done|]. by eexists. }
  unfold bind at 1. rewrite Hh.
  unfold bind at 1, getTime. unfold bind at 1. unfold bind at 1, modify.
  set (req := {| r_service := "UNK"; r_rid := frame msg 4 |}).
  destruct (requestQueue_enqueues fuel
              (with_heap (λ h, h ++ [req]) (tick_clock b)) (length (heap b)) req)
    as (b1 & Heq & Hheap & Hsent & Hq).
  { simpl. now apply list_lookup_middle. }
  exists req, b1. repeat split; done.
Qed.

(** C10, where the code fails the claim: with the cache on, a client
    W_REQUEST whose service-name frame is empty or missing and which has no
    payload frame (as every message that ends before the service-name frame)
    makes [update(undefined)] raise its TypeError in [onClient] before the
    request record is built: nothing is queued under 'UNK', and the broker
    is as it was. *)
Theorem onClient_without_frames_throws (fuel : nat) (b : Broker) (msg : Message) :
  frame msg 2 = Some MDP.W_REQUEST →
  frame msg 3 = None ∨ frame msg 3 = Some "" →
  frame msg 5 = None →
  cache (conf b) = true →
  onClient E fuel msg b = Throw b.
Proof.
  intros Ht Hs H5 Hc.
  assert (Js.truthy (frame msg 3) = false) as Htr
      by (destruct Hs as [-> | ->]; reflexivity).
  assert (eqs (frame msg 2) MDP.W_REQUEST = true) as Hty by (rewrite Ht; reflexivity).
  unfold onClient. rewrite Hty, Htr.
  unfold bind at 1, gets. now rewrite Hc, H5.
Qed.

End ClientRequests.

(** A request with an empty service name on a fresh broker that has the
    cache on. *)
Lemma onClient_without_service_name_witness :
  ∃ req b1,
    r_service req = "UNK" ∧ r_rid req = Some "7" ∧ r_clientId req = "C"
    ∧ heap b1 = [] ++ [req]
    ∧ sent b1 = []
    ∧ queue_of "UNK" b1 = [] ++ [0]
    ∧ onClient sample_env 5 nameless_request (Broker_new caching_conf)
      = dispatch sample_env 5 (Some "UNK") None b1.
Proof.
  apply (onClient_without_service_name sample_env 5 (Broker_new caching_conf)
           nameless_request).
  - reflexivity.
  - right. reflexivity.
  - intros _. now exists "hi".
Defined.

(** A request of two frames reaches a fresh broker that has the cache on. *)
Lemma onClient_without_frames_throws_witness :
  onClient sample_env 5 bare_request (Broker_new caching_conf)
  = Throw (Broker_new caching_conf).
Proof.
  apply (onClient_without_frames_throws sample_env 5 (Broker_new caching_conf)
           bare_request); try reflexivity.
  left. reflexivity.
Defined.

(** ** What the dispatcher leaves alone *)

Section Stable.
Context {A B : Type} (P : Broker → Prop).

Lemma stable_ret (a : A) : stable P (ret a).
Proof. now intros b. Qed.

Lemma stable_gets (f : Broker → A) : stable P (gets f).
Proof. now intros b. Qed.

Lemma stable_throw : stable P (@throw A).
Proof. now intros b. Qed.

Lemma stable_spin : stable P (@spin A).
Proof. now intros b. Qed.

Lemma stable_modify (f : Broker → Broker) : (∀ b, P b → P (f b)) → stable P (modify f).
Proof. intros H b. apply H. Qed.

Lemma stable_bind (m : M A) (f : A → M B) :
  stable P m → (∀ a, stable P (f a)) → stable P (bind m f).
Proof.
  intros Hm Hf b Hb. specialize (Hm b Hb). unfold bind.
  destruct (m b); simpl in *; [now apply Hf|done..].
Qed.

Lemma stable_each (f : A → M unit) (l : list A) :
  (∀ a, stable P (f a)) → stable P (each f l).
Proof.
  intros Hf. induction l; simpl.
  - now intros b.
  - intros b Hb. unfold bind. specialize (Hf a b Hb).
    destruct (f a b); simpl in *; [now apply IHl|done..].
Qed.
End Stable.

Ltac stable_step :=
  match goal with
  | |- stable _ (ret _) => apply stable_ret
  | |- stable _ (gets _) => apply stable_gets
  | |- stable _ throw => apply stable_throw
  | |- stable _ spin => apply stable_spin
  | |- stable _ (bind _ _) => apply stable_bind; [| intros ?]
  | |- stable _ (modify _) => apply stable_modify; intros ? ?
  | |- stable _ (each _ _) => apply stable_each; intros ?
  | |- stable _ (if ?c then _ else _) => destruct c
  | |- stable _ (match ?x with _ => _ end) => destruct x
  end.

Create HintDb stable.

Section Dispatcher.

Variable E : Env.
Variable P : Broker → Prop.
Hypothesis HP : Framed P.

Lemma send_stable msg : stable P (send msg).
Proof.
  apply stable_modify. intros b Hb. destruct (socket b); [|done]. now apply fr_sent.
Qed.

Lemma getTime_stable : stable P (getTime E).
Proof. intros b Hb. exact (fr_clock P HP b Hb). Qed.

Lemma draw_stable n : stable P (draw E n).
Proof. intros b Hb. exact (fr_random P HP b Hb). Qed.

Lemma serviceRequire_stable srvName : stable P (serviceRequire srvName).
Proof.
  intros b Hb. unfold serviceRequire. destruct (Js.get _ _); [done|]. simpl. now apply fr_services.
Qed.

Lemma upd_service_framed f k b : P b → P (upd_service f k b).
Proof. apply fr_services, HP. Qed.

Lemma upd_request_framed f a b : P b → P (upd_request f a b).
Proof. apply fr_heap, HP. Qed.

#[local] Hint Resolve send_stable getTime_stable draw_stable serviceRequire_stable : stable.
#[local] Hint Resolve upd_service_framed upd_request_framed : stable.
#[local] Hint Extern 1 (P (with_pending _ _)) => apply fr_pending : stable.
#[local] Hint Extern 1 (P (with_ctrl _ _)) => apply fr_ctrl : stable.
#[local] Hint Extern 1 (P (with_rmap _ _)) => apply fr_rmap : stable.
#[local] Hint Extern 1 (P (upd_worker _ _ _)) => apply fr_worker : stable.

Lemma requestValidate_stable worker req : stable P (requestValidate E worker req).
Proof. unfold requestValidate. repeat stable_step; auto with stable. Qed.

Lemma _wsel_stable k service mode : stable P (_wsel E k service mode).
Proof. unfold _wsel. repeat stable_step; auto with stable. Qed.

Lemma scan_workers_stable name mode ents : stable P (scan_workers E name mode ents).
Proof.
  induction ents as [|[mName mSrv] ents IH]; simpl.
  - apply stable_ret.
  - repeat stable_step; auto using _wsel_stable.
Qed.

Lemma serviceWorkerSelect_stable srvName mode :
  stable P (serviceWorkerSelect E srvName mode).
Proof.
  unfold serviceWorkerSelect.
  repeat stable_step; auto using _wsel_stable, scan_workers_stable with stable.
Qed.

Lemma _rproc_stable wk worker a : stable P (_rproc wk worker a).
Proof. unfold _rproc, Controller_rset. repeat stable_step; auto with stable. Qed.

Lemma _rhandle_stable sws : stable P (_rhandle E sws).
Proof.
  unfold _rhandle, Controller_rdel.
  repeat stable_step; auto using requestValidate_stable, _rproc_stable with stable.
Qed.

Lemma dispatch_loop_stable fuel srvName mode tryagain :
  stable P (dispatch_loop E fuel srvName mode tryagain).
Proof.
  revert mode tryagain. induction fuel as [|fuel IH]; intros mode tryagain; simpl.
  - apply stable_spin.
  - repeat stable_step; auto using serviceWorkerSelect_stable, _rhandle_stable.
Qed.

Lemma dispatch_stable fuel srvName mode : stable P (dispatch E fuel srvName mode).
Proof.
  unfold dispatch. repeat stable_step; auto using dispatch_loop_stable with stable.
Qed.

End Dispatcher.

(** ** Worker registration *)

Lemma eqs_refl c : eqs (Some c) c = true.
Proof. apply String.eqb_refl. Qed.

Section Ready.

Variable E : Env.

Lemma workerDelete_registered fuel workerId disconnect worker b :
  Js.get workerId (workers b) = Some worker →
  workerDelete E fuel workerId disconnect b =
    each (workerDelete_rid E fuel worker) (w_rids worker)
      (without_worker workerId disconnect worker b).
Proof.
  intros Hg. unfold workerDelete, bind at 1, gets. rewrite Hg.
  unfold without_worker, bind, send, modify, ret, serviceRequire.
  destruct disconnect, (socket b), (Js.truthy (w_service worker)); simpl;
    try destruct (Js.get (Js.key (w_service worker)) _); reflexivity.
Qed.

Lemma workerRequire_registers workerId b :
  ∃ w b1, workerRequire workerId b = Ok w b1
          ∧ Js.get workerId (workers b1) = Some w
          ∧ socket b1 = socket b ∧ sent b1 = sent b
          ∧ (Js.get workerId (workers b) = None → w = new_worker workerId (n_oid b)).
Proof.
  unfold workerRequire. destruct (Js.get workerId (workers b)) as [w|] eqn:Hg.
  - exists w, b. repeat split; done.
  - eexists _, _. repeat split. simpl. apply JsFacts.get_set_eq.
Qed.

(** [workerDelete(workerId, true)] on a registered worker: the record is
    gone and the DISCONNECT frame is sent before any request of the worker
    is looked at, and nothing after that brings the record back. *)
Lemma workerDelete_rude fuel workerId worker b :
  Js.get workerId (workers b) = Some worker →
  socket b = true →
  Js.get workerId (workers (state_of (workerDelete E fuel workerId true b))) = None
  ∧ disconnect_frame workerId ∈ sent (state_of (workerDelete E fuel workerId true b)).
Proof.
  intros Hg Hs.
  set (P := λ b : Broker,
         Js.get workerId (workers b) = None ∧ disconnect_frame workerId ∈ sent b).
  assert (HP : Framed P).
  { split; intros; try assumption.
    - destruct H. split; [|done]. simpl. now apply JsFacts.get_upd_None.
    - destruct H. split; [done|]. simpl. apply elem_of_app. now left. }
  rewrite workerDelete_registered with (worker := worker) by done.
  change (P (state_of (each (workerDelete_rid E fuel worker) (w_rids worker)
                         (without_worker workerId true worker b)))).
  apply stable_each.
  { intros rid. unfold workerDelete_rid, Controller_rdel.
    repeat stable_step; try assumption; now apply dispatch_stable. }
  unfold without_worker. rewrite Hs. split; simpl.
  - apply JsFacts.get_del_eq.
  - unfold serviceRequire. simpl.
    destruct (Js.truthy (w_service worker));
      [destruct (Js.get (Js.key (w_service worker)) (services b))|]; simpl;
      apply elem_of_app; right; apply list_elem_of_here.
Qed.

(** C4 (as amended): with the socket open, a W_READY frame whose
    service-name frame is empty or missing makes the broker delete the
    worker and send it a DISCONNECT frame, whatever the dispatcher does
    afterwards, and the handler returns when the worker was not registered
    before; a W_READY frame with a service name from a worker that is
    already registered changes nothing at all. *)
Theorem onWorker_READY (fuel : nat) (b : Broker) (msg : Message) :
  frame msg 2 = Some MDP.W_READY →
  socket b = true →
  (frame msg 3 = None ∨ frame msg 3 = Some "" →
   Js.get (identity msg) (workers (state_of (onWorker E fuel msg b))) = None
   ∧ disconnect_frame (identity msg) ∈ sent (state_of (onWorker E fuel msg b))
   ∧ (Js.has (identity msg) (workers b) = false →
      ∃ b', onWorker E fuel msg b = Ok tt b'))
  ∧ (Js.truthy (frame msg 3) = true →
     Js.has (identity msg) (workers b) = true →
     onWorker E fuel msg b = Ok tt b).
Proof.
  intros Ht Hs.
  assert (eqs (frame msg 2) MDP.W_READY = true) as Hty by (rewrite Ht; apply eqs_refl).
  split.
  - intros Hsrv.
    assert (Js.truthy (frame msg 3) = false) as Htr
        by (destruct Hsrv as [-> | ->]; reflexivity).
    destruct (workerRequire_registers (identity msg) b)
      as (w & b1 & Hreq & Hg & Hs1 & _ & Hnew).
    assert (Heq : onWorker E fuel msg b = workerDelete E fuel (identity msg) true b1).
    { unfold onWorker, bind at 1, gets. unfold bind at 1.
      now rewrite Hreq, Hty, Htr. }
    rewrite Heq.
    destruct (workerDelete_rude fuel (identity msg) w b1 Hg) as [H1 H2]; [congruence|].
    repeat split; [exact H1|exact H2|].
    intros Hhas. unfold Js.has in Hhas.
    destruct (Js.get (identity msg) (workers b)) eqn:Hgb; [done|].
    rewrite workerDelete_registered with (worker := w) by done.
    rewrite (Hnew eq_refl). simpl. eauto.
  - intros Htr Hhas. unfold onWorker, bind at 1, gets. rewrite Hhas.
    unfold bind, workerRequire. unfold Js.has in Hhas.
    destruct (Js.get (identity msg) (workers b)); [|done].
    now rewrite Hty, Htr.
Qed.

End Ready.

(** ** Replies *)

(** Equations to run a handler step by step. *)
Lemma bind_gets {A B} (f : Broker → A) (k : A → M B) b : bind (gets f) k b = k (f b) b.
Proof. reflexivity. Qed.
Lemma bind_modify {B} (f : Broker → Broker) (k : unit → M B) b : bind (modify f) k b = k tt (f b).
Proof. reflexivity. Qed.
Lemma bind_ret {A B} (a : A) (k : A → M B) b : bind (ret a) k b = k a b.
Proof. reflexivity. Qed.
Lemma bind_Ok {A B} (m : M A) (k : A → M B) b a b' : m b = Ok a b' → bind m k b = k a b'.
Proof. unfold bind. now intros ->. Qed.

(** A comparison of integers, stated among the rationals. *)
Ltac deadline := unfold Qle; cbn [Qnum Qden Qplus inject_Z Z.mul Pos.mul]; lia.

Ltac eval_eqs :=
  repeat match goal with
    | |- context [eqs (Some ?x) ?y] =>
        let v := eval vm_compute in (eqs (Some x) y) in
        change (eqs (Some x) y) with v
    end.

Section Reply.
Variable E : Env.

Lemma Cache_set_stable P (HP : Framed P) h d ttl : stable P (Cache_set E h d ttl).
Proof.
  unfold Cache_set. repeat stable_step; try (now apply getTime_stable).
  now apply (fr_cache P HP).
Qed.

(** C1, what the code does: a final W_REPLY for a request of the worker
    takes the rid off the worker's [rids] but never takes it out of the
    request table; whatever the dispatcher does afterwards, [rmap] still
    has an entry for the rid. *)
Theorem final_reply_keeps_rmap_entry (fuel : nat) (b : Broker) (msg : Message)
        (worker : Worker) (a : nat) (req : Request) :
  frame msg 2 = Some MDP.W_REPLY →
  Js.get (identity msg) (workers b) = Some worker →
  frame msg 5 ∈ w_rids worker →
  rmap b !! Js.key (frame msg 5) = Some a →
  heap b !! a = Some req →
  is_Some (rmap (state_of (onWorker E fuel msg b)) !! Js.key (frame msg 5)).
Proof.
  intros Ht Hg Hin Hr Hh.
  set (P := λ b : Broker, is_Some (rmap b !! Js.key (frame msg 5))).
  assert (HP : Framed P).
  { split; intros; try assumption.
    unfold P in *. simpl. rewrite lookup_insert_is_Some. destruct (decide (k = Js.key (frame msg 5))); eauto. }
  assert (P b) as Hb by (unfold P; rewrite Hr; eauto).
  unfold onWorker. rewrite bind_gets. unfold Js.has. rewrite Hg.
  rewrite (bind_Ok _ _ b worker b) by (unfold workerRequire; now rewrite Hg).
  rewrite Ht. eval_eqs. cbn [negb orb andb].
  rewrite bind_modify, bind_gets.
  replace (Js.get (identity msg) (workers (upd_worker (w_with_liveness HEARTBEAT_LIVENESS) (identity msg) b))) with (Some (w_with_liveness HEARTBEAT_LIVENESS worker)) by (symmetry; now apply JsFacts.get_upd_eq).
  cbn [negb orb andb].
  unfold absent. rewrite (bool_decide_eq_true_2 _ Hin). cbn [negb].
  rewrite bind_gets. rewrite bind_gets. simpl rmap. simpl heap. rewrite Hr.
  change (Some a ≫= (λ a0 : nat, heap b !! a0)) with (heap b !! a). rewrite Hh.
  match goal with
  | |- is_Some (rmap (state_of (?m ?b0)) !! _) =>
      cut (stable P m); [intros Hst; apply (Hst b0); now apply (fr_worker P HP) |]
  end.
  unfold reply, Controller_rdel.
  repeat stable_step;
    auto using serviceRequire_stable, send_stable, Cache_set_stable, dispatch_stable.
Qed.
End Reply.

(** ** Loss of a worker *)

Section WorkerLoss.

Variable E : Env.

Lemma without_worker_rest workerId disconnect worker b :
  rmap (without_worker workerId disconnect worker b) = rmap b
  ∧ heap (without_worker workerId disconnect worker b) = heap b
  ∧ ctrl_reqs (without_worker workerId disconnect worker b) = ctrl_reqs b
  ∧ pending (without_worker workerId disconnect worker b) = pending b.
Proof.
  unfold without_worker, serviceRequire.
  destruct (disconnect && socket b), (Js.truthy (w_service worker)); simpl;
    try destruct (Js.get (Js.key (w_service worker)) (services b)); done.
Qed.

Lemma without_worker_queue workerId disconnect worker srv b :
  w_service worker = Some srv →
  srv ≠ "" →
  ∃ s, Js.get srv (services (without_worker workerId disconnect worker b)) = Some s
       ∧ s_q s = queue_of srv b.
Proof.
  intros Hsrv Hne. unfold without_worker, serviceRequire, queue_of. rewrite Hsrv.
  assert (Js.truthy (Some srv) = true) as ->.
  { simpl. now apply negb_true_iff, String.eqb_neq. }
  destruct (disconnect && socket b); simpl;
    destruct (Js.get srv (services b)) as [s|] eqn:Hs; simpl.
  - rewrite (JsFacts.get_upd_eq _ _ _ _ Hs). eauto.
  - rewrite (JsFacts.get_upd_eq _ _ _ _ (JsFacts.get_set_eq _ _ _)). eauto.
  - rewrite (JsFacts.get_upd_eq _ _ _ _ Hs). eauto.
  - rewrite (JsFacts.get_upd_eq _ _ _ _ (JsFacts.get_set_eq _ _ _)). eauto.
Qed.

(** C3, what the code does: when a worker with a service is deleted, a
    request assigned to it whose retry flag is not set is deleted from the
    controller and is nevertheless put back at the tail of the service's
    queue; the dispatcher is not run for it. *)
Theorem workerDelete_requeues_without_retry
        (fuel : nat) (workerId : string) (disconnect : bool) (b : Broker)
        (worker : Worker) (srv : string) (rid : option string) (a : nat) (req : Request) :
  Js.get workerId (workers b) = Some worker →
  w_service worker = Some srv →
  srv ≠ "" →
  w_rids worker = [rid] →
  rmap b !! Js.key rid = Some a →
  heap b !! a = Some req →
  r_retry req = 0%Z →
  ∃ b', workerDelete E fuel workerId disconnect b = Ok tt b'
        ∧ queue_of srv b' = queue_of srv b ++ [a]
        ∧ ctrl_reqs b' !! Js.key (r_rid req) = None
        ∧ pending b' = pending b.
Proof.
  intros Hg Hsrv Hne Hrids Hr Hh Hretry.
  rewrite workerDelete_registered with (worker := worker) by done.
  destruct (without_worker_rest workerId disconnect worker b) as (Hrm & Hhp & Hc & Hp).
  destruct (without_worker_queue workerId disconnect worker srv b Hsrv Hne) as (s & Hs & Hq).
  rewrite Hrids. simpl each.
  assert (Hrid : ∃ b', workerDelete_rid E fuel worker rid
                         (without_worker workerId disconnect worker b) = Ok tt b'
                       ∧ queue_of srv b' = queue_of srv b ++ [a]
                       ∧ ctrl_reqs b' !! Js.key (r_rid req) = None
                       ∧ pending b' = pending b).
  { unfold workerDelete_rid.
    rewrite bind_gets, Hrm, Hr, bind_gets, Hhp, Hh.
    rewrite !bind_modify. rewrite Hsrv.
    assert (Js.truthy (Some srv) = true) as ->.
    { simpl. now apply negb_true_iff, String.eqb_neq. }
    rewrite bind_modify, Hretry. simpl negb. cbv iota.
    eexists. split; [reflexivity|]. repeat split; simpl.
    - unfold queue_of. simpl. rewrite (JsFacts.get_upd_eq _ _ _ _ Hs). simpl. now rewrite Hq.
    - apply lookup_delete_eq.
    - exact Hp. }
  destruct Hrid as (b' & Hrid & H1 & H2 & H3).
  exists b'. unfold bind. rewrite Hrid. repeat split; done.
Qed.

End WorkerLoss.

(** ** A service with a single worker *)

Lemma with_ticks_id b : with_ticks (n_clock b) (n_random b) b = b.
Proof. now destruct b. Qed.

Lemma key_Some s : Js.key (Some s) = s.
Proof. reflexivity. Qed.

Lemma truthy_Some s : s ≠ "" → Js.truthy (Some s) = true.
Proof. intros H. simpl. now apply negb_true_iff, String.eqb_neq. Qed.

Lemma _wval_registered b w worker :
  w ≠ "" → Js.get w (workers b) = Some worker → over_limit worker = false →
  _wval b (Some w) = Some w.
Proof.
  intros Hne Hg Ho. unfold _wval. rewrite truthy_Some by done. simpl. now rewrite Hg, Ho.
Qed.

Section OneWorker.

Variable E : Env.

(** With a single worker there is nothing to choose. *)
Lemma _wsel_single k service mode b w :
  s_workers service = [w] →
  mode = "load" ∨ mode = "rand" →
  ∃ r, _wsel E k service mode b = Ok (_wval b (Some w)) (with_ticks (n_clock b) r b).
Proof.
  intros Hws [-> | ->]; unfold _wsel; rewrite Hws.
  - exists (n_random b). simpl. unfold gets. now rewrite with_ticks_id.
  - exists (S (n_random b)). cbn [String.eqb Ascii.eqb Bool.eqb length].
    unfold bind, draw, gets. rewrite Nat.mod_1_r. simpl. now destruct b.
Qed.

Lemma serviceWorkerSelect_single srv service mode b w worker a q :
  srv ≠ "" → w ≠ "" →
  Js.get srv (services b) = Some service →
  s_workers service = [w] →
  s_q service = a :: q →
  Js.get w (workers b) = Some worker →
  over_limit worker = false →
  mode = "load" ∨ mode = "rand" →
  ∃ r, serviceWorkerSelect E (Some srv) mode b =
         Ok (Some {| sws_service := Some srv; sws_workerId := Some w |})
            (with_ticks (n_clock b) r b).
Proof.
  intros Hsrv Hw Hs Hws Hq Hg Ho Hmode.
  destruct (_wsel_single srv service mode b w Hws Hmode) as [r Hsel].
  exists r. unfold serviceWorkerSelect.
  rewrite bind_Ok with (a := service) (b' := b)
    by (unfold serviceRequire; simpl; now rewrite Hs).
  rewrite Hws, Hq. simpl. rewrite bind_Ok with (a := Some w) (b' := with_ticks (n_clock b) r b).
  - reflexivity.
  - rewrite Hsel. now rewrite (_wval_registered b w worker).
Qed.

Lemma heap_upd_request f a b req :
  heap b !! a = Some req → heap (upd_request f a b) !! a = Some (f req).
Proof.
  intros H. unfold upd_request. simpl. rewrite H.
  apply list_lookup_insert_eq. now apply lookup_lt_Some in H.
Qed.

Lemma requestValidate_rejected worker req b :
  (r_timeout req <= -1)%Q →
  w_workerId worker ∈ r_rejects req →
  (rattempts (conf b) <= r_attempts req)%Z →
  requestValidate E (Some worker) (Some req) b = Ok (-2)%Z b.
Proof.
  intros Ht Hin Hat. unfold requestValidate, absent.
  destruct (Qgtb_spec (r_timeout req) (-1)) as [Hgt|_]; [lra|].
  rewrite bind_ret, bind_gets, (bool_decide_eq_true_2 _ Hin).
  destruct (Z.geb_spec (r_attempts req) (rattempts (conf b))) as [_|Hlt]; [done|lia].
Qed.

Lemma stuck_turn srv w a mode b :
  stuck_request srv w a b →
  mode = "load" ∨ mode = "rand" →
  ∃ b1 b2,
    serviceWorkerSelect E (Some srv) mode b
    = Ok (Some {| sws_service := Some srv; sws_workerId := Some w |}) b1
    ∧ _rhandle E {| sws_service := Some srv; sws_workerId := Some w |} b1 = Ok (-2)%Z b2
    ∧ stuck_request srv w a b2.
Proof.
  intros (Hsrv & Hw & Hcm & service & worker & req & Hs & Hws & Hq & Hg & Ho & Hh & Ht
          & Hin & Hat) Hmode.
  destruct (serviceWorkerSelect_single srv service mode b w worker a [] Hsrv Hw Hs Hws Hq
              Hg Ho Hmode) as [r Hsel].
  eexists _, _. split; [exact Hsel|].
  unfold _rhandle. cbn [sws_workerId sws_service]. rewrite !key_Some.
  rewrite bind_gets. cbn [workers with_ticks]. rewrite Hg.
  rewrite bind_Ok with (a := service) (b' := with_ticks (n_clock b) r b)
    by (unfold serviceRequire; simpl; now rewrite Hs).
  rewrite Hq, bind_modify, bind_gets.
  replace (heap (upd_service (s_with_q []) srv (with_ticks (n_clock b) r b)) !! a)
    with (Some req) by (symmetry; exact Hh).
  rewrite bind_modify, bind_gets.
  rewrite (heap_upd_request _ a _ req) by exact Hh.
  rewrite bind_Ok with (a := (-2)%Z)
    (b' := upd_request (λ r0, r_with_attempts (r_attempts r0 + 1) r0) a
             (upd_service (s_with_q []) srv (with_ticks (n_clock b) r b)))
    by (apply requestValidate_rejected; simpl; [done|done|lia]).
  cbn [Z.leb Z.eqb Z.compare Pos.compare Pos.compare_cont Pos.eqb].
  rewrite bind_modify. split; [reflexivity|].
  repeat split; try done.
  exists (s_with_q ([] ++ [a]) (s_with_q [] service)), worker, (r_with_attempts (r_attempts req + 1) req).
  repeat split; try done.
  - simpl. rewrite JsFacts.get_upd, String.eqb_refl, JsFacts.get_upd, String.eqb_refl, Hs. reflexivity.
  - simpl. rewrite Hh. apply list_lookup_insert_eq. now apply lookup_lt_Some in Hh.
  - simpl. lia.
Qed.

Lemma dispatch_loop_stuck srv w a fuel :
  ∀ mode tryagain b,
    stuck_request srv w a b →
    mode = None ∨ mode = Some "rand" →
    ∃ b', dispatch_loop E fuel (Some srv) mode tryagain b = Spin b'.
Proof.
  induction fuel as [|fuel IH]; intros mode tryagain b Hstuck Hmode; simpl.
  - now exists b.
  - rewrite bind_gets.
    assert (Hm : (if Js.truthy mode then Js.key mode else dmode (conf b)) = "load"
                 ∨ (if Js.truthy mode then Js.key mode else dmode (conf b)) = "rand").
    { destruct Hmode as [-> | ->]; simpl; [|now right]. apply Hstuck. }
    destruct (stuck_turn srv w a _ b Hstuck Hm) as (b1 & b2 & Hsel & Hh & Hstuck2).
    rewrite (bind_Ok _ _ _ _ _ Hsel).
    destruct Hstuck as (Hsrv & Hw & _).
    cbn [sws_service sws_workerId]. rewrite !truthy_Some by done. cbn [negb orb].
    rewrite (bind_Ok _ _ _ _ _ Hh). cbn [Z.eqb Z.ltb Z.compare Pos.compare Pos.compare_cont Pos.eqb].
    apply IH; [exact Hstuck2|now right].
Qed.

(** C2, what the code does: when the only worker of a service has
    rejected the only queued request, the request has no deadline and the
    attempts reach [rattempts], every turn of the loop validates the request
    as -2 and puts it back, so that [dispatch] is still in its loop
    whatever the fuel: one synchronous call does not terminate. *)
Theorem dispatch_never_returns (srv w : string) (a : nat) (b : Broker) (fuel : nat) :
  stuck_request srv w a b →
  ∃ b', dispatch E fuel (Some srv) None b = Spin b'.
Proof.
  intros Hstuck.
  destruct (dispatch_loop_stuck srv w a fuel None 0 b Hstuck) as [b' Hb']; [now left|].
  exists b'. unfold dispatch, bind. now rewrite Hb'.
Qed.

Lemma requestValidate_accepts worker req b :
  (r_timeout req <= -1 ∨ clock E (n_clock b) <= r_ts req + r_timeout req)%Q →
  r_rejects req = [] →
  ∃ c, requestValidate E (Some worker) (Some req) b
       = Ok 1%Z (with_ticks c (n_random b) b).
Proof.
  intros Ht Hrej. unfold requestValidate, absent. rewrite Hrej.
  destruct (Qgtb_spec (r_timeout req) (-1)) as [Hgt|Hle].
  - exists (S (n_clock b)). unfold bind, getTime, ret, gets.
    destruct (Qgtb_spec (clock E (n_clock b)) (r_ts req + r_timeout req)); [lra|].
    simpl. now destruct b.
  - exists (n_clock b). rewrite bind_ret, bind_gets. simpl.
    now rewrite with_ticks_id.
Qed.

Lemma _rproc_assigns w worker a b req :
  Js.get w (workers b) = Some worker →
  heap b !! a = Some req →
  ∃ b2, _rproc w worker a b = Ok tt b2
        ∧ services b2 = services b
        ∧ workers b2 = Js.upd w (λ w0, w_with_rids (w_rids w0 ++ [r_rid req]) w0) (workers b)
        ∧ rmap b2 = <[Js.key (r_rid req) := a]> (rmap b)
        ∧ conf b2 = conf b.
Proof.
  intros Hg Hh. unfold _rproc. rewrite bind_gets, Hh, !bind_modify.
  unfold Controller_rset, send, modify, bind, ret.
  destruct (truthyZ (o_persist (r_opts req))); eexists; (split; [reflexivity|]);
    cbn [socket with_ctrl with_rmap upd_worker upd_request with_workers with_heap];
    destruct (socket b); simpl; repeat split;
    unfold Js.upd; rewrite Hg; now rewrite Nat.eqb_refl.
Qed.

(** One turn of the dispatcher on a request that validates, with the
    cache off: the request leaves the queue and becomes one more
    assignment of the selected worker. *)
Lemma _rhandle_assigns srv w a q b service worker req :
  Js.get srv (services b) = Some service →
  s_q service = a :: q →
  Js.get w (workers b) = Some worker →
  heap b !! a = Some req →
  (r_timeout req <= -1 ∨ clock E (n_clock b) <= r_ts req + r_timeout req)%Q →
  r_rejects req = [] →
  cache (conf b) = false →
  ∃ b2, _rhandle E {| sws_service := Some srv; sws_workerId := Some w |} b = Ok 1%Z b2
        ∧ services b2 = Js.upd srv (s_with_q q) (services b)
        ∧ workers b2 = Js.upd w (λ w0, w_with_rids (w_rids w0 ++ [r_rid req]) w0) (workers b)
        ∧ rmap b2 = <[Js.key (r_rid req) := a]> (rmap b)
        ∧ conf b2 = conf b.
Proof.
  intros Hs Hq Hg Hh Ht Hrej Hc.
  set (req' := r_with_attempts (r_attempts req + 1) req).
  set (b1 := upd_request (λ r0, r_with_attempts (r_attempts r0 + 1) r0) a
               (upd_service (s_with_q q) srv b)).
  destruct (requestValidate_accepts worker req' b1) as [c Hv]; [exact Ht|exact Hrej|].
  destruct (_rproc_assigns w worker a (with_ticks c (n_random b1) b1) req')
    as (b2 & Hp & H1 & H2 & H3 & H4);
    [exact Hg
    |exact (heap_upd_request (λ r0, r_with_attempts (r_attempts r0 + 1) r0) a _ req Hh)|].
  exists b2. split; [|now repeat split].
  unfold _rhandle. cbn [sws_workerId sws_service]. rewrite !key_Some.
  rewrite bind_gets, Hg.
  rewrite bind_Ok with (a := service) (b' := b)
    by (unfold serviceRequire; simpl; now rewrite Hs).
  rewrite Hq, bind_modify, bind_gets.
  replace (heap (upd_service (s_with_q q) srv b) !! a) with (Some req)
    by (symmetry; exact Hh).
  rewrite bind_modify, bind_gets.
  rewrite (heap_upd_request _ a _ req) by exact Hh.
  fold req' b1. rewrite (bind_Ok _ _ _ _ _ Hv).
  cbn [Z.leb Z.compare]. rewrite bind_gets. cbn [conf with_ticks].
  replace (cache (conf b1)) with false by (symmetry; exact Hc).
  now rewrite (bind_Ok _ _ _ _ _ Hp).
Qed.

(** C5, what the code does: a worker with concurrency limit 1 and one
    request assigned is still selected, and [dispatch] assigns it the
    queued request as well: the request does not stay queued, and the
    worker holds two assignments. *)
Theorem dispatch_beyond_concurrency_one
        (fuel : nat) (srv w : string) (a : nat) (b : Broker)
        (service : Service) (worker : Worker) (req : Request) (rid1 : option string) :
  srv ≠ "" → w ≠ "" →
  Js.ends_with_star srv = false →
  dmode (conf b) = "load" ∨ dmode (conf b) = "rand" →
  cache (conf b) = false →
  Js.get srv (services b) = Some service →
  s_workers service = [w] →
  s_q service = [a] →
  Js.get w (workers b) = Some worker →
  w_concurrency worker = 1%Z →
  w_rids worker = [rid1] →
  heap b !! a = Some req →
  (r_timeout req <= -1 ∨ clock E (n_clock b) <= r_ts req + r_timeout req)%Q →
  r_rejects req = [] →
  ∃ b', dispatch E (S (S fuel)) (Some srv) None b = Ok tt b'
        ∧ w_rids <$> Js.get w (workers b') = Some [rid1; r_rid req]
        ∧ queue_of srv b' = []
        ∧ rmap b' !! Js.key (r_rid req) = Some a.
Proof.
  intros Hsrv Hw Hstar Hcm Hc Hs Hws Hq Hg Hconc Hrids Hh Ht Hrej.
  assert (Ho : over_limit worker = false) by (unfold over_limit; now rewrite Hconc, Hrids).
  destruct (serviceWorkerSelect_single srv service (dmode (conf b)) b w worker a []
              Hsrv Hw Hs Hws Hq Hg Ho Hcm) as [r Hsel].
  destruct (_rhandle_assigns srv w a [] (with_ticks (n_clock b) r b) service worker req)
    as (b2 & Hh2 & Hs2 & Hw2 & Hr2 & Hc2); try done.
  cbn [services workers with_ticks] in Hs2, Hw2.
  assert (Hsel2 : ∀ mode, serviceWorkerSelect E (Some srv) mode b2 = Ok None b2).
  { intros mode. unfold serviceWorkerSelect.
    rewrite bind_Ok with (a := s_with_q [] service) (b' := b2).
    - cbn [s_q s_with_q nonempty]. rewrite andb_false_r. now rewrite Hstar.
    - unfold serviceRequire. rewrite key_Some, Hs2.
      now rewrite (JsFacts.get_upd_eq _ _ _ _ Hs). }
  exists b2. split; [|repeat split].
  - unfold dispatch.
    rewrite bind_Ok with (a := (None, 0)) (b' := b2); [reflexivity|].
    cbn [dispatch_loop]. rewrite bind_gets. cbn [Js.truthy].
    rewrite (bind_Ok _ _ _ _ _ Hsel).
    cbn [sws_service sws_workerId]. rewrite !truthy_Some by done. cbn [negb orb].
    rewrite (bind_Ok _ _ _ _ _ Hh2). cbn [Z.eqb Z.ltb Z.compare].
    rewrite bind_gets. now rewrite (bind_Ok _ _ _ _ _ (Hsel2 _)).
  - rewrite Hw2, (JsFacts.get_upd_eq _ _ _ _ Hg). simpl. now rewrite Hrids.
  - unfold queue_of. now rewrite Hs2, (JsFacts.get_upd_eq _ _ _ _ Hs).
  - rewrite Hr2. apply lookup_insert_eq.
Qed.

End OneWorker.

(** ** Further properties of the handlers *)

Section Handshake.

Variable E : Env.

Lemma has_upd {V} k k' (f : V → V) o : Js.has k (Js.upd k' f o) = Js.has k o.
Proof.
  unfold Js.has. rewrite JsFacts.get_upd.
  destruct (String.eqb k k'); [|done]. now destruct (Js.get k o).
Qed.

Lemma del_set_absent {V} k (v : V) o : Js.get k o = None → Js.del k (Js.set k v o) = o.
Proof.
  induction o as [|[k' v'] o IH]; simpl.
  - now rewrite String.eqb_refl.
  - destruct (String.eqb k k') eqn:Hk; [done|]. intros H. simpl. rewrite Hk.
    now rewrite IH.
Qed.

(** X1: the dispatcher neither registers nor removes a worker, and takes no
    entry out of the request table, whether it returns or not. *)
Theorem dispatch_keeps_registries (fuel : nat) (srvName mode : option string) (b : Broker) :
  (∀ w, Js.has w (workers (state_of (dispatch E fuel srvName mode b)))
        = Js.has w (workers b))
  ∧ (∀ k, is_Some (rmap b !! k)
          → is_Some (rmap (state_of (dispatch E fuel srvName mode b)) !! k)).
Proof.
  split.
  - intros w.
    set (P := λ b' : Broker, Js.has w (workers b') = Js.has w (workers b)).
    assert (HP : Framed P).
    { split; intros; try assumption. unfold P in *. simpl. now rewrite has_upd. }
    now apply (dispatch_stable E P HP fuel srvName mode b).
  - intros k Hk.
    set (P := λ b' : Broker, is_Some (rmap b' !! k)).
    assert (HP : Framed P).
    { split; intros; try assumption. unfold P in *. simpl.
      rewrite lookup_insert_is_Some. destruct (decide (k0 = k)); eauto. }
    now apply (dispatch_stable E P HP fuel srvName mode b).
Qed.

(** X2: a frame other than W_READY from a worker that has not registered: the
    broker sends it DISCONNECT and is otherwise left as it was. *)
Theorem onWorker_unknown_worker (fuel : nat) (b : Broker) (msg : Message) :
  eqs (frame msg 2) MDP.W_READY = false →
  Js.has (identity msg) (workers b) = false →
  socket b = true →
  ∃ b', onWorker E fuel msg b = Ok tt b'
        ∧ workers b' = workers b
        ∧ sent b' = sent b ++ [disconnect_frame (identity msg)]
        ∧ services b' = services b ∧ rmap b' = rmap b ∧ heap b' = heap b
        ∧ pending b' = pending b.
Proof.
  intros Hty Hhas Hs. unfold Js.has in Hhas.
  destruct (Js.get (identity msg) (workers b)) eqn:Hg; [done|].
  eexists. split.
  - unfold onWorker. rewrite bind_gets. unfold Js.has. rewrite Hg.
    rewrite bind_Ok with (a := new_worker (identity msg) (n_oid b))
      (b' := tick_oid (with_workers (Js.set (identity msg)
                                       (new_worker (identity msg) (n_oid b))) b))
      by (unfold workerRequire; now rewrite Hg).
    rewrite Hty. cbn [negb].
    rewrite workerDelete_registered with (worker := new_worker (identity msg) (n_oid b))
      by (simpl; apply JsFacts.get_set_eq).
    reflexivity.
  - unfold without_worker. simpl. rewrite Hs. simpl. repeat split.
    now apply del_set_absent.
Qed.

(** X3: a partial reply for a request assigned to the worker is forwarded to
    the client and the assignment is retained: the worker's [rids], the
    request table and the request records are as before. *)
Theorem onWorker_partial_reply (fuel : nat) (b : Broker) (msg : Message)
        (worker : Worker) (a : nat) (req : Request) :
  frame msg 2 = Some MDP.W_REPLY_PARTIAL →
  Js.get (identity msg) (workers b) = Some worker →
  frame msg 5 ∈ w_rids worker →
  rmap b !! Js.key (frame msg 5) = Some a →
  heap b !! a = Some req →
  socket b = true →
  ∃ b', onWorker E fuel msg b = Ok tt b'
        ∧ sent b' = sent b ++ [[Some (r_clientId req); Some MDP.CLIENT;
                                 Some MDP.W_REPLY_PARTIAL; Some ""; r_rid req]
                                  ++ (Some <$> drop 6 (frames msg))]
        ∧ w_rids <$> Js.get (identity msg) (workers b') = Some (w_rids worker)
        ∧ rmap b' = rmap b ∧ heap b' = heap b.
Proof.
  intros Ht Hg Hin Hr Hh Hs.
  exists (with_sent
            (λ l, l ++ [[Some (r_clientId req); Some MDP.CLIENT;
                         Some MDP.W_REPLY_PARTIAL; Some ""; r_rid req]
                          ++ (Some <$> drop 6 (frames msg))])
            (state_of (serviceRequire (Some (r_service req))
                         (upd_worker (w_with_liveness HEARTBEAT_LIVENESS)
                            (identity msg) b)))).
  split.
  - unfold onWorker. rewrite bind_gets. unfold Js.has. rewrite Hg.
    rewrite (bind_Ok _ _ b worker b) by (unfold workerRequire; now rewrite Hg).
    rewrite Ht. eval_eqs. cbn [negb orb andb].
    rewrite bind_modify, bind_gets.
    replace (Js.get (identity msg)
               (workers (upd_worker (w_with_liveness HEARTBEAT_LIVENESS) (identity msg) b)))
      with (Some (w_with_liveness HEARTBEAT_LIVENESS worker))
      by (symmetry; now apply JsFacts.get_upd_eq).
    cbn [negb orb andb].
    unfold absent. rewrite (bool_decide_eq_true_2 _ Hin). cbn [negb].
    unfold bind, gets, serviceRequire, reply, send, modify, ret. simpl.
    rewrite Hr. simpl. rewrite Hh. simpl.
    destruct (Js.get (r_service req) (services b)); simpl; rewrite Hs; reflexivity.
  - unfold serviceRequire. simpl.
    destruct (Js.get (r_service req) (services b)); simpl; repeat split;
      now rewrite (JsFacts.get_upd_eq _ _ _ _ Hg).
Qed.

End Handshake.

(** ** What no handler does *)

Lemma same_request_refl r : same_request r r.
Proof. repeat split; try reflexivity. Qed.

Create HintDb kept.

Section Handlers_kept.

Variable E : Env.
Variable P : Broker → Prop.
Hypothesis HP : Kept P.

Lemma send_kept msg : stable P (send msg).
Proof. apply stable_modify. intros b Hb. now apply kp_send. Qed.

Lemma getTime_kept : stable P (getTime E).
Proof. intros b Hb. exact (kp_clock P HP b Hb). Qed.

Lemma draw_kept n : stable P (draw E n).
Proof. intros b Hb. exact (kp_random P HP b Hb). Qed.

Lemma serviceRequire_kept srvName : stable P (serviceRequire srvName).
Proof.
  intros b Hb. unfold serviceRequire.
  destruct (Js.get _ _) eqn:Hg; [done|]. simpl. now apply kp_service_new.
Qed.

Lemma workerRequire_kept workerId : stable P (workerRequire workerId).
Proof.
  intros b Hb. unfold workerRequire. destruct (Js.get _ _); [done|]. simpl.
  now apply kp_oid, kp_workers.
Qed.

Lemma upd_worker_kept f k b : P b → P (upd_worker f k b).
Proof. apply kp_workers, HP. Qed.

Lemma upd_service_q_kept (f : Service → list nat) k b :
  P b → P (upd_service (λ s, s_with_q (f s) s) k b).
Proof. now apply (kp_service P HP). Qed.

Lemma upd_service_workers_kept (f : Service → list string) k b :
  P b → P (upd_service (λ s, s_with_workers (f s) s) k b).
Proof. now apply (kp_service P HP). Qed.

Lemma upd_request_attempts_kept a b :
  P b → P (upd_request (λ r, r_with_attempts (r_attempts r + 1) r) a b).
Proof. apply (kp_request P HP). intros r. repeat split; simpl; [lia|done]. Qed.

Lemma upd_request_rejects_kept w a b :
  P b → P (upd_request (λ r, r_with_rejects (r_rejects r ++ [w]) r) a b).
Proof.
  apply (kp_request P HP). intros r. repeat split; simpl; [lia|].
  now apply prefix_app_r.
Qed.

Lemma upd_request_workerId_kept v a b : P b → P (upd_request (r_with_workerId v) a b).
Proof. apply (kp_request P HP). intros r. repeat split; simpl; [lia|done]. Qed.

#[local] Hint Resolve send_kept getTime_kept draw_kept serviceRequire_kept
  workerRequire_kept upd_worker_kept upd_request_attempts_kept
  upd_request_rejects_kept upd_request_workerId_kept : kept.
#[local] Hint Extern 1 (P (upd_service (s_with_q _) _ _)) =>
  apply (upd_service_q_kept (λ _, _)) : kept.
#[local] Hint Extern 1 (P (upd_service (s_with_workers _) _ _)) =>
  apply (upd_service_workers_kept (λ _, _)) : kept.
#[local] Hint Extern 1 (P (upd_service (λ s, s_with_q _ s) _ _)) =>
  apply upd_service_q_kept : kept.
#[local] Hint Extern 1 (P (upd_service (λ s, s_with_workers _ s) _ _)) =>
  apply upd_service_workers_kept : kept.
#[local] Hint Extern 1 (P (with_pending _ _)) => apply kp_pending : kept.
#[local] Hint Extern 1 (P (with_ctrl _ _)) => apply kp_ctrl : kept.
#[local] Hint Extern 1 (P (with_rmap _ _)) => apply kp_rmap : kept.
#[local] Hint Extern 1 (P (with_cache _ _)) => apply kp_cache : kept.
#[local] Hint Extern 1 (P (with_workers _ _)) => apply kp_workers : kept.
#[local] Hint Extern 1 (P (with_wcheck _ _)) => apply kp_wcheck : kept.
#[local] Hint Extern 1 (P (with_heap (λ h, h ++ [_]) _)) => apply kp_request_new : kept.

Lemma requestValidate_kept worker req : stable P (requestValidate E worker req).
Proof. unfold requestValidate. repeat stable_step; auto with kept. Qed.

Lemma _wsel_kept k service mode : stable P (_wsel E k service mode).
Proof. unfold _wsel. repeat stable_step; auto with kept. Qed.

Lemma scan_workers_kept name mode ents : stable P (scan_workers E name mode ents).
Proof.
  induction ents as [|[mName mSrv] ents IH]; simpl.
  - apply stable_ret.
  - repeat stable_step; auto using _wsel_kept.
Qed.

Lemma serviceWorkerSelect_kept srvName mode :
  stable P (serviceWorkerSelect E srvName mode).
Proof.
  unfold serviceWorkerSelect.
  repeat stable_step; auto using _wsel_kept, scan_workers_kept with kept.
Qed.

Lemma _rproc_kept wk worker a : stable P (_rproc wk worker a).
Proof. unfold _rproc, Controller_rset. repeat stable_step; auto with kept. Qed.

Lemma _rhandle_kept sws : stable P (_rhandle E sws).
Proof.
  unfold _rhandle, Controller_rdel.
  repeat stable_step; auto using requestValidate_kept, _rproc_kept with kept.
Qed.

Lemma dispatch_loop_kept fuel srvName mode tryagain :
  stable P (dispatch_loop E fuel srvName mode tryagain).
Proof.
  revert mode tryagain. induction fuel as [|fuel IH]; intros mode tryagain; simpl.
  - apply stable_spin.
  - repeat stable_step; auto using serviceWorkerSelect_kept, _rhandle_kept.
Qed.

Lemma dispatch_kept fuel srvName mode : stable P (dispatch E fuel srvName mode).
Proof.
  unfold dispatch. repeat stable_step; auto using dispatch_loop_kept with kept.
Qed.

Lemma requestQueue_kept fuel a : stable P (requestQueue E fuel a).
Proof.
  unfold requestQueue, Controller_rset.
  repeat stable_step; auto using dispatch_kept with kept.
Qed.

Lemma workerDelete_kept fuel workerId disconnect :
  stable P (workerDelete E fuel workerId disconnect).
Proof.
  unfold workerDelete, workerDelete_rid, Controller_rdel.
  repeat stable_step; auto using dispatch_kept with kept.
Qed.

Lemma serviceWorkerAdd_kept fuel srvName workerId :
  stable P (serviceWorkerAdd E fuel srvName workerId).
Proof.
  unfold serviceWorkerAdd. repeat stable_step; auto using dispatch_kept with kept.
Qed.

Lemma Cache_get_kept h : stable P (Cache_get E h).
Proof. unfold Cache_get, Cache_valid. repeat stable_step; auto with kept. Qed.

Lemma Cache_set_kept h d ttl : stable P (Cache_set E h d ttl).
Proof. unfold Cache_set. repeat stable_step; auto with kept. Qed.

Lemma onClient_kept fuel msg : stable P (onClient E fuel msg).
Proof.
  unfold onClient. repeat stable_step; auto using requestQueue_kept with kept.
Qed.

Lemma onWorker_kept fuel msg : stable P (onWorker E fuel msg).
Proof.
  unfold onWorker, reply, Controller_rdel.
  repeat stable_step;
    auto using workerDelete_kept, serviceWorkerAdd_kept, dispatch_kept, Cache_set_kept
      with kept.
  match goal with |- stable _ (match ?x with _ => _ end ?y) => destruct x, y end;
    repeat stable_step;
    auto using workerDelete_kept, serviceWorkerAdd_kept, dispatch_kept, Cache_set_kept
      with kept.
Qed.

Lemma workersCheck_kept fuel : stable P (workersCheck E fuel).
Proof.
  unfold workersCheck, workersCheck_worker.
  repeat stable_step; auto using workerDelete_kept with kept.
Qed.

Lemma onMsg_kept fuel msg : stable P (onMsg E fuel msg).
Proof.
  unfold onMsg. repeat stable_step; auto using onClient_kept, onWorker_kept, workersCheck_kept.
Qed.

Lemma run_task_kept fuel t : stable P (run_task E fuel t).
Proof.
  unfold run_task, reply, Controller_rdel.
  repeat stable_step; auto using dispatch_kept, Cache_get_kept, _rproc_kept with kept.
Qed.

Lemma step_kept fuel e : stable P (step E fuel e).
Proof.
  unfold step.
  repeat stable_step; auto using onMsg_kept, workersCheck_kept, run_task_kept with kept.
Qed.

Lemma run_kept fuel es : stable P (run E fuel es).
Proof.
  induction es as [|e es IH]; simpl.
  - apply stable_ret.
  - repeat stable_step; auto using step_kept.
Qed.

End Handlers_kept.

Section Never.

Variable E : Env.

Lemma same_request_trans r1 r2 r3 :
  same_request r1 r2 → same_request r2 r3 → same_request r1 r3.
Proof.
  unfold same_request. intros H1 H2.
  destruct H1 as (?&?&?&?&?&?&?&?&?&?&?), H2 as (?&?&?&?&?&?&?&?&?&?&?).
  repeat split; try congruence; [lia|]. by etrans.
Qed.

(** X4: once [stop] has closed the socket, whatever is still delivered
    to the handlers (messages, timer ticks, deferred callbacks) writes no
    frame: [send] returns without a socket. *)
Theorem stopped_broker_is_silent (fuel : nat) (es : list Event) (b : Broker) :
  sent (state_of (run E fuel es (state_of (stop b)))) = sent b
  ∧ socket (state_of (run E fuel es (state_of (stop b)))) = false.
Proof.
  set (P := λ b' : Broker, sent b' = sent b ∧ socket b' = false).
  assert (HP : Kept P).
  { split; intros; try assumption. destruct H as [H1 H2]. now rewrite H2. }
  now apply (run_kept E P HP fuel es).
Qed.

(** X5: a service record is never taken out of the registry and keeps its
    name, whatever events the broker handles: services are created on
    demand and stay for the lifetime of the broker. *)
Theorem services_are_never_removed
        (fuel : nat) (es : list Event) (b : Broker) (k : string) (s : Service) :
  Js.get k (services b) = Some s →
  ∃ s', Js.get k (services (state_of (run E fuel es b))) = Some s'
        ∧ s_name s' = s_name s.
Proof.
  intros Hs.
  set (P := λ b' : Broker,
         ∃ s', Js.get k (services b') = Some s' ∧ s_name s' = s_name s).
  assert (HP : Kept P).
  { split; intros; try assumption.
    - destruct H0 as (s' & Hg & Hn). exists s'. split; [|done]. simpl.
      rewrite JsFacts.get_set_ne; [done|]. intros ->. congruence.
    - destruct H0 as (s' & Hg & Hn). unfold P.
      change (services (upd_service f k0 b0)) with (Js.upd k0 f (services b0)).
      rewrite JsFacts.get_upd, Hg.
      destruct (String.eqb k k0); simpl; [|eauto].
      exists (f s'). split; [done|]. now rewrite H.
    - now destruct (socket b0). }
  apply (run_kept E P HP fuel es). now exists s.
Qed.

(** X6: a request record is never dropped, and the handlers change nothing
    in it but the attempts, which grow, the rejects, which are appended to,
    and the worker it is assigned to. *)
Theorem request_records_persist
        (fuel : nat) (es : list Event) (b : Broker) (a : nat) (req : Request) :
  heap b !! a = Some req →
  ∃ req', heap (state_of (run E fuel es b)) !! a = Some req' ∧ same_request req req'.
Proof.
  intros Hh.
  set (P := λ b' : Broker, ∃ req', heap b' !! a = Some req' ∧ same_request req req').
  assert (HP : Kept P).
  { split; intros; try assumption.
    - destruct H as (req' & Hg & Hsame). exists req'. split; [|done]. simpl.
      now apply lookup_app_l_Some.
    - destruct H0 as (req' & Hg & Hsame). unfold P.
      destruct (decide (a = a0)) as [<-|Hne].
      + exists (f req'). split; [now apply heap_upd_request|].
        eapply same_request_trans; eauto.
      + exists req'. split; [|done]. unfold upd_request. simpl.
        destruct (heap b0 !! a0); [|done]. now rewrite list_lookup_insert_ne.
    - now destruct (socket b0). }
  apply (run_kept E P HP fuel es). exists req. split; [done|apply same_request_refl].
Qed.

End Never.

(** ** Enumeration after an update in place *)

Module EnumFacts.
Import Js.

Section Enum.
Context {V : Type}.
Implicit Types (o : list (string * V)) (k : string).

Lemma alike_refl k (e : string * V) : alike k e e.
Proof. by split. Qed.

Lemma alike_set k v o v0 : get k o = Some v0 → Forall2 (alike k) o (set k v o).
Proof.
  induction o as [|[k' v'] o IH]; simpl; [done|].
  destruct (String.eqb_spec k k') as [->|Hne].
  - intros _. constructor; [by split|]. apply Forall2_same_length_lookup_2; [done|].
    intros i x y Hx Hy. rewrite Hx in Hy. injection Hy as ->. apply alike_refl.
  - intros H. constructor; [apply alike_refl|auto].
Qed.

Lemma alike_upd k f o : Forall2 (alike k) o (upd k f o).
Proof.
  unfold upd. destruct (get k o) eqn:Hg.
  - by eapply alike_set.
  - apply Forall2_same_length_lookup_2; [done|].
    intros i x y Hx Hy. rewrite Hx in Hy. injection Hy as ->. apply alike_refl.
Qed.

Lemma alike_insert_index k n e e' (l l' : list (N * (string * V))) :
  alike k e e' →
  Forall2 (λ x y, x.1 = y.1 ∧ alike k x.2 y.2) l l' →
  Forall2 (λ x y, x.1 = y.1 ∧ alike k x.2 y.2) (insert_index n e l) (insert_index n e' l').
Proof.
  intros He Hl. induction Hl as [|[m x] [m' y] l l' [Hm Hxy] Hl IH]; simpl.
  - constructor; [by split|constructor].
  - simpl in Hm. subst m'. destruct (n <? m)%N.
    + constructor; [by split|]. constructor; [by split|done].
    + constructor; [by split|done].
Qed.

Lemma alike_split_keys k o o' :
  Forall2 (alike k) o o' →
  Forall2 (λ x y, x.1 = y.1 ∧ alike k x.2 y.2) (split_keys o).1 (split_keys o').1
  ∧ Forall2 (alike k) (split_keys o).2 (split_keys o').2.
Proof.
  induction 1 as [|e e' o o' He Ho [IH1 IH2]]; simpl; [by split; constructor|].
  destruct (split_keys o) as [ix nm], (split_keys o') as [ix' nm']. simpl in *.
  destruct He as [Hk He]. rewrite <- Hk.
  destruct (array_index e.1); simpl.
  - split; [|done]. apply alike_insert_index; [by split|done].
  - split; [done|]. constructor; [by split|done].
Qed.

Lemma alike_own_entries k o o' :
  Forall2 (alike k) o o' → Forall2 (alike k) (own_entries o) (own_entries o').
Proof.
  intros H. apply alike_split_keys in H as [H1 H2]. unfold own_entries.
  destruct (split_keys o) as [ix nm], (split_keys o') as [ix' nm']. simpl in *.
  apply Forall2_app; [|done]. apply Forall2_fmap.
  eapply Forall2_impl; [exact H1|]. now intros x y [_ ?].
Qed.

Lemma alike_find k (p : string * V → bool) l l' :
  (∀ v, p (k, v) = false) →
  Forall2 (alike k) l l' → List.find p l = List.find p l'.
Proof.
  intros Hp. induction 1 as [|[k1 v1] [k2 v2] l l' [Hk He] Hl IH]; simpl; [done|].
  simpl in Hk. subst k2. destruct (decide (k1 = k)) as [->|Hne].
  - now rewrite !Hp.
  - rewrite <- (He Hne). now rewrite IH.
Qed.

Lemma find_own_entries_upd k f (p : string * V → bool) o :
  (∀ v, p (k, v) = false) →
  List.find p (own_entries (upd k f o)) = List.find p (own_entries o).
Proof.
  intros Hp. symmetry. apply (alike_find k); [done|].
  apply alike_own_entries, alike_upd.
Qed.

End Enum.
End EnumFacts.

Section WildcardName.

Variable E : Env.

Lemma scan_queues_find name ents :
  scan_queues name ents = fst <$> List.find (queued_under name) ents.
Proof.
  induction ents as [|[m s] ents IH]; simpl; [done|].
  unfold queued_under at 1. simpl. rewrite <- JsFacts.starts_with_init_prefix.
  destruct (String.eqb name m); simpl; [done|]. now destruct (_ && _).
Qed.

(** The test of the scan for a wildcard name says what [matching_queue]
    says. *)
Lemma queued_under_matching name ent :
  Js.ends_with_star name = true →
  queued_under name ent = true ↔ matching_queue name ent.
Proof.
  intros [p ->]%JsFacts.ends_with_star_iff.
  unfold queued_under, matching_queue, matches.
  rewrite !andb_true_iff, negb_true_iff, JsFacts.prefix_iff, JsFacts.slice_init_append.
  split.
  - intros [[Hne [t Ht]] Hq]. split; [|split].
    + intros H. rewrite H, String.eqb_refl in Hne. done.
    + eauto.
    + now destruct (s_q ent.2).
  - intros (Hne & (p' & t & Hp' & Ht) & Hq). split; [split|].
    + apply String.eqb_neq. congruence.
    + exists t. apply JsFacts.append_star_inj in Hp'. congruence.
    + now destruct (s_q ent.2).
Qed.

(** [_wsel] changes nothing in the registry of services but the order of
    the workers of the service it is called on. *)
Lemma _wsel_services k service mode b r b' :
  _wsel E k service mode b = Ok r b' →
  services b' = services b
  ∨ ∃ ws, services b' = Js.upd k (s_with_workers ws) (services b).
Proof.
  unfold _wsel.
  destruct (String.eqb mode "rand").
  { unfold bind, draw, gets. simpl. intros [= _ <-]. now left. }
  destruct (String.eqb mode "load"); [|intros [= _ <-]; now left].
  destruct (s_workers service) as [|x [|y ws]].
  - intros [= _ <-]. now left.
  - intros [= _ <-]. now left.
  - unfold bind, gets, modify, id. destruct (forallb _ _); [|done].
    simpl. intros [= _ <-]. right. eauto.
Qed.

Lemma serviceWorkerSelect_wildcard b name mode service :
  Js.ends_with_star name = true →
  Js.get name (services b) = Some service →
  s_workers service ≠ [] →
  s_q service = [] →
  serviceWorkerSelect E (Some name) mode b =
    (w <- _wsel E name service mode;;
     ret (Some {| sws_service :=
                    fst <$> List.find (queued_under name) (Js.own_entries (services b));
                  sws_workerId := w |})) b.
Proof.
  intros Hname Hget Hws Hq.
  unfold serviceWorkerSelect, bind at 1, serviceRequire. simpl. rewrite Hget, Hq.
  rewrite andb_false_r, Hname.
  destruct (s_workers service) as [|x ws] eqn:Hw; [done|]. cbn [nonempty].
  unfold bind. destruct (_wsel E name service mode b) as [r b2| |] eqn:Hsel; [|done..].
  unfold gets, ret. rewrite scan_queues_find. do 3 f_equal.
  assert (Hp : ∀ v, queued_under name (name, v) = false).
  { intros v. unfold queued_under. simpl. now rewrite String.eqb_refl. }
  destruct (_wsel_services _ _ _ _ _ _ Hsel) as [->|[ws' ->]]; [done|].
  now rewrite EnumFacts.find_own_entries_upd.
Qed.

(** X7: for a wildcard name whose own service has workers and no queued
    request, [serviceWorkerSelect] lets [_wsel] choose among the workers of
    the wildcard service and pairs the choice with the first other service,
    in enumeration order, whose name the pattern matches (it starts with the
    characters before the '*') and whose queue is not empty, and with null
    when there is no such service. *)
Theorem wildcard_name_selects_queue
        (b : Broker) (name mode : string) (service : Service) :
  Js.ends_with_star name = true →
  Js.get name (services b) = Some service →
  s_workers service ≠ [] →
  s_q service = [] →
  (∀ mName mSrv,
      first_with (matching_queue name) (Js.own_entries (services b)) (mName, mSrv) →
      serviceWorkerSelect E (Some name) mode b
      = (w <- _wsel E name service mode;;
         ret (Some {| sws_service := Some mName; sws_workerId := w |})) b)
  ∧ ((∀ ent, ent ∈ Js.own_entries (services b) → ¬ matching_queue name ent) →
     serviceWorkerSelect E (Some name) mode b
     = (w <- _wsel E name service mode;;
        ret (Some {| sws_service := None; sws_workerId := w |})) b)
  ∧ ∀ sws b' w,
      serviceWorkerSelect E (Some name) mode b = Ok (Some sws) b' →
      sws_workerId sws = Some w →
      w ∈ s_workers service.
Proof.
  intros Hname Hget Hws Hq.
  pose proof (serviceWorkerSelect_wildcard b name mode service Hname Hget Hws Hq) as Heq.
  split; [|split].
  - intros mName mSrv Hfirst.
    apply (find_first_with _ _ (λ ent, queued_under_matching name ent Hname)) in Hfirst.
    now rewrite Heq, Hfirst.
  - intros Hnone.
    apply (find_none_with _ _ (λ ent, queued_under_matching name ent Hname)) in Hnone.
    now rewrite Heq, Hnone.
  - intros sws b' w. rewrite Heq. unfold bind, ret.
    destruct (_wsel E name service mode b) as [r b2| |] eqn:Hsel; [|done..].
    intros [= <- <-] Hw. simpl in Hw. subst r.
    now apply _wsel_Some in Hsel as (_ & _ & Hin).
Qed.

End WildcardName.

(** ** Heartbeats, disconnection and protocol violations *)

Section Frames.

Variable E : Env.


(** X9: a heartbeat from a registered worker sets its liveness back to
    [HEARTBEAT_LIVENESS] and takes over the concurrency limit its options
    frame carries, if it carries one; nothing is sent and no other worker
    is touched. *)
Theorem onWorker_heartbeat (fuel : nat) (b : Broker) (msg : Message) (worker : Worker) :
  frame msg 2 = Some MDP.W_HEARTBEAT →
  Js.get (identity msg) (workers b) = Some worker →
  ∃ b', onWorker E fuel msg b = Ok tt b'
        ∧ Js.get (identity msg) (workers b')
          = Some (w_with_concurrency
                    (default (w_concurrency worker)
                       ((frame msg 4 ≫= JSON_parse E) ≫= o_concurrency))
                    (w_with_liveness HEARTBEAT_LIVENESS worker))
        ∧ (∀ k, k ≠ identity msg → Js.get k (workers b') = Js.get k (workers b))
        ∧ services b' = services b ∧ sent b' = sent b ∧ rmap b' = rmap b
        ∧ heap b' = heap b ∧ pending b' = pending b.
Proof.
  intros Ht Hg.
  set (b1 := upd_worker (w_with_liveness HEARTBEAT_LIVENESS) (identity msg) b).
  assert (Hg1 : Js.get (identity msg) (workers b1)
                = Some (w_with_liveness HEARTBEAT_LIVENESS worker))
    by (now apply JsFacts.get_upd_eq).
  assert (Heq : onWorker E fuel msg b =
                match frame msg 4 ≫= JSON_parse E with
                | Some opts =>
                    match o_concurrency opts with
                    | Some c => modify (upd_worker (w_with_concurrency c) (identity msg))
                    | None => ret tt
                    end
                | None => ret tt
                end b1).
  { unfold onWorker. rewrite bind_gets. unfold Js.has. rewrite Hg.
    rewrite (bind_Ok _ _ b worker b) by (unfold workerRequire; now rewrite Hg).
    rewrite Ht. eval_eqs. cbn [negb orb andb].
    rewrite bind_modify, bind_gets. fold b1. now rewrite Hg1. }
  rewrite Heq.
  destruct (frame msg 4 ≫= JSON_parse E) as [opts|]; simpl;
    [destruct (o_concurrency opts) as [c|]; simpl|].
  - eexists. split; [reflexivity|]. simpl. repeat split.
    + now rewrite (JsFacts.get_upd_eq _ _ _ _ Hg1).
    + intros k Hk. now rewrite !JsFacts.get_upd_ne.
  - exists b1. split; [reflexivity|]. repeat split; [now destruct worker|].
    intros k Hk. simpl. now rewrite JsFacts.get_upd_ne.
  - exists b1. split; [reflexivity|]. repeat split; [now destruct worker|].
    intros k Hk. simpl. now rewrite JsFacts.get_upd_ne.
Qed.

(** [workerDelete] leaves no record under the worker's id, whether the
    worker was registered or not and whatever the dispatcher does with the
    requests it held. *)
Lemma workerDelete_removes fuel workerId disconnect b :
  Js.get workerId (workers (state_of (workerDelete E fuel workerId disconnect b))) = None.
Proof.
  destruct (Js.get workerId (workers b)) as [worker|] eqn:Hg.
  - set (P := λ b : Broker, Js.get workerId (workers b) = None).
    assert (HP : Framed P).
    { split; intros; try assumption. unfold P. simpl. now apply JsFacts.get_upd_None. }
    rewrite workerDelete_registered with (worker := worker) by done.
    change (P (state_of (each (workerDelete_rid E fuel worker) (w_rids worker)
                           (without_worker workerId disconnect worker b)))).
    apply stable_each.
    { intros rid. unfold workerDelete_rid, Controller_rdel.
      repeat stable_step; try assumption; now apply dispatch_stable. }
    unfold without_worker. simpl. apply JsFacts.get_del_eq.
  - unfold workerDelete. rewrite bind_gets, Hg. simpl. apply JsFacts.get_del_eq.
Qed.

Lemma del_upd {V} k (f : V → V) o : Js.del k (Js.upd k f o) = Js.del k o.
Proof.
  unfold Js.upd. destruct (Js.get k o) as [v|]; [|done]. generalize (f v). intros v'.
  induction o as [|[k' v0] o IH]; simpl.
  - now rewrite String.eqb_refl.
  - destruct (String.eqb k k') eqn:Hk; simpl; rewrite ?String.eqb_refl, ?Hk; [done|].
    now rewrite IH.
Qed.

Lemma not_elem_of_pull {A} `{EqDecision A} (x : A) l : x ∉ pull x l.
Proof. unfold pull. rewrite list_elem_of_filter. tauto. Qed.

Lemma without_worker_workers workerId disconnect worker b :
  workers (without_worker workerId disconnect worker b) = Js.del workerId (workers b)
  ∧ sent (without_worker workerId false worker b) = sent b.
Proof.
  unfold without_worker, serviceRequire.
  destruct (disconnect && socket b), (Js.truthy (w_service worker)); simpl;
    try destruct (Js.get (Js.key (w_service worker)) (services b)); done.
Qed.

(** X10: W_DISCONNECT from a registered worker takes its record out of the
    registry, whatever the dispatcher does afterwards with the requests the
    worker held.  When it held none, the handler returns, the worker is off
    the list of its service, and no frame is sent: the worker is not told to
    disconnect. *)
Theorem onWorker_disconnect (fuel : nat) (b : Broker) (msg : Message) (worker : Worker) :
  frame msg 2 = Some MDP.W_DISCONNECT →
  Js.get (identity msg) (workers b) = Some worker →
  Js.get (identity msg) (workers (state_of (onWorker E fuel msg b))) = None
  ∧ (w_rids worker = [] →
     ∃ b', onWorker E fuel msg b = Ok tt b'
           ∧ workers b' = Js.del (identity msg) (workers b)
           ∧ (∀ srv, w_service worker = Some srv → srv ≠ "" →
                     ∃ s, Js.get srv (services b') = Some s ∧ identity msg ∉ s_workers s)
           ∧ sent b' = sent b ∧ rmap b' = rmap b ∧ heap b' = heap b
           ∧ pending b' = pending b).
Proof.
  intros Ht Hg.
  set (b1 := upd_worker (w_with_liveness HEARTBEAT_LIVENESS) (identity msg) b).
  set (worker1 := w_with_liveness HEARTBEAT_LIVENESS worker).
  assert (Hg1 : Js.get (identity msg) (workers b1) = Some worker1)
    by (now apply JsFacts.get_upd_eq).
  assert (Heq : onWorker E fuel msg b = workerDelete E fuel (identity msg) false b1).
  { unfold onWorker. rewrite bind_gets. unfold Js.has. rewrite Hg.
    rewrite (bind_Ok _ _ b worker b) by (unfold workerRequire; now rewrite Hg).
    rewrite Ht. eval_eqs. cbn [negb orb andb].
    rewrite bind_modify, bind_gets. fold b1. now rewrite Hg1. }
  rewrite Heq. split; [apply workerDelete_removes|].
  intros Hrids.
  rewrite workerDelete_registered with (worker := worker1) by done.
  cbn [worker1 w_rids w_with_liveness]. rewrite Hrids. simpl each.
  eexists. split; [reflexivity|].
  destruct (without_worker_rest (identity msg) false worker1 b1) as (Hrm & Hhp & _ & Hp).
  repeat split; [| |..]; try assumption.
  - rewrite (proj1 (without_worker_workers _ _ _ _)). apply del_upd.
  - intros srv Hsrv Hne. unfold without_worker. cbn [andb worker1 w_service w_with_liveness].
    rewrite Hsrv, truthy_Some, key_Some by done.
    unfold serviceRequire. simpl.
    destruct (Js.get srv (services b)) as [s|] eqn:Hs; simpl.
    + rewrite (JsFacts.get_upd_eq _ _ _ _ Hs). eexists. split; [done|]. apply not_elem_of_pull.
    + rewrite (JsFacts.get_upd_eq _ _ _ _ (JsFacts.get_set_eq _ _ _)).
      eexists. split; [done|]. apply not_elem_of_pull.
  - now rewrite (proj2 (without_worker_workers _ false _ _)).
Qed.


End Frames.

(** ** Deadlines and the cache at the time of assignment *)

Section Deferred.

Variable E : Env.

(** Nothing is left to pair for a concrete name whose queue is empty. *)
Lemma serviceWorkerSelect_idle srv s mode b :
  Js.ends_with_star srv = false →
  Js.get srv (services b) = Some s →
  s_q s = [] →
  serviceWorkerSelect E (Some srv) mode b = Ok None b.
Proof.
  intros Hstar Hs Hq. unfold serviceWorkerSelect.
  rewrite bind_Ok with (a := s) (b' := b)
    by (unfold serviceRequire; now rewrite key_Some, Hs).
  now rewrite Hq, andb_false_r, Hstar.
Qed.



Lemma Cache_get_hit h e b :
  cache_m b !! hash_key h = Some e →
  (expire e <= -1 ∨ clock E (n_clock b) <= expire e)%Z →
  ∃ c, Cache_get E h b = Ok (Some (data e)) (with_ticks c (n_random b) b).
Proof.
  intros He Hv. unfold Cache_get. rewrite bind_gets, He. unfold Cache_valid.
  destruct (Z.gtb_spec (expire e) (-1)) as [Hgt|Hle].
  - exists (S (n_clock b)). unfold bind, getTime, ret.
    destruct (Z.ltb_spec (expire e) (clock E (n_clock b))); [lia|]. simpl.
    now destruct b.
  - exists (n_clock b). rewrite bind_ret. simpl. now rewrite with_ticks_id.
Qed.

(** X13: with the cache on, the deferred lookup for a request whose
    fingerprint has an entry that has not expired sends the cached payload
    to the client as the final reply and takes the request out of the
    controller; no worker is given the request and the request table is not
    touched. *)
Theorem cached_reply_needs_no_worker
        (fuel : nat) (b : Broker) (a : nat) (wk : string) (worker : Worker)
        (p : list Task) (req : Request) (e : CacheEntry) :
  pending b = TCacheGet a wk worker :: p →
  heap b !! a = Some req →
  cache_m b !! hash_key (r_hash req) = Some e →
  (expire e <= -1 ∨ clock E (n_clock b) <= expire e)%Z →
  socket b = true →
  ∃ b', step E fuel EImmediate b = Ok tt b'
        ∧ sent b' = sent b ++ [[Some (r_clientId req); Some MDP.CLIENT; Some MDP.W_REPLY;
                                 Some ""; r_rid req] ++ (Some <$> data e)]
        ∧ ctrl_reqs b' = delete (Js.key (r_rid req)) (ctrl_reqs b)
        ∧ pending b' = p
        ∧ workers b' = workers b ∧ rmap b' = rmap b ∧ services b' = services b
        ∧ heap b' = heap b ∧ cache_m b' = cache_m b.
Proof.
  intros Hp Hh He Hv Hs.
  destruct (Cache_get_hit (r_hash req) e (with_pending (λ _, p) b) He Hv) as [c Hget].
  eexists. split.
  - unfold step. rewrite bind_gets, Hp, bind_modify. unfold run_task.
    rewrite bind_gets. cbn [heap with_pending]. rewrite Hh.
    rewrite (bind_Ok _ _ _ _ _ Hget).
    unfold reply, send, Controller_rdel. rewrite bind_modify.
    cbn [socket with_ticks with_pending]. rewrite Hs. reflexivity.
  - repeat split.
Qed.

Lemma _rproc_assigned wk worker a b req :
  heap b !! a = Some req →
  _rproc wk worker a b = Ok tt (assigned wk worker a req b).
Proof.
  intros Hh. unfold _rproc. rewrite bind_gets, Hh, !bind_modify.
  unfold assigned, Controller_rset, send, modify, bind, ret.
  now destruct (truthyZ (o_persist (r_opts req))).
Qed.

Lemma assigned_rest wk worker a req b :
  services (assigned wk worker a req b) = services b
  ∧ rmap (assigned wk worker a req b) = <[Js.key (r_rid req) := a]> (rmap b)
  ∧ conf (assigned wk worker a req b) = conf b
  ∧ cache_m (assigned wk worker a req b) = cache_m b
  ∧ pending (assigned wk worker a req b) = pending b
  ∧ socket (assigned wk worker a req b) = socket b
  ∧ n_clock (assigned wk worker a req b) = n_clock b
  ∧ length (heap (assigned wk worker a req b)) = length (heap b)
  ∧ sent (assigned wk worker a req b)
    = (if socket b then sent b ++ [request_frame worker req] else sent b).
Proof.
  unfold assigned.
  destruct (truthyZ (o_persist (r_opts req))), (socket b) eqn:Hs; simpl;
    rewrite ?Hs; repeat split;
    destruct (heap b !! a); simpl; now rewrite ?length_insert.
Qed.

Lemma assigned_worker w worker a req b :
  Js.get w (workers b) = Some worker →
  workers (assigned w worker a req b)
  = Js.upd w (λ w0, w_with_rids (w_rids w0 ++ [r_rid req]) w0) (workers b).
Proof.
  intros Hg. unfold assigned.
  destruct (truthyZ (o_persist (r_opts req))), (socket b); simpl;
    unfold Js.upd; rewrite Hg; now rewrite Nat.eqb_refl.
Qed.


End Deferred.

(** ** One worker and a queue of requests *)

Section Drain.

Variable E : Env.

Lemma requestValidate_passes worker req b :
  (r_timeout req <= -1 ∨ clock E (n_clock b) <= r_ts req + r_timeout req)%Q →
  w_workerId worker ∉ r_rejects req ∨ (r_attempts req < rattempts (conf b))%Z →
  ∃ c, (c = n_clock b ∨ c = S (n_clock b))
       ∧ requestValidate E (Some worker) (Some req) b
         = Ok 1%Z (with_ticks c (n_random b) b).
Proof.
  intros Ht Hrej.
  assert (Hno : negb (absent (w_workerId worker) (r_rejects req))
                && (r_attempts req >=? rattempts (conf b))%Z = false).
  { unfold absent. destruct Hrej as [Hnin|Hlt].
    - now rewrite (bool_decide_eq_false_2 _ Hnin).
    - destruct (Z.geb_spec (r_attempts req) (rattempts (conf b))); [lia|].
      apply andb_false_r. }
  unfold requestValidate.
  destruct (Qgtb_spec (r_timeout req) (-1)) as [Hgt|Hle].
  - exists (S (n_clock b)). split; [now right|]. unfold bind, getTime, ret, gets.
    destruct (Qgtb_spec (clock E (n_clock b)) (r_ts req + r_timeout req)); [lra|].
    cbn [conf tick_clock]. rewrite Hno. now destruct b.
  - exists (n_clock b). split; [now left|]. rewrite bind_ret, bind_gets, Hno.
    now rewrite with_ticks_id.
Qed.

(** One turn of the dispatcher on a request that validates, with the
    cache off, and the state it leaves. *)
Lemma _rhandle_assigned srv w a q b service worker req :
  Js.get srv (services b) = Some service →
  s_q service = a :: q →
  Js.get w (workers b) = Some worker →
  heap b !! a = Some req →
  (r_timeout req <= -1 ∨ clock E (n_clock b) <= r_ts req + r_timeout req)%Q →
  w_workerId worker ∉ r_rejects req ∨ (r_attempts req + 1 < rattempts (conf b))%Z →
  cache (conf b) = false →
  ∃ c, (c = n_clock b ∨ c = S (n_clock b))
       ∧ _rhandle E {| sws_service := Some srv; sws_workerId := Some w |} b
         = Ok 1%Z
             (assigned w worker a (r_with_attempts (r_attempts req + 1) req)
                (with_ticks c (n_random b)
                   (upd_request (λ r0, r_with_attempts (r_attempts r0 + 1) r0) a
                      (upd_service (s_with_q q) srv b)))).
Proof.
  intros Hs Hq Hg Hh Ht Hrej Hc.
  set (req' := r_with_attempts (r_attempts req + 1) req).
  set (b1 := upd_request (λ r0, r_with_attempts (r_attempts r0 + 1) r0) a
               (upd_service (s_with_q q) srv b)).
  assert (Hh1 : heap b1 !! a = Some req')
    by exact (heap_upd_request (λ r0, r_with_attempts (r_attempts r0 + 1) r0) a _ req Hh).
  destruct (requestValidate_passes worker req' b1) as (c & Hc' & Hv);
    [exact Ht|exact Hrej|].
  exists c. split; [exact Hc'|].
  unfold _rhandle. cbn [sws_workerId sws_service]. rewrite !key_Some.
  rewrite bind_gets, Hg.
  rewrite bind_Ok with (a := service) (b' := b)
    by (unfold serviceRequire; simpl; now rewrite Hs).
  rewrite Hq, bind_modify, bind_gets.
  replace (heap (upd_service (s_with_q q) srv b) !! a) with (Some req)
    by (symmetry; exact Hh).
  rewrite bind_modify, bind_gets. fold b1. rewrite Hh1.
  rewrite (bind_Ok _ _ _ _ _ Hv).
  cbn [Z.leb Z.compare]. rewrite bind_gets. cbn [conf with_ticks].
  replace (cache (conf b1)) with false by (symmetry; exact Hc).
  rewrite bind_Ok with (a := tt)
    (b' := assigned w worker a req' (with_ticks c (n_random b1) b1)); [reflexivity|].
  apply _rproc_assigned. exact Hh1.
Qed.

Lemma upd_request_lookup f a a' b :
  heap (upd_request f a b) !! a'
  = if decide (a' = a) then f <$> heap b !! a' else heap b !! a'.
Proof.
  unfold upd_request. cbn [heap with_heap].
  destruct (decide (a' = a)) as [->|Hne].
  - destruct (heap b !! a) eqn:Hh; [|now rewrite Hh].
    rewrite list_lookup_insert_eq; [done|]. now apply lookup_lt_Some in Hh.
  - destruct (heap b !! a); [|done]. now rewrite list_lookup_insert_ne.
Qed.

Lemma assigned_heap wk worker a req b a' :
  heap (assigned wk worker a req b) !! a'
  = if decide (a' = a) then r_with_workerId (Some (w_workerId worker)) <$> heap b !! a'
    else heap b !! a'.
Proof.
  unfold assigned.
  destruct (truthyZ (o_persist (r_opts req))), (socket b);
    cbn [heap with_sent with_ctrl upd_worker with_workers];
    now rewrite upd_request_lookup.
Qed.

(** With a single worker over its limit the queue is left waiting. *)
Lemma serviceWorkerSelect_single_busy srv service mode b w worker a q :
  srv ≠ "" → w ≠ "" →
  Js.get srv (services b) = Some service →
  s_workers service = [w] →
  s_q service = a :: q →
  Js.get w (workers b) = Some worker →
  over_limit worker = true →
  mode = "load" ∨ mode = "rand" →
  ∃ r, serviceWorkerSelect E (Some srv) mode b =
         Ok (Some {| sws_service := Some srv; sws_workerId := None |})
            (with_ticks (n_clock b) r b).
Proof.
  intros Hsrv Hw Hs Hws Hq Hg Ho Hmode.
  destruct (_wsel_single E srv service mode b w Hws Hmode) as [r Hsel].
  exists r. unfold serviceWorkerSelect.
  rewrite bind_Ok with (a := service) (b' := b)
    by (unfold serviceRequire; simpl; now rewrite Hs).
  rewrite Hws, Hq. simpl. rewrite bind_Ok with (a := None) (b' := with_ticks (n_clock b) r b).
  - reflexivity.
  - rewrite Hsel. unfold _wval. rewrite truthy_Some by done. simpl. now rewrite Hg, Ho.
Qed.

Lemma room_0 limit held n :
  (limit >? -1)%Z && (Z.of_nat held >? limit)%Z = true → room limit held n = 0.
Proof.
  unfold room. destruct (Z.gtb_spec limit (-1)); simpl; [|done].
  destruct (Z.gtb_spec (Z.of_nat held) limit); [|done]. intros _.
  replace (Z.to_nat (limit + 1 - Z.of_nat held)) with 0 by lia. apply Nat.min_0_r.
Qed.

Lemma room_S limit held n :
  (limit >? -1)%Z && (Z.of_nat held >? limit)%Z = false →
  room limit held (S n) = S (room limit (S held) n).
Proof.
  unfold room. destruct (Z.gtb_spec limit (-1)); simpl; [|done].
  destruct (Z.gtb_spec (Z.of_nat held) limit); [done|]. intros _.
  replace (Z.to_nat (limit + 1 - Z.of_nat held))
    with (S (Z.to_nat (limit + 1 - Z.of_nat (S held)))) by lia.
  reflexivity.
Qed.

Lemma waiting_next b b2 rej k a' :
  (n_clock b2 = n_clock b ∨ n_clock b2 = S (n_clock b)) →
  (∀ req, heap b !! a' = Some req →
          ∃ att wid, heap b2 !! a' = Some (r_with_workerId wid (r_with_attempts att req))) →
  waiting E b rej (S k) a' → waiting E b2 rej k a'.
Proof.
  intros Hc Hh (req & Hr & Hrej & Ht).
  destruct (Hh req Hr) as (att & wid & Hr2).
  eexists. split; [exact Hr2|]. split; [exact Hrej|]. simpl.
  destruct Ht as [Ht|Ht]; [now left|right]. intros n Hn.
  destruct Hc as [-> | ->].
  - apply Ht. lia.
  - replace (S (n_clock b) + n) with (n_clock b + S n) by lia. apply Ht. lia.
Qed.

Lemma tabled_ext b b2 l :
  Forall (λ a, rid_at b2 a = rid_at b a) l → ∀ m, tabled b2 m l = tabled b m l.
Proof.
  induction 1 as [|a l Ha Hl IH]; intros m; [done|].
  unfold tabled in *. simpl. now rewrite Ha, IH.
Qed.

Lemma dispatch_loop_drains srv w :
  srv ≠ "" → w ≠ "" → Js.ends_with_star srv = false →
  ∀ q b service worker tryagain fuel,
    dmode (conf b) = "load" ∨ dmode (conf b) = "rand" →
    cache (conf b) = false →
    socket b = true →
    Js.get srv (services b) = Some service →
    s_workers service = [w] →
    s_q service = q →
    Js.get w (workers b) = Some worker →
    Forall (waiting E b (w_workerId worker) (length q)) q →
    ∃ b', dispatch_loop E
            (S (room (w_concurrency worker) (length (w_rids worker)) (length q)) + fuel)
            (Some srv) None tryagain b = Ok (None, tryagain) b'
          ∧ Js.get srv (services b')
            = Some (s_with_q
                      (drop (room (w_concurrency worker) (length (w_rids worker))
                               (length q)) q) service)
          ∧ Js.get w (workers b')
            = Some (w_with_rids
                      (w_rids worker
                       ++ (rid_at b <$>
                           take (room (w_concurrency worker) (length (w_rids worker))
                                   (length q)) q)) worker)
          ∧ sent b'
            = sent b
              ++ (frame_at b worker <$>
                  take (room (w_concurrency worker) (length (w_rids worker)) (length q)) q)
          ∧ pending b' = pending b
          ∧ rmap b'
            = tabled b (rmap b)
                (take (room (w_concurrency worker) (length (w_rids worker)) (length q)) q).
Proof.
  intros Hsrv Hw Hstar q.
  induction q as [|a q IH]; intros b service worker tryagain fuel Hcm Hc Hsock Hs Hws Hq Hg Hall.
  - exists b. split; [|repeat split].
    + assert (room (w_concurrency worker) (length (w_rids worker)) (length (@nil nat)) = 0)
        as -> by (unfold room; simpl; now destruct (_ >? _)%Z).
      cbn [dispatch_loop Nat.add]. rewrite bind_gets. cbn [Js.truthy].
      now rewrite (bind_Ok _ _ _ _ _ (serviceWorkerSelect_idle E srv _ _ b Hstar Hs Hq)).
    + rewrite Hs, drop_nil. f_equal. destruct service. simpl in Hq. now subst.
    + rewrite Hg, take_nil. simpl. rewrite app_nil_r. f_equal. now destruct worker.
    + now rewrite take_nil, app_nil_r.
    + now rewrite take_nil.
  - destruct (over_limit worker) eqn:Ho.
    + pose proof Ho as Ho'. unfold over_limit in Ho'.
      rewrite (room_0 _ _ _ Ho').
      destruct (serviceWorkerSelect_single_busy srv service (dmode (conf b)) b w worker a q
                  Hsrv Hw Hs Hws Hq Hg Ho Hcm) as [r Hsel].
      exists (with_ticks (n_clock b) r b). split; [|repeat split].
      * cbn [dispatch_loop Nat.add]. rewrite bind_gets. cbn [Js.truthy].
        rewrite (bind_Ok _ _ _ _ _ Hsel). cbn [sws_service sws_workerId].
        rewrite truthy_Some by done. reflexivity.
      * cbn [services with_ticks]. rewrite Hs. simpl. f_equal.
        destruct service. simpl in Hq. now subst.
      * cbn [workers with_ticks]. rewrite Hg. simpl. rewrite app_nil_r. f_equal.
        now destruct worker.
      * simpl. now rewrite app_nil_r.
    + pose proof Ho as Ho'. unfold over_limit in Ho'.
      cbn [length]. rewrite (room_S _ _ _ Ho').
      destruct (serviceWorkerSelect_single E srv service (dmode (conf b)) b w worker a q
                  Hsrv Hw Hs Hws Hq Hg Ho Hcm) as [r Hsel].
      set (b0 := with_ticks (n_clock b) r b) in *.
      apply Forall_cons in Hall as [(req & Hh & Hrej & Ht) Hall].
      destruct (_rhandle_assigned srv w a q b0 service worker req) as (c & Hc' & Hh2);
        try done.
      { destruct Ht as [Ht|Ht]; [now left|right].
        specialize (Ht 0). rewrite Nat.add_0_r in Ht. apply Ht. simpl. lia. }
      { now left. }
      set (req' := r_with_attempts (r_attempts req + 1) req) in *.
      set (b1 := with_ticks c (n_random b0)
                   (upd_request (λ r0, r_with_attempts (r_attempts r0 + 1) r0) a
                      (upd_service (s_with_q q) srv b0))) in *.
      set (b2 := assigned w worker a req' b1) in *.
      destruct (assigned_rest w worker a req' b1)
        as (Hsv2 & Hrm2 & Hcf2 & _ & Hpe2 & Hso2 & Hck2 & _ & Hse2).
      assert (Hw2 : workers b2
                    = Js.upd w (λ w0, w_with_rids (w_rids w0 ++ [r_rid req']) w0) (workers b))
        by exact (assigned_worker w worker a req' b1 Hg).
      assert (Hheap : ∀ a' r1, heap b !! a' = Some r1 →
                 ∃ att wid, heap b2 !! a'
                            = Some (r_with_workerId wid (r_with_attempts att r1))).
      { intros a' r1 Hr1. unfold b2. rewrite assigned_heap.
        unfold b1. cbn [heap with_ticks]. rewrite upd_request_lookup.
        cbn [heap upd_service with_services b0 with_ticks]. rewrite Hr1.
        destruct (decide (a' = a)); simpl; [eauto|].
        exists (r_attempts r1), (r_workerId r1). now destruct r1. }
      set (worker' := w_with_rids (w_rids worker ++ [r_rid req']) worker).
      assert (Hcm2 : dmode (conf b2) = "load" ∨ dmode (conf b2) = "rand")
        by (unfold b2; now rewrite Hcf2).
      assert (Hc2 : cache (conf b2) = false) by (unfold b2; now rewrite Hcf2).
      assert (Hsock2 : socket b2 = true) by (unfold b2; now rewrite Hso2).
      assert (Hs2 : Js.get srv (services b2) = Some (s_with_q q service)).
      { unfold b2. rewrite Hsv2. cbn [services b1 with_ticks upd_request with_heap].
        now apply JsFacts.get_upd_eq. }
      assert (Hg2 : Js.get w (workers b2) = Some worker')
        by (rewrite Hw2; now rewrite (JsFacts.get_upd_eq _ _ _ _ Hg)).
      assert (Hall2 : Forall (waiting E b2 (w_workerId worker') (length q)) q).
      { eapply Forall_impl; [exact Hall|]. intros a' Ha'.
        apply (waiting_next b); [|now apply Hheap|exact Ha'].
        unfold b2. rewrite Hck2. cbn [n_clock b1 with_ticks]. exact Hc'. }
      destruct (IH b2 (s_with_q q service) worker' tryagain fuel Hcm2 Hc2 Hsock2 Hs2 Hws
                  eq_refl Hg2 Hall2)
        as (b' & Hloop & Hq' & Hr' & Hs' & Hp' & Hrm').
      assert (Hrid : ∀ a', is_Some (heap b !! a') → rid_at b2 a' = rid_at b a').
      { intros a' [r1 Hr1]. unfold rid_at. rewrite Hr1.
        now destruct (Hheap a' r1 Hr1) as (att & wid & ->). }
      assert (Hfr : ∀ a', is_Some (heap b !! a') →
                          frame_at b2 worker' a' = frame_at b worker a').
      { intros a' [r1 Hr1]. unfold frame_at. rewrite Hr1.
        now destruct (Hheap a' r1 Hr1) as (att & wid & ->). }
      assert (Hsome : Forall (λ a', is_Some (heap b !! a')) q).
      { eapply Forall_impl; [exact Hall|]. intros a' (r1 & Hr1 & _). eauto. }
      exists b'. split; [|repeat split].
      * cbn [dispatch_loop Nat.add]. rewrite bind_gets. cbn [Js.truthy].
        rewrite (bind_Ok _ _ _ _ _ Hsel). cbn [sws_service sws_workerId].
        rewrite !truthy_Some by done. cbn [negb orb].
        rewrite (bind_Ok _ _ _ _ _ Hh2). cbn [Z.eqb Z.ltb Z.compare].
        cbn [worker' w_rids w_with_rids w_concurrency] in Hloop.
        rewrite length_app in Hloop. simpl in Hloop.
        rewrite Nat.add_1_r in Hloop. exact Hloop.
      * rewrite Hq'. cbn [worker' w_rids w_with_rids w_concurrency].
        rewrite length_app. simpl. now rewrite Nat.add_1_r.
      * rewrite Hr'. cbn [worker' w_rids w_with_rids w_concurrency].
        rewrite length_app. simpl. rewrite Nat.add_1_r. f_equal.
        unfold w_with_rids. simpl. f_equal.
        rewrite <- app_assoc. f_equal. simpl. unfold rid_at at 2. rewrite Hh. f_equal.
        apply Forall_fmap_ext_1. eapply Forall_impl; [apply Forall_take, Hsome|]. apply Hrid.
      * rewrite Hs'. unfold b2. rewrite Hse2. cbn [socket b1 with_ticks upd_request with_heap upd_service
                                   with_services b0 sent].
        rewrite Hsock. cbn [worker' w_rids w_with_rids w_concurrency].
        rewrite length_app. simpl. rewrite Nat.add_1_r.
        rewrite <- app_assoc. f_equal. simpl. unfold frame_at at 2. rewrite Hh. f_equal.
        apply Forall_fmap_ext_1. eapply Forall_impl; [apply Forall_take, Hsome|]. apply Hfr.
      * rewrite Hp'. unfold b2. now rewrite Hpe2.
      * rewrite Hrm'. unfold b2 at 2. rewrite Hrm2.
        cbn [worker' w_rids w_with_rids w_concurrency].
        rewrite length_app. simpl. rewrite Nat.add_1_r.
        unfold tabled at 2. simpl. fold (tabled b). unfold rid_at at 2. rewrite Hh.
        apply tabled_ext. eapply Forall_impl; [apply Forall_take, Hsome|]. apply Hrid.
Qed.


(** X16: a reject puts the request back in the queue with the worker added
    to its rejects, and the dispatcher, run in the 'rand' mode, takes it
    from there.  When the rejecting worker is the only worker of the service
    and the attempts have not reached [rattempts], the request goes straight
    back to the worker that has rejected it. *)
Theorem rejected_request_returns_to_its_worker
        (fuel : nat) (b : Broker) (msg : Message) (srv : string)
        (service : Service) (worker : Worker) (a : nat) (req : Request) :
  frame msg 2 = Some MDP.W_REPLY_REJECT →
  srv ≠ "" → identity msg ≠ "" →
  Js.ends_with_star srv = false →
  cache (conf b) = false →
  Js.get (identity msg) (workers b) = Some worker →
  w_service worker = Some srv →
  frame msg 5 ∈ w_rids worker →
  over_limit (w_with_rids (pull (frame msg 5) (w_rids worker)) worker) = false →
  rmap b !! Js.key (frame msg 5) = Some a →
  heap b !! a = Some req →
  r_service req = srv →
  Js.get srv (services b) = Some service →
  s_workers service = [identity msg] →
  s_q service = [] →
  (r_timeout req <= -1 ∨ clock E (n_clock b) <= r_ts req + r_timeout req)%Q →
  (r_attempts req + 1 < rattempts (conf b))%Z →
  ∃ b', onWorker E (S (S fuel)) msg b = Ok tt b'
        ∧ heap b' !! a
          = Some (r_with_workerId (Some (w_workerId worker))
                    (r_with_attempts (r_attempts req + 1)
                       (r_with_rejects (r_rejects req ++ [identity msg]) req)))
        ∧ w_rids <$> Js.get (identity msg) (workers b')
          = Some (pull (frame msg 5) (w_rids worker) ++ [r_rid req])
        ∧ queue_of srv b' = []
        ∧ pending b' = pending b.
Proof.
  intros Ht Hsrv Hw Hstar Hc Hg Hws Hin Ho Hr Hh Hrs Hs Hsw Hq Htime Hatt.
  set (w := identity msg) in *. set (rid := frame msg 5) in *.
  set (worker0 := w_with_rids (pull rid (w_rids worker))
                    (w_with_liveness HEARTBEAT_LIVENESS worker)).
  set (req0 := r_with_workerId None (r_with_rejects (r_rejects req ++ [w]) req)).
  set (b0 := upd_service (λ s, s_with_q (s_q s ++ [a]) s) (r_service req)
               (upd_worker (λ w0, w_with_rids (pull rid (w_rids w0)) w0) w
                  (upd_request (r_with_workerId None) a
                     (upd_request (λ r, r_with_rejects (r_rejects r ++ [w]) r) a
                        (upd_worker (w_with_liveness HEARTBEAT_LIVENESS) w b))))).
  assert (Heq : onWorker E (S (S fuel)) msg b
                = dispatch E (S (S fuel)) (Some srv) (Some "rand") b0).
  { unfold onWorker. fold w. rewrite bind_gets. unfold Js.has. rewrite Hg.
    rewrite (bind_Ok _ _ b worker b) by (unfold workerRequire; now rewrite Hg).
    rewrite Ht. eval_eqs. cbn [negb orb andb].
    rewrite bind_modify, bind_gets.
    replace (Js.get w (workers (upd_worker (w_with_liveness HEARTBEAT_LIVENESS) w b)))
      with (Some (w_with_liveness HEARTBEAT_LIVENESS worker))
      by (symmetry; now apply JsFacts.get_upd_eq).
    cbn [negb orb andb w_rids w_with_liveness]. fold rid.
    unfold absent. rewrite (bool_decide_eq_true_2 _ Hin). cbn [negb].
    rewrite bind_gets. cbn [rmap upd_worker with_workers]. rewrite Hr.
    rewrite bind_gets. cbn [mbind option_bind heap upd_worker with_workers]. rewrite Hh.
    rewrite bind_Ok with (a := service)
      (b' := upd_worker (w_with_liveness HEARTBEAT_LIVENESS) w b)
      by (unfold serviceRequire; rewrite key_Some, Hrs; simpl; now rewrite Hs).
    rewrite !bind_modify. cbn [w_service w_with_liveness]. now rewrite Hws. }
  assert (Hs0 : Js.get srv (services b0) = Some (s_with_q [a] service)).
  { unfold b0. rewrite Hrs. cbn [services upd_service with_services upd_worker with_workers
                                     upd_request with_heap].
    rewrite (JsFacts.get_upd_eq _ _ _ _ Hs). now rewrite Hq. }
  assert (Hg0 : Js.get w (workers b0) = Some worker0).
  { unfold b0. cbn [workers upd_service with_services upd_worker with_workers
                           upd_request with_heap].
    rewrite (JsFacts.get_upd_eq _ _ _ (w_with_liveness HEARTBEAT_LIVENESS worker));
      [done|]. now apply JsFacts.get_upd_eq. }
  assert (Hh0 : heap b0 !! a = Some req0).
  { unfold b0. cbn [heap upd_service with_services upd_worker with_workers].
    rewrite !upd_request_lookup. cbn [heap upd_worker with_workers].
    rewrite !decide_True by done. rewrite Hh. reflexivity. }
  destruct (serviceWorkerSelect_single E srv (s_with_q [a] service) "rand" b0 w worker0 a []
              Hsrv Hw Hs0 Hsw eq_refl Hg0 Ho) as [r Hsel]; [now right|].
  destruct (_rhandle_assigned srv w a [] (with_ticks (n_clock b0) r b0)
              (s_with_q [a] service) worker0 req0) as (c & _ & Hh2); try done.
  { right. exact Hatt. }
  set (b2 := assigned w worker0 a (r_with_attempts (r_attempts req0 + 1) req0) _) in Hh2.
  destruct (assigned_rest w worker0 a (r_with_attempts (r_attempts req0 + 1) req0)
              (with_ticks c (n_random (with_ticks (n_clock b0) r b0))
                 (upd_request (λ r0, r_with_attempts (r_attempts r0 + 1) r0) a
                    (upd_service (s_with_q []) srv (with_ticks (n_clock b0) r b0)))))
    as (Hsv2 & _ & _ & _ & Hpe2 & _).
  fold b2 in Hsv2, Hpe2.
  assert (Hs2 : Js.get srv (services b2) = Some (s_with_q [] (s_with_q [a] service))).
  { rewrite Hsv2. cbn [services with_ticks upd_request with_heap].
    now apply JsFacts.get_upd_eq. }
  exists b2. split; [|repeat split].
  - rewrite Heq. unfold dispatch.
    rewrite bind_Ok with (a := (Some "rand", 0)) (b' := b2); [reflexivity|].
    cbn [dispatch_loop]. rewrite bind_gets.
    change (if Js.truthy (Some "rand") then Js.key (Some "rand") else dmode (conf b0))
      with "rand".
    rewrite (bind_Ok _ _ _ _ _ Hsel).
    cbn [sws_service sws_workerId]. rewrite !truthy_Some by done. cbn [negb orb].
    rewrite (bind_Ok _ _ _ _ _ Hh2). cbn [Z.eqb Z.ltb Z.compare].
    rewrite bind_gets.
    now rewrite (bind_Ok _ _ _ _ _
                   (serviceWorkerSelect_idle E srv _ _ b2 Hstar Hs2 eq_refl)).
  - unfold b2. rewrite assigned_heap, decide_True by done.
    cbn [heap with_ticks]. rewrite upd_request_lookup, decide_True by done.
    cbn [heap upd_service with_services with_ticks]. rewrite Hh0. reflexivity.
  - unfold b2. rewrite assigned_worker by exact Hg0.
    cbn [workers with_ticks upd_request with_heap upd_service with_services].
    now rewrite (JsFacts.get_upd_eq _ _ _ _ Hg0).
  - unfold queue_of. now rewrite Hs2.
  - rewrite Hpe2. reflexivity.
Qed.

End Drain.

(** ** The enumeration of a table *)

Module OwnKeys.
Import Js.

Section Keys.
Context {V : Type}.
Implicit Types (o : list (string * V)) (k : string).

Lemma insert_index_perm n (kv : string * V) l : insert_index n kv l ≡ₚ (n, kv) :: l.
Proof.
  induction l as [|[m kv'] l IH]; simpl; [done|].
  destruct (n <? m)%N; [done|]. rewrite IH. apply Permutation_swap.
Qed.

Lemma own_entries_perm o : own_entries o ≡ₚ o.
Proof.
  unfold own_entries.
  induction o as [|kv o IH]; simpl; [done|].
  destruct (split_keys o) as [ix nm]. destruct (array_index kv.1).
  - rewrite insert_index_perm. simpl. now rewrite IH.
  - rewrite <- Permutation_middle. now rewrite IH.
Qed.

Lemma own_keys_perm o : own_keys o ≡ₚ o.*1.
Proof. unfold own_keys. now rewrite own_entries_perm. Qed.

Lemma get_None_keys k o : get k o = None ↔ k ∉ o.*1.
Proof.
  induction o as [|[k' v] o IH]; simpl.
  - split; [intros _; apply not_elem_of_nil|done].
  - rewrite not_elem_of_cons, <- IH.
    destruct (String.eqb_spec k k'); split; intros; try done; tauto.
Qed.

End Keys.
End OwnKeys.

(** ** The liveness check *)

Section Liveness.

Variable E : Env.

Lemma without_worker_sent workerId worker b :
  socket b = true →
  sent (without_worker workerId true worker b) = sent b ++ [disconnect_frame workerId]
  ∧ socket (without_worker workerId true worker b) = true.
Proof.
  intros Hs. unfold without_worker, serviceRequire. rewrite Hs.
  destruct (Js.truthy (w_service worker)); simpl;
    try destruct (Js.get (Js.key (w_service worker)) (services b)); done.
Qed.

Lemma workersCheck_worker_aged fuel workerId worker b :
  Js.get workerId (workers b) = Some worker →
  (1 <= w_liveness worker)%Z ∨ w_rids worker = [] →
  socket b = true →
  ∃ b', workersCheck_worker E fuel workerId b = Ok tt b'
        ∧ Js.get workerId (workers b') = aged worker
        ∧ (∀ k, k ≠ workerId → Js.get k (workers b') = Js.get k (workers b))
        ∧ sent b' = sent b ++ [check_frame b workerId]
        ∧ rmap b' = rmap b ∧ heap b' = heap b ∧ pending b' = pending b
        ∧ socket b' = true.
Proof.
  intros Hg Hcase Hs.
  set (b1 := upd_worker (w_with_liveness (w_liveness worker - 1)) workerId b).
  assert (Hg1 : Js.get workerId (workers b1)
                = Some (w_with_liveness (w_liveness worker - 1) worker))
    by (now apply JsFacts.get_upd_eq).
  unfold workersCheck_worker. rewrite bind_gets, Hg, bind_modify. fold b1.
  unfold check_frame, aged. rewrite Hg. cbn [mbind option_bind].
  destruct (Z.ltb_spec (w_liveness worker - 1) 0) as [Hlt|Hge].
  - destruct Hcase as [Hc|Hrids]; [lia|].
    rewrite workerDelete_registered
      with (worker := w_with_liveness (w_liveness worker - 1) worker) by exact Hg1.
    cbn [w_rids w_with_liveness]. rewrite Hrids. simpl each.
    eexists. split; [reflexivity|].
    destruct (without_worker_rest workerId true
                (w_with_liveness (w_liveness worker - 1) worker) b1) as (Hrm & Hhp & _ & Hp).
    rewrite Hrm, Hhp, Hp.
    rewrite (proj1 (without_worker_workers _ _ _ _)).
    repeat split.
    + apply JsFacts.get_del_eq.
    + intros k Hk. rewrite JsFacts.get_del_ne by done.
      cbn [workers b1 upd_worker with_workers]. now rewrite JsFacts.get_upd_ne.
    + now apply (without_worker_sent workerId _ b1).
    + now apply (without_worker_sent workerId _ b1).
  - unfold send, modify. cbn [socket b1 upd_worker with_workers]. rewrite Hs.
    eexists. split; [reflexivity|]. repeat split; try done.
    intros k Hk. cbn [workers with_sent b1 upd_worker with_workers].
    now rewrite JsFacts.get_upd_ne.
Qed.

Lemma each_workersCheck_worker fuel ids :
  ∀ b,
    NoDup ids →
    socket b = true →
    (∀ id, id ∈ ids →
           ∃ worker, Js.get id (workers b) = Some worker
                     ∧ ((1 <= w_liveness worker)%Z ∨ w_rids worker = [])) →
    ∃ b', each (workersCheck_worker E fuel) ids b = Ok tt b'
          ∧ (∀ w, Js.get w (workers b')
                  = if decide (w ∈ ids) then Js.get w (workers b) ≫= aged
                    else Js.get w (workers b))
          ∧ sent b' = sent b ++ (check_frame b <$> ids)
          ∧ rmap b' = rmap b ∧ heap b' = heap b ∧ pending b' = pending b.
Proof.
  induction ids as [|id ids IH]; intros b Hnd Hs Hall.
  - exists b. split; [done|]. repeat split; try done;
      try (simpl; now rewrite app_nil_r).
    all: intros w; rewrite decide_False; [done|apply not_elem_of_nil].
  - apply NoDup_cons in Hnd as [Hnin Hnd].
    destruct (Hall id) as (worker & Hg & Hcase); [apply list_elem_of_here|].
    destruct (workersCheck_worker_aged fuel id worker b Hg Hcase Hs)
      as (b1 & Hstep & Hg1 & Hother & Hsent1 & Hrm1 & Hh1 & Hp1 & Hs1).
    destruct (IH b1 Hnd Hs1) as (b' & Heach & Hw' & Hsent' & Hrm' & Hh' & Hp').
    { intros id' Hin. destruct (Hall id') as (worker' & Hg' & Hcase'); [now right|].
      exists worker'. split; [|done]. rewrite Hother; [done|]. now intros ->. }
    exists b'. split; [|repeat split].
    + simpl. now rewrite (bind_Ok _ _ _ _ _ Hstep).
    + intros w. rewrite Hw'.
      destruct (decide (w = id)) as [->|Hne].
      * rewrite decide_False by done. rewrite decide_True by apply list_elem_of_here.
        now rewrite Hg1, Hg.
      * rewrite Hother by done.
        destruct (decide (w ∈ ids)) as [Hin|Hnin'].
        -- now rewrite decide_True by now right.
        -- rewrite decide_False; [done|]. rewrite not_elem_of_cons. tauto.
    + rewrite Hsent', Hsent1, <- app_assoc. f_equal. simpl. f_equal.
      apply Forall_fmap_ext_1, Forall_forall. intros id' Hin.
      unfold check_frame. rewrite Hother; [done|]. now intros ->.
    + congruence.
    + congruence.
    + congruence.
Qed.

(** X17: the liveness check.  Within a heartbeat interval of its last run
    it does nothing.  When it is due, and every worker that is due to be
    purged holds no request, it takes one unit of liveness from every
    worker, deletes the workers whose liveness falls below zero, and sends
    each worker, in enumeration order, a heartbeat or, when it is deleted, a
    DISCONNECT; requests and deferred work are not touched. *)
Theorem workersCheck_ages_the_workers (fuel : nat) (b : Broker) :
  (∀ last, _wcheck b = Some last → last ≠ 0%Z →
           (clock E (n_clock b) - last < heartbeat (conf b))%Z →
           workersCheck E fuel b = Ok tt (tick_clock b))
  ∧ (check_due E b →
     NoDup (workers b).*1 →
     socket b = true →
     (∀ w worker, Js.get w (workers b) = Some worker →
                  (1 <= w_liveness worker)%Z ∨ w_rids worker = []) →
     ∃ b', workersCheck E fuel b = Ok tt b'
           ∧ (∀ w, Js.get w (workers b') = Js.get w (workers b) ≫= aged)
           ∧ sent b' = sent b ++ (check_frame b <$> Js.own_keys (workers b))
           ∧ rmap b' = rmap b ∧ heap b' = heap b ∧ pending b' = pending b).
Proof.
  split.
  - intros last Hl Hne Hlt. unfold workersCheck. rewrite bind_gets, Hl.
    assert (truthyZ (Some last) = true) as ->
      by (simpl; now apply negb_true_iff, Z.eqb_neq).
    unfold bind, getTime, gets, ret. cbn [conf tick_clock default]. unfold id.
    now destruct (Z.ltb_spec (clock E (n_clock b) - last) (heartbeat (conf b))); [|lia].
  - intros Hdue Hnd Hs Hall.
    assert (Hrun : ∃ b1, workersCheck E fuel b
                         = each (workersCheck_worker E fuel) (Js.own_keys (workers b)) b1
                         ∧ workers b1 = workers b ∧ sent b1 = sent b ∧ rmap b1 = rmap b
                         ∧ heap b1 = heap b ∧ pending b1 = pending b
                         ∧ socket b1 = socket b).
    { unfold workersCheck, check_due in *. rewrite bind_gets.
      destruct (_wcheck b) as [last|]; [destruct (Z.eqb_spec last 0) as [->|Hne]|].
      - eexists. split; [reflexivity|]. repeat split.
      - destruct Hdue as [Hdue|Hdue]; [done|].
        assert (truthyZ (Some last) = true) as ->
          by (simpl; now apply negb_true_iff, Z.eqb_neq).
        unfold bind at 1. unfold bind at 1. unfold getTime at 1. unfold bind at 1.
        unfold gets at 1, ret at 1. cbn [conf tick_clock default]. unfold id.
        destruct (Z.ltb_spec (clock E (n_clock b) - last) (heartbeat (conf b))); [lia|].
        eexists. split; [reflexivity|]. repeat split.
      - eexists. split; [reflexivity|]. repeat split. }
    destruct Hrun as (b1 & -> & Hw1 & Hse1 & Hrm1 & Hh1 & Hp1 & Hs1).
    destruct (each_workersCheck_worker fuel (Js.own_keys (workers b)) b1)
      as (b' & Heach & Hw' & Hsent' & Hrm' & Hh' & Hp').
    { rewrite OwnKeys.own_keys_perm. exact Hnd. }
    { congruence. }
    { intros id Hin. rewrite OwnKeys.own_keys_perm in Hin. rewrite Hw1.
      destruct (Js.get id (workers b)) as [worker|] eqn:Hg.
      - exists worker. split; [done|]. now apply (Hall id).
      - apply OwnKeys.get_None_keys in Hg. done. }
    exists b'. split; [exact Heach|]. repeat split; try congruence.
    + intros w. rewrite Hw', Hw1.
      destruct (decide (w ∈ Js.own_keys (workers b))) as [Hin|Hnin]; [done|].
      rewrite OwnKeys.own_keys_perm in Hnin. apply OwnKeys.get_None_keys in Hnin.
      now rewrite Hnin.
    + rewrite Hsent', Hse1. f_equal.
      apply Forall_fmap_ext_1, Forall_forall. intros id _.
      unfold check_frame. now rewrite Hw1.
Qed.

End Liveness.

(** ** The registries fit together *)

Module TableFacts.
Import Js.

Section Table.
Context {V : Type}.
Implicit Types (o : list (string * V)) (k : string).

Lemma keys_set k v o :
  (set k v o).*1 = match get k o with Some _ => o.*1 | None => o.*1 ++ [k] end.
Proof.
  induction o as [|[k' v'] o IH]; [done|]. cbn [get set].
  destruct (String.eqb_spec k k') as [->|Hne]; [done|].
  rewrite !fmap_cons, IH. now destruct (get k o).
Qed.

Lemma keys_upd k f o : (upd k f o).*1 = o.*1.
Proof. unfold upd. destruct (get k o) eqn:Hg; [|done]. now rewrite keys_set, Hg. Qed.

Lemma get_Some_elem_of k v o : get k o = Some v → (k, v) ∈ o.
Proof.
  induction o as [|[k' v'] o IH]; simpl; [done|].
  destruct (String.eqb_spec k k') as [->|Hne].
  - intros [= ->]. apply list_elem_of_here.
  - intros H. right. auto.
Qed.

Lemma get_None_not_elem_of k o : get k o = None → k ∉ o.*1.
Proof.
  induction o as [|[k' v'] o IH]; simpl; [intros _; apply not_elem_of_nil|].
  destruct (String.eqb_spec k k') as [->|Hne]; [done|].
  intros H. apply not_elem_of_cons. split; [done|auto].
Qed.

Lemma elem_of_get k v o : NoDup o.*1 → (k, v) ∈ o → get k o = Some v.
Proof.
  induction o as [|[k' v'] o IH]; simpl; [intros _ H; by apply elem_of_nil in H|].
  intros Hnd Hin. apply NoDup_cons in Hnd as [Hnin Hnd].
  apply elem_of_cons in Hin as [[= -> ->]|Hin].
  - now rewrite String.eqb_refl.
  - destruct (String.eqb_spec k k') as [->|Hne]; [|auto].
    exfalso. apply Hnin. apply list_elem_of_fmap. now exists (k', v).
Qed.

Lemma NoDup_keys_set k v o : NoDup o.*1 → NoDup (set k v o).*1.
Proof.
  intros Hnd. rewrite keys_set. destruct (get k o) eqn:Hg; [done|].
  apply NoDup_app. split; [done|]. split; [|apply NoDup_singleton].
  intros x Hx Hx'. apply list_elem_of_singleton in Hx'. subst x.
  now apply get_None_not_elem_of in Hg.
Qed.

End Table.
End TableFacts.

Section Updates.

Context (svs : list (string * Service)) (wks : list (string * Worker))
        (rm : gmap string nat) (hl : nat) (pe : list Task) (no : nat).
Hypothesis H : WF svs wks rm hl pe no.

Lemma task_ok_mono (hl' no' : nat) t :
  (hl <= hl')%nat → (no <= no')%nat → task_ok wks hl no t → task_ok wks hl' no' t.
Proof.
  intros Hh Hn. destruct t as [srv mode|a wk worker]; simpl; [done|].
  intros (Ha & Ho & Hw). repeat split; [lia|lia|done].
Qed.

Lemma WF_heap (hl' : nat) : (hl <= hl')%nat → WF svs wks rm hl' pe no.
Proof.
  intros Hh. destruct H. split; try done.
  - intros k s a Hs Ha. specialize (wf_queued0 k s a Hs Ha). lia.
  - intros k a Hk. specialize (wf_rmap0 k a Hk). lia.
  - intros t Ht. eapply task_ok_mono; [exact Hh|reflexivity|auto].
Qed.

Lemma WF_rmap rm' : (∀ k a, rm' !! k = Some a → a < hl) → WF svs wks rm' hl pe no.
Proof. intros Hr. destruct H. now split. Qed.

Lemma WF_pending pe' :
  (∀ t, t ∈ pe' → t ∈ pe ∨ task_ok wks hl no t) → WF svs wks rm hl pe' no.
Proof.
  intros Hp. destruct H. split; try done.
  intros t Ht. destruct (Hp t Ht); auto.
Qed.

Lemma WF_service_new srvName :
  WF (Js.set (Js.key srvName) (new_service srvName) svs) wks rm hl pe no.
Proof.
  destruct H. split; try done.
  - now apply TableFacts.NoDup_keys_set.
  - intros k s w. destruct (decide (k = Js.key srvName)) as [->|Hne].
    + rewrite JsFacts.get_set_eq. intros [= <-]. simpl. intros Hin.
      by apply elem_of_nil in Hin.
    + rewrite JsFacts.get_set_ne by done. apply wf_listed0.
  - intros k s a. destruct (decide (k = Js.key srvName)) as [->|Hne].
    + rewrite JsFacts.get_set_eq. intros [= <-]. simpl. intros Hin.
      by apply elem_of_nil in Hin.
    + rewrite JsFacts.get_set_ne by done. apply wf_queued0.
Qed.

Lemma WF_upd_service k f :
  (∀ s, Js.get k svs = Some s →
        (∀ w, w ∈ s_workers (f s) → w ∈ s_workers s)
        ∧ (∀ a, a ∈ s_q (f s) → a ∈ s_q s ∨ a < hl)) →
  WF (Js.upd k f svs) wks rm hl pe no.
Proof.
  intros Hf. destruct H. split; try done.
  - now rewrite TableFacts.keys_upd.
  - intros k' s' w. rewrite JsFacts.get_upd.
    destruct (String.eqb_spec k' k) as [->|Hne]; [|apply wf_listed0].
    destruct (Js.get k svs) as [s|] eqn:Hs; [|done]. intros [= <-] Hin.
    apply (wf_listed0 k s w Hs). now apply (Hf s).
  - intros k' s' a. rewrite JsFacts.get_upd.
    destruct (String.eqb_spec k' k) as [->|Hne]; [|apply wf_queued0].
    destruct (Js.get k svs) as [s|] eqn:Hs; [|done]. intros [= <-] Hin.
    destruct (proj2 (Hf s eq_refl) a Hin) as [Hq|Hlt]; [|done].
    now apply (wf_queued0 k s a Hs).
Qed.

Lemma WF_upd_worker w f :
  (∀ wr, Js.get w wks = Some wr →
         w_service (f wr) = w_service wr ∧ w_oid (f wr) = w_oid wr
         ∧ (w_rids (f wr) ≠ [] →
            w_rids wr ≠ [] ∨ ∃ k, w_service wr = Some k ∧ k ≠ "")) →
  WF svs (Js.upd w f wks) rm hl pe no.
Proof.
  intros Hf. destruct H. split; try done.
  - intros k s w' Hs Hin. destruct (wf_listed0 k s w' Hs Hin) as (Hk & wr & Hg & Hsv).
    split; [done|]. rewrite JsFacts.get_upd, Hg.
    destruct (String.eqb_spec w' w) as [->|Hne]; simpl; [|eauto].
    exists (f wr). split; [done|]. now rewrite (proj1 (Hf wr Hg)).
  - intros w' wr'. rewrite JsFacts.get_upd.
    destruct (String.eqb_spec w' w) as [->|Hne]; [|apply wf_rids0].
    destruct (Js.get w wks) as [wr|] eqn:Hg; [|done]. intros [= <-] Hr.
    destruct (Hf wr eq_refl) as (Hsv & _ & Hrids). rewrite Hsv.
    destruct (Hrids Hr) as [Hr'|Hk]; [|done]. now apply (wf_rids0 w wr).
  - intros w' wr'. rewrite JsFacts.get_upd.
    destruct (String.eqb_spec w' w) as [->|Hne]; [|apply wf_oid0].
    destruct (Js.get w wks) as [wr|] eqn:Hg; [|done]. intros [= <-].
    rewrite (proj1 (proj2 (Hf wr eq_refl))). now apply (wf_oid0 w wr).
  - intros t Ht. specialize (wf_pending0 t Ht).
    destruct t as [srv mode|a wk worker]; simpl in *; [done|].
    destruct wf_pending0 as (Ha & Ho & Hw). repeat split; [done..|].
    intros w'. rewrite JsFacts.get_upd.
    destruct (String.eqb_spec wk w) as [->|Hne]; [|apply Hw].
    destruct (Js.get w wks) as [wr|] eqn:Hg; [|done]. intros [= <-] Hoid.
    destruct (Hf wr eq_refl) as (Hsv & Hov & _). rewrite Hsv.
    apply (Hw wr eq_refl). congruence.
Qed.

Lemma WF_worker_new w :
  Js.get w wks = None →
  WF svs (Js.set w (new_worker w no) wks) rm hl pe (S no).
Proof.
  intros Hnone. destruct H. split; try done.
  - intros k s w' Hs Hin. destruct (wf_listed0 k s w' Hs Hin) as (Hk & wr & Hg & Hsv).
    split; [done|]. exists wr. split; [|done].
    rewrite JsFacts.get_set_ne; [done|]. intros ->. congruence.
  - intros w' wr'. destruct (decide (w' = w)) as [->|Hne].
    + rewrite JsFacts.get_set_eq. now intros [= <-].
    + rewrite JsFacts.get_set_ne by done. apply wf_rids0.
  - intros w' wr'. destruct (decide (w' = w)) as [->|Hne].
    + rewrite JsFacts.get_set_eq. intros [= <-]. simpl. lia.
    + rewrite JsFacts.get_set_ne by done. intros Hg.
      specialize (wf_oid0 w' wr' Hg). lia.
  - intros t Ht. specialize (wf_pending0 t Ht).
    destruct t as [srv mode|a wk worker]; simpl in *; [done|].
    destruct wf_pending0 as (Ha & Ho & Hw). repeat split; [done|lia|].
    intros w'. destruct (decide (wk = w)) as [->|Hne].
    + rewrite JsFacts.get_set_eq. intros [= <-]. simpl. lia.
    + rewrite JsFacts.get_set_ne by done. apply Hw.
Qed.

Lemma WF_worker_del w :
  (∀ k s, Js.get k svs = Some s → w ∉ s_workers s) →
  WF svs (Js.del w wks) rm hl pe no.
Proof.
  intros Hnl. destruct H. split; try done.
  - intros k s w' Hs Hin. destruct (wf_listed0 k s w' Hs Hin) as (Hk & wr & Hg & Hsv).
    split; [done|]. exists wr. split; [|done].
    rewrite JsFacts.get_del_ne; [done|]. intros ->. now apply (Hnl k s).
  - intros w' wr'. destruct (decide (w' = w)) as [->|Hne].
    + now rewrite JsFacts.get_del_eq.
    + rewrite JsFacts.get_del_ne by done. apply wf_rids0.
  - intros w' wr'. destruct (decide (w' = w)) as [->|Hne].
    + now rewrite JsFacts.get_del_eq.
    + rewrite JsFacts.get_del_ne by done. apply wf_oid0.
  - intros t Ht. specialize (wf_pending0 t Ht).
    destruct t as [srv mode|a wk worker]; simpl in *; [done|].
    destruct wf_pending0 as (Ha & Ho & Hw). repeat split; [done..|].
    intros w'. destruct (decide (wk = w)) as [->|Hne].
    + now rewrite JsFacts.get_del_eq.
    + rewrite JsFacts.get_del_ne by done. apply Hw.
Qed.

(** A worker that belongs to no service cannot be on a list. *)
Lemma WF_not_listed w worker :
  Js.get w wks = Some worker →
  Js.truthy (w_service worker) = false →
  ∀ k s, Js.get k svs = Some s → w ∉ s_workers s.
Proof.
  intros Hg Hf k s Hs Hin.
  destruct (wf_listed _ _ _ _ _ _ H k s w Hs Hin) as (Hk & wr & Hg' & Hsv).
  rewrite Hg in Hg'. injection Hg' as <-. rewrite Hsv in Hf.
  now rewrite truthy_Some in Hf.
Qed.

Lemma WF_unregistered w :
  Js.get w wks = None → ∀ k s, Js.get k svs = Some s → w ∉ s_workers s.
Proof.
  intros Hg k s Hs Hin.
  destruct (wf_listed _ _ _ _ _ _ H k s w Hs Hin) as (_ & wr & Hg' & _). congruence.
Qed.

Lemma WF_list_worker k w worker :
  k ≠ "" →
  Js.get w wks = Some worker →
  w_service worker = None →
  WF (Js.upd k (λ s, s_with_workers (s_workers s ++ [w]) s) svs)
     (Js.upd w (w_with_service (Some k)) wks) rm hl pe no.
Proof.
  intros Hk Hg Hnone.
  assert (Hnl : ∀ k' s, Js.get k' svs = Some s → w ∉ s_workers s).
  { apply (WF_not_listed w worker Hg). now rewrite Hnone. }
  destruct H. split; try done.
  - now rewrite TableFacts.keys_upd.
  - intros k' s' w'. rewrite JsFacts.get_upd.
    assert (Hold : ∀ s, Js.get k' svs = Some s → w' ∈ s_workers s →
                        k' ≠ "" ∧ ∃ wr, Js.get w' (Js.upd w (w_with_service (Some k)) wks)
                                          = Some wr ∧ w_service wr = Some k').
    { intros s Hs Hin. destruct (wf_listed0 k' s w' Hs Hin) as (Hk' & wr & Hg' & Hsv).
      split; [done|]. exists wr. split; [|done].
      rewrite JsFacts.get_upd_ne; [done|]. intros ->. now apply (Hnl k' s). }
    destruct (String.eqb_spec k' k) as [->|Hne]; [|apply Hold].
    destruct (Js.get k svs) as [s|] eqn:Hs; [|done]. intros [= <-]. simpl.
    rewrite elem_of_app, list_elem_of_singleton. intros [Hin| ->]; [now apply (Hold s)|].
    split; [done|]. rewrite (JsFacts.get_upd_eq _ _ _ _ Hg). eauto.
  - intros k' s' a. rewrite JsFacts.get_upd.
    destruct (String.eqb_spec k' k) as [->|Hne]; [|apply wf_queued0].
    destruct (Js.get k svs) as [s|] eqn:Hs; [|done]. intros [= <-]. simpl.
    now apply (wf_queued0 k s).
  - intros w' wr'. rewrite JsFacts.get_upd.
    destruct (String.eqb_spec w' w) as [->|Hne]; [|apply wf_rids0].
    rewrite Hg. intros [= <-] _. simpl. eauto.
  - intros w' wr'. rewrite JsFacts.get_upd.
    destruct (String.eqb_spec w' w) as [->|Hne]; [|apply wf_oid0].
    rewrite Hg. intros [= <-]. simpl. now apply (wf_oid0 w worker).
  - intros t Ht. specialize (wf_pending0 t Ht).
    destruct t as [srv mode|a wk wkr]; simpl in *; [done|].
    destruct wf_pending0 as (Ha & Ho & Hw). repeat split; [done..|].
    intros w'. rewrite JsFacts.get_upd.
    destruct (String.eqb_spec wk w) as [->|Hne]; [|apply Hw].
    rewrite Hg. intros [= <-] _. simpl. eauto.
Qed.

End Updates.

(** The same facts for the updates of the broker. *)
Section BrokerUpdates.

Implicit Types b : Broker.

Lemma wf_same b b' :
  well_formed b →
  services b' = services b → workers b' = workers b → rmap b' = rmap b →
  length (heap b') = length (heap b) → pending b' = pending b → n_oid b' = n_oid b →
  well_formed b'.
Proof. unfold well_formed. now intros H -> -> -> -> -> ->. Qed.

Lemma length_upd_request f a b : length (heap (upd_request f a b)) = length (heap b).
Proof.
  unfold upd_request. simpl. destruct (heap b !! a); [|done]. apply length_insert.
Qed.

Lemma wf_upd_request f a b : well_formed b → well_formed (upd_request f a b).
Proof. intros H. apply (wf_same b); try done. apply length_upd_request. Qed.

Lemma wf_send m b :
  well_formed b → well_formed (if socket b then with_sent (λ l, l ++ [m]) b else b).
Proof. intros H. now destruct (socket b). Qed.

Lemma wf_q_push a k b :
  well_formed b → a < length (heap b) →
  well_formed (upd_service (λ s, s_with_q (s_q s ++ [a]) s) k b).
Proof.
  intros H Ha. apply (WF_upd_service _ _ _ _ _ _ H). intros s _. split; [done|].
  simpl. intros a'. rewrite elem_of_app, list_elem_of_singleton. intros [?| ->]; auto.
Qed.

Lemma wf_q_tail a q k s b :
  well_formed b → Js.get k (services b) = Some s → s_q s = a :: q →
  well_formed (upd_service (s_with_q q) k b).
Proof.
  intros H Hs Hq. apply (WF_upd_service _ _ _ _ _ _ H). intros s' Hs'. split; [done|].
  simpl. intros a' Ha'. left. rewrite Hs in Hs'. injection Hs' as <-. rewrite Hq. now right.
Qed.

Lemma wf_sorted ws k s b :
  well_formed b → Js.get k (services b) = Some s → ws ≡ₚ s_workers s →
  well_formed (upd_service (s_with_workers ws) k b).
Proof.
  intros H Hs Hp. apply (WF_upd_service _ _ _ _ _ _ H). intros s' Hs'.
  rewrite Hs in Hs'. injection Hs' as <-. split; [|auto]. simpl. intros w. now rewrite Hp.
Qed.

Lemma wf_rmap_insert k a b :
  well_formed b → a < length (heap b) → well_formed (with_rmap (insert k a) b).
Proof.
  intros H Ha. apply (WF_rmap _ _ _ _ _ _ H). intros k' a'. cbn [rmap with_rmap].
  destruct (decide (k' = k)) as [->|Hne].
  - rewrite lookup_insert_eq. now intros [= <-].
  - rewrite lookup_insert_ne by done. apply (wf_rmap _ _ _ _ _ _ H).
Qed.

Lemma wf_rmap_delete k b : well_formed b → well_formed (with_rmap (delete k) b).
Proof.
  intros H. apply (WF_rmap _ _ _ _ _ _ H). intros k' a'. cbn [rmap with_rmap].
  destruct (decide (k' = k)) as [->|Hne].
  - now rewrite lookup_delete_eq.
  - rewrite lookup_delete_ne by done. apply (wf_rmap _ _ _ _ _ _ H).
Qed.

Lemma wf_defer t b :
  well_formed b →
  task_ok (workers b) (length (heap b)) (n_oid b) t →
  well_formed (with_pending (λ l, l ++ [t]) b).
Proof.
  intros H Ht. apply (WF_pending _ _ _ _ _ _ H). intros t'. cbn [pending with_pending].
  rewrite elem_of_app, list_elem_of_singleton. intros [?| ->]; auto.
Qed.

Lemma wf_required srvName b :
  well_formed b → well_formed (state_of (serviceRequire srvName b)).
Proof.
  intros H. unfold serviceRequire. destruct (Js.get _ _); [done|]. simpl.
  apply (WF_service_new _ _ _ _ _ _ H).
Qed.

Lemma serviceRequire_Ok srvName b :
  ∃ s, serviceRequire srvName b = Ok s (state_of (serviceRequire srvName b))
       ∧ Js.get (Js.key srvName) (services (state_of (serviceRequire srvName b))) = Some s.
Proof.
  unfold serviceRequire. destruct (Js.get (Js.key srvName) (services b)) eqn:Hg; simpl.
  - eauto.
  - eexists. split; [done|]. apply JsFacts.get_set_eq.
Qed.

Lemma required_rest srvName b :
  workers (state_of (serviceRequire srvName b)) = workers b
  ∧ rmap (state_of (serviceRequire srvName b)) = rmap b
  ∧ heap (state_of (serviceRequire srvName b)) = heap b
  ∧ pending (state_of (serviceRequire srvName b)) = pending b
  ∧ n_oid (state_of (serviceRequire srvName b)) = n_oid b.
Proof. unfold serviceRequire. now destruct (Js.get _ _). Qed.

End BrokerUpdates.

(** ** The rids in use are plain *)

Create HintDb plain.

Section PlainRids.

Variable E : Env.

Lemma plain_same b b' :
  heap b' = heap b → workers b' = workers b → plain_rids b → plain_rids b'.
Proof. unfold plain_rids. now intros -> ->. Qed.

Lemma plain_upd_request f a b :
  (∀ r, r_rid (f r) = r_rid r) → plain_rids b → plain_rids (upd_request f a b).
Proof.
  intros Hf [Hh Hw]. split; [|exact Hw].
  intros a' req. rewrite upd_request_lookup.
  destruct (decide (a' = a)); [|apply Hh].
  destruct (heap b !! a') as [r|] eqn:Hr; [|done].
  intros [= <-]. rewrite Hf. exact (Hh a' r Hr).
Qed.

Lemma plain_upd_worker f k b :
  (∀ w, Forall plain (w_rids w) → Forall plain (w_rids (f w))) →
  plain_rids b → plain_rids (upd_worker f k b).
Proof.
  intros Hf [Hh Hw]. split; [exact Hh|].
  intros w worker. cbn [workers upd_worker with_workers]. rewrite JsFacts.get_upd.
  destruct (String.eqb w k); [|apply Hw].
  destruct (Js.get w (workers b)) as [w0|] eqn:Hg; [|done].
  intros [= <-]. apply Hf. exact (Hw w w0 Hg).
Qed.

Lemma plain_worker_new k oid b :
  plain_rids b → plain_rids (with_workers (Js.set k (new_worker k oid)) b).
Proof.
  intros [Hh Hw]. split; [exact Hh|].
  intros w worker. cbn [workers with_workers].
  destruct (String.eqb_spec w k) as [->|Hne].
  - rewrite JsFacts.get_set_eq. intros [= <-]. apply Forall_nil_2.
  - rewrite JsFacts.get_set_ne by done. apply Hw.
Qed.

Lemma plain_worker_del k b : plain_rids b → plain_rids (with_workers (Js.del k) b).
Proof.
  intros [Hh Hw]. split; [exact Hh|].
  intros w worker. cbn [workers with_workers].
  destruct (String.eqb_spec w k) as [->|Hne].
  - now rewrite JsFacts.get_del_eq.
  - rewrite JsFacts.get_del_ne by done. apply Hw.
Qed.

Lemma plain_request_new r b :
  plain (r_rid r) → plain_rids b → plain_rids (with_heap (λ h, h ++ [r]) b).
Proof.
  intros Hr [Hh Hw]. split; [|exact Hw].
  intros a req. cbn [heap with_heap]. intros [H|[_ H]]%lookup_app_Some.
  - exact (Hh a req H).
  - destruct (a - length (heap b)) as [|n]; [|done]. injection H as <-. exact Hr.
Qed.

Lemma plain_pull rid k b :
  plain_rids b → plain_rids (upd_worker (λ w, w_with_rids (pull rid (w_rids w)) w) k b).
Proof.
  apply plain_upd_worker. intros w Hw. cbn [w_rids w_with_rids]. unfold pull.
  rewrite Forall_forall in Hw |- *. intros x [_ Hx]%list_elem_of_filter. now apply Hw.
Qed.

Lemma plain_assigned wk worker a req b :
  heap b !! a = Some req → plain_rids b → plain_rids (assigned wk worker a req b).
Proof.
  intros Ha Hb. pose proof (proj1 Hb a req Ha) as Hr.
  assert (H1 : plain_rids
                 (upd_worker
                    (λ w, if Nat.eqb (w_oid w) (w_oid worker)
                          then w_with_rids (w_rids w ++ [r_rid req]) w else w) wk
                    (upd_request (r_with_workerId (Some (w_workerId worker))) a
                       (with_rmap (insert (Js.key (r_rid req)) a) b)))).
  { apply plain_upd_worker.
    - intros w Hw. destruct (Nat.eqb _ _); [|done]. cbn [w_rids w_with_rids].
      apply Forall_app. split; [done|]. now apply Forall_singleton.
    - apply plain_upd_request; [done|]. now apply (plain_same b). }
  unfold assigned.
  destruct (truthyZ (o_persist (r_opts req))), (socket b);
    try exact H1; now eapply plain_same; [..|exact H1].
Qed.

Lemma send_plain msg : stable plain_rids (send msg).
Proof.
  apply stable_modify. intros b Hb. destruct (socket b); [|done]. now apply (plain_same b).
Qed.

Lemma getTime_plain : stable plain_rids (getTime E).
Proof. intros b Hb. now apply (plain_same b). Qed.

Lemma draw_plain n : stable plain_rids (draw E n).
Proof. intros b Hb. now apply (plain_same b). Qed.

Lemma serviceRequire_plain srvName : stable plain_rids (serviceRequire srvName).
Proof.
  intros b Hb. unfold serviceRequire. destruct (Js.get _ _); [done|]. now apply (plain_same b).
Qed.

Lemma workerRequire_plain workerId : stable plain_rids (workerRequire workerId).
Proof.
  intros b Hb. unfold workerRequire. destruct (Js.get _ _); [done|]. simpl.
  apply (plain_same (with_workers (Js.set workerId (new_worker workerId (n_oid b))) b));
    [done..|]. now apply plain_worker_new.
Qed.

Lemma _rproc_plain wk worker a : stable plain_rids (_rproc wk worker a).
Proof.
  intros b Hb. destruct (heap b !! a) as [req|] eqn:Ha.
  - rewrite (_rproc_assigned wk worker a b req Ha). now apply plain_assigned.
  - unfold _rproc. now rewrite bind_gets, Ha.
Qed.

#[local] Hint Resolve send_plain getTime_plain draw_plain serviceRequire_plain
  workerRequire_plain _rproc_plain plain_pull plain_worker_del : plain.
#[local] Hint Extern 1 (plain_rids (upd_service _ _ ?b)) =>
  apply (plain_same b); [reflexivity..|] : plain.
#[local] Hint Extern 1 (plain_rids (with_pending _ ?b)) =>
  apply (plain_same b); [reflexivity..|] : plain.
#[local] Hint Extern 1 (plain_rids (with_ctrl _ ?b)) =>
  apply (plain_same b); [reflexivity..|] : plain.
#[local] Hint Extern 1 (plain_rids (with_rmap _ ?b)) =>
  apply (plain_same b); [reflexivity..|] : plain.
#[local] Hint Extern 1 (plain_rids (with_cache _ ?b)) =>
  apply (plain_same b); [reflexivity..|] : plain.
#[local] Hint Extern 1 (plain_rids (with_wcheck _ ?b)) =>
  apply (plain_same b); [reflexivity..|] : plain.
#[local] Hint Extern 1 (plain_rids (upd_request _ _ _)) =>
  apply plain_upd_request; [reflexivity|] : plain.
#[local] Hint Extern 1 (plain_rids (upd_worker (w_with_liveness _) _ _)) =>
  apply plain_upd_worker; [intros ? ?; assumption|] : plain.
#[local] Hint Extern 1 (plain_rids (upd_worker (w_with_service _) _ _)) =>
  apply plain_upd_worker; [intros ? ?; assumption|] : plain.
#[local] Hint Extern 1 (plain_rids (upd_worker (w_with_concurrency _) _ _)) =>
  apply plain_upd_worker; [intros ? ?; assumption|] : plain.

Lemma requestValidate_plain worker req : stable plain_rids (requestValidate E worker req).
Proof. unfold requestValidate. repeat stable_step; auto with plain. Qed.

Lemma _wsel_plain k service mode : stable plain_rids (_wsel E k service mode).
Proof. unfold _wsel. repeat stable_step; auto with plain. Qed.

Lemma scan_workers_plain name mode ents : stable plain_rids (scan_workers E name mode ents).
Proof.
  induction ents as [|[mName mSrv] ents IH]; simpl.
  - apply stable_ret.
  - repeat stable_step; auto using _wsel_plain.
Qed.

Lemma serviceWorkerSelect_plain srvName mode :
  stable plain_rids (serviceWorkerSelect E srvName mode).
Proof.
  unfold serviceWorkerSelect.
  repeat stable_step; auto using _wsel_plain, scan_workers_plain with plain.
Qed.

Lemma _rhandle_plain sws : stable plain_rids (_rhandle E sws).
Proof.
  unfold _rhandle, Controller_rdel.
  repeat stable_step; auto using requestValidate_plain with plain.
Qed.

Lemma dispatch_loop_plain fuel srvName mode tryagain :
  stable plain_rids (dispatch_loop E fuel srvName mode tryagain).
Proof.
  revert mode tryagain. induction fuel as [|fuel IH]; intros mode tryagain; simpl.
  - apply stable_spin.
  - repeat stable_step; auto using serviceWorkerSelect_plain, _rhandle_plain.
Qed.

Lemma dispatch_plain fuel srvName mode : stable plain_rids (dispatch E fuel srvName mode).
Proof.
  unfold dispatch. repeat stable_step; auto using dispatch_loop_plain with plain.
Qed.

Lemma requestQueue_plain fuel a : stable plain_rids (requestQueue E fuel a).
Proof.
  unfold requestQueue, Controller_rset.
  repeat stable_step; auto using dispatch_plain with plain.
Qed.

Lemma workerDelete_plain fuel workerId disconnect :
  stable plain_rids (workerDelete E fuel workerId disconnect).
Proof.
  unfold workerDelete, workerDelete_rid, Controller_rdel.
  repeat stable_step; auto using dispatch_plain with plain.
Qed.

Lemma serviceWorkerAdd_plain fuel srvName workerId :
  stable plain_rids (serviceWorkerAdd E fuel srvName workerId).
Proof.
  unfold serviceWorkerAdd. repeat stable_step; auto using dispatch_plain with plain.
Qed.

Lemma Cache_get_plain h : stable plain_rids (Cache_get E h).
Proof. unfold Cache_get, Cache_valid. repeat stable_step; auto with plain. Qed.

Lemma Cache_set_plain h d ttl : stable plain_rids (Cache_set E h d ttl).
Proof. unfold Cache_set. repeat stable_step; auto with plain. Qed.

Lemma onClient_plain fuel msg :
  (eqs (frame msg 2) MDP.W_REQUEST = true → plain (frame msg 4)) →
  stable plain_rids (onClient E fuel msg).
Proof.
  intros Hrid. unfold onClient.
  destruct (eqs (frame msg 2) MDP.W_REQUEST).
  - repeat stable_step; auto using requestQueue_plain with plain.
    apply plain_request_new; [now apply Hrid|done].
  - repeat stable_step; auto with plain.
Qed.

Lemma onWorker_plain fuel msg : stable plain_rids (onWorker E fuel msg).
Proof.
  unfold onWorker, reply, Controller_rdel.
  repeat stable_step;
    auto using workerDelete_plain, serviceWorkerAdd_plain, dispatch_plain, Cache_set_plain
      with plain.
  match goal with |- stable _ (match ?x with _ => _ end ?y) => destruct x, y end;
    repeat stable_step;
    auto using workerDelete_plain, serviceWorkerAdd_plain, dispatch_plain, Cache_set_plain
      with plain.
Qed.

Lemma workersCheck_plain fuel : stable plain_rids (workersCheck E fuel).
Proof.
  unfold workersCheck, workersCheck_worker.
  repeat stable_step; auto using workerDelete_plain with plain.
Qed.

Lemma run_task_plain fuel t : stable plain_rids (run_task E fuel t).
Proof.
  unfold run_task, reply, Controller_rdel.
  repeat stable_step; auto using dispatch_plain, Cache_get_plain with plain.
Qed.

Lemma step_plain fuel c e : acceptable c e → stable plain_rids (step E fuel e).
Proof.
  intros He. destruct e as [msg| |]; simpl.
  - unfold onMsg. apply stable_bind; [|intros ?; apply workersCheck_plain].
    destruct (eqs (frame msg 1) MDP.CLIENT) eqn:Hh.
    + apply onClient_plain. intros Ht. now apply He.
    + destruct (eqs (frame msg 1) MDP.WORKER); [apply onWorker_plain|apply stable_ret].
  - apply workersCheck_plain.
  - repeat stable_step; auto using run_task_plain with plain.
Qed.

Lemma run_plain fuel c es :
  Forall (acceptable c) es → stable plain_rids (run E fuel es).
Proof.
  induction 1 as [|e es He Hes IH]; simpl.
  - apply stable_ret.
  - apply stable_bind; [now apply (step_plain fuel c)|intros ?; exact IH].
Qed.

End PlainRids.

(** ** No handler throws *)

Lemma same_queues_refl b b' : services b' = services b → same_queues b b'.
Proof. intros He k s Hs. rewrite He. eauto. Qed.

Section Safety.

Variable E : Env.

Lemma forallb_registered b s k :
  well_formed b → Js.get k (services b) = Some s →
  forallb (λ a, Js.has a (workers b)) (s_workers s) = true.
Proof.
  intros H Hs. apply forallb_forall. intros w Hin. apply list_elem_of_In in Hin.
  destruct (wf_listed _ _ _ _ _ _ H k s w Hs Hin) as (_ & wr & Hg & _).
  unfold Js.has. now rewrite Hg.
Qed.

Lemma _wsel_fine k s mode b :
  well_formed b →
  Js.get k (services b) = Some s →
  ∃ r b', _wsel E k s mode b = Ok r b'
          ∧ well_formed b' ∧ same_queues b b'
          ∧ ∀ w, r = Some w → w ∈ s_workers s.
Proof.
  intros H Hs.
  destruct (_wsel E k s mode b) as [r b'| |] eqn:Hsel.
  - exists r, b'. split; [done|].
    assert (Hin : ∀ w, r = Some w → w ∈ s_workers s).
    { intros w ->. now apply _wsel_Some in Hsel. }
    split; [|split; [|exact Hin]].
    + revert Hsel. unfold _wsel.
      destruct (String.eqb mode "rand").
      { unfold bind, draw, gets. intros [= _ <-]. now apply (wf_same b). }
      destruct (String.eqb mode "load"); [|intros [= _ <-]; done].
      destruct (s_workers s) as [|x [|y ws]] eqn:Hws.
      * now intros [= _ <-].
      * now intros [= _ <-].
      * unfold bind, gets, modify, id. destruct (forallb _ _); [|done].
        simpl. intros [= _ <-]. apply (wf_sorted _ _ s); [done..|].
        rewrite Hws. apply array_sort_perm.
    + revert Hsel. unfold _wsel.
      destruct (String.eqb mode "rand").
      { unfold bind, draw, gets. intros [= _ <-]. now apply same_queues_refl. }
      destruct (String.eqb mode "load");
        [|intros [= _ <-]; now apply same_queues_refl].
      destruct (s_workers s) as [|x [|y ws]] eqn:Hws.
      * intros [= _ <-]. now apply same_queues_refl.
      * intros [= _ <-]. now apply same_queues_refl.
      * unfold bind, gets, modify, id. destruct (forallb _ _); [|done].
        simpl. intros [= _ <-]. intros k' s' Hs'. simpl.
        rewrite JsFacts.get_upd, Hs'.
        destruct (String.eqb_spec k' k) as [->|Hne]; simpl; [|eauto].
        eexists. split; [done|]. split; [done|]. simpl. intros w.
        rewrite Hs in Hs'. injection Hs' as <-. rewrite Hws.
        now rewrite (array_sort_perm E).
  - exfalso. revert Hsel. unfold _wsel.
    destruct (String.eqb mode "rand"); [done|].
    destruct (String.eqb mode "load"); [|done].
    destruct (s_workers s) as [|x [|y ws]]; [done..|].
    unfold bind, gets, modify, id. now destruct (forallb _ _).
  - exfalso. revert Hsel. unfold _wsel.
    destruct (String.eqb mode "rand"); [done|].
    destruct (String.eqb mode "load"); [|done].
    destruct (s_workers s) as [|x [|y ws]] eqn:Hws; [done..|].
    unfold bind, gets, modify, id.
    rewrite <- Hws, (forallb_registered b s k H Hs). done.
Qed.

Lemma same_queues_trans b1 b2 b3 :
  same_queues b1 b2 → same_queues b2 b3 → same_queues b1 b3.
Proof.
  intros H12 H23 k s Hs. destruct (H12 k s Hs) as (s2 & Hs2 & Hq2 & Hw2).
  destruct (H23 k s2 Hs2) as (s3 & Hs3 & Hq3 & Hw3).
  exists s3. split; [done|]. split; [congruence|auto].
Qed.

Lemma same_queues_required srvName b :
  same_queues b (state_of (serviceRequire srvName b)).
Proof.
  unfold serviceRequire. destruct (Js.get (Js.key srvName) (services b)) eqn:Hg; simpl.
  - now apply same_queues_refl.
  - intros k s Hs. exists s. split; [|done]. simpl.
    rewrite JsFacts.get_set_ne; [done|]. intros ->. congruence.
Qed.

Lemma own_entries_get b k s :
  well_formed b → (k, s) ∈ Js.own_entries (services b) → Js.get k (services b) = Some s.
Proof.
  intros H Hin. rewrite OwnKeys.own_entries_perm in Hin.
  apply TableFacts.elem_of_get; [|done]. apply (wf_keys _ _ _ _ _ _ H).
Qed.

Lemma scan_workers_fine name mode ents :
  ∀ b,
    well_formed b →
    (∀ k s, (k, s) ∈ ents → Js.get k (services b) = Some s) →
    ∃ r b', scan_workers E name mode ents b = Ok r b'
            ∧ well_formed b' ∧ same_queues b b'
            ∧ ∀ w, r = Some w →
                   ∃ k s', Js.get k (services b') = Some s' ∧ w ∈ s_workers s'.
Proof.
  induction ents as [|[mName mSrv] ents IH]; intros b H Hents; simpl.
  - exists None, b. split; [done|]. split; [done|]. split; [now apply same_queues_refl|done].
  - assert (Hrest : ∀ k s, (k, s) ∈ ents → Js.get k (services b) = Some s)
      by (intros k s Hin; apply Hents; now right).
    destruct (String.eqb name mName); [now apply IH|].
    destruct (_ && _); [|now apply IH].
    assert (Hm : Js.get mName (services b) = Some mSrv)
      by (apply Hents, list_elem_of_here).
    destruct (_wsel_fine mName mSrv mode b H Hm) as (r & b' & Hsel & Hwf & Hsq & Hin).
    exists r, b'. split; [done|]. split; [done|]. split; [done|].
    intros w Hr. destruct (Hsq mName mSrv Hm) as (s' & Hs' & _ & Hw').
    exists mName, s'. split; [done|]. now apply Hw', Hin.
Qed.

Lemma scan_queues_Some name ents m :
  scan_queues name ents = Some m → ∃ ms, (m, ms) ∈ ents ∧ s_q ms ≠ [].
Proof.
  induction ents as [|[mName mSrv] ents IH]; simpl; [done|].
  destruct (String.eqb name mName).
  { intros Hm. destruct (IH Hm) as (ms & Hin & Hq). exists ms. split; [now right|done]. }
  destruct (Js.starts_with_init mName name && nonempty (s_q mSrv)) eqn:Hc.
  - intros [= <-]. exists mSrv. split; [apply list_elem_of_here|].
    apply andb_true_iff in Hc as [_ Hc]. now destruct (s_q mSrv).
  - intros Hm. destruct (IH Hm) as (ms & Hin & Hq). exists ms. split; [now right|done].
Qed.

(** What [serviceWorkerSelect] returns can be handed to [_rhandle]: the
    service it names has a request queued, and the worker it names is on
    the list of a service. *)
Lemma serviceWorkerSelect_fine name mode b :
  well_formed b →
  ∃ r b', serviceWorkerSelect E (Some name) mode b = Ok r b'
          ∧ well_formed b'
          ∧ ∀ sws, r = Some sws →
                   (∀ w, sws_workerId sws = Some w →
                         ∃ k s', Js.get k (services b') = Some s' ∧ w ∈ s_workers s')
                   ∧ (∀ m, sws_service sws = Some m →
                           ∃ s', Js.get m (services b') = Some s' ∧ s_q s' ≠ []).
Proof.
  intros H. unfold serviceWorkerSelect.
  destruct (serviceRequire_Ok (Some name) b) as (s & Hreq & Hs).
  pose proof (wf_required (Some name) b H) as H1.
  set (b1 := state_of (serviceRequire (Some name) b)) in *.
  rewrite (bind_Ok _ _ _ _ _ Hreq). rewrite key_Some in Hs.
  destruct (nonempty (s_workers s) && nonempty (s_q s)) eqn:Hboth.
  { destruct (_wsel_fine name s mode b1 H1 Hs) as (r & b2 & Hsel & H2 & Hsq & Hin).
    rewrite key_Some, (bind_Ok _ _ _ _ _ Hsel).
    eexists _, b2. split; [reflexivity|]. split; [done|].
    intros sws [= <-]. simpl. destruct (Hsq name s Hs) as (s' & Hs' & Hq' & Hw').
    split.
    - intros w Hw. exists name, s'. split; [done|]. now apply Hw', Hin.
    - intros m [= <-]. exists s'. split; [done|]. rewrite Hq'.
      apply andb_true_iff in Hboth as [_ Hq]. now destruct (s_q s). }
  destruct (Js.ends_with_star name).
  - destruct (nonempty (s_workers s)); [|by exists None, b1].
    destruct (_wsel_fine name s mode b1 H1 Hs) as (r & b2 & Hsel & H2 & Hsq & Hin).
    rewrite (bind_Ok _ _ _ _ _ Hsel), bind_gets.
    eexists _, b2. split; [reflexivity|]. split; [done|].
    intros sws [= <-]. simpl. split.
    + intros w Hw. destruct (Hsq name s Hs) as (s' & Hs' & _ & Hw').
      exists name, s'. split; [done|]. now apply Hw', Hin.
    + intros m Hm. apply scan_queues_Some in Hm as (ms & Hms & Hq).
      exists ms. split; [|done]. now apply own_entries_get.
  - destruct (nonempty (s_q s)) eqn:Hq; [|by exists None, b1].
    rewrite bind_gets.
    destruct (scan_workers_fine name mode (Js.own_entries (services b1)) b1 H1)
      as (r & b2 & Hscan & H2 & Hsq & Hin).
    { intros k s0. now apply own_entries_get. }
    rewrite (bind_Ok _ _ _ _ _ Hscan).
    eexists _, b2. split; [reflexivity|]. split; [done|].
    intros sws [= <-]. simpl. split; [exact Hin|].
    intros m [= <-]. destruct (Hsq name s Hs) as (s' & Hs' & Hq' & _).
    exists s'. split; [done|]. rewrite Hq'. now destruct (s_q s).
Qed.

Lemma wf_assigned wk worker a req b :
  well_formed b →
  a < length (heap b) →
  (∀ w', Js.get wk (workers b) = Some w' → w_oid w' = w_oid worker →
         ∃ k, w_service w' = Some k ∧ k ≠ "") →
  well_formed (assigned wk worker a req b).
Proof.
  intros H Ha Hw.
  assert (H1 : well_formed
                 (upd_worker
                    (λ w, if Nat.eqb (w_oid w) (w_oid worker)
                          then w_with_rids (w_rids w ++ [r_rid req]) w else w) wk
                    (upd_request (r_with_workerId (Some (w_workerId worker))) a
                       (with_rmap (insert (Js.key (r_rid req)) a) b)))).
  { apply WF_upd_worker.
    - apply wf_upd_request. now apply wf_rmap_insert.
    - intros wr Hg. cbn [workers upd_request with_heap with_rmap] in Hg.
      destruct (Nat.eqb_spec (w_oid wr) (w_oid worker)) as [Heq|Hne]; simpl.
      + repeat split. intros _. right. now apply Hw.
      + repeat split. now left. }
  unfold assigned.
  destruct (truthyZ (o_persist (r_opts req))), (socket b); exact H1.
Qed.

Lemma requestValidate_Ok worker req b :
  ∃ v b', requestValidate E (Some worker) req b = Ok v b'
          ∧ services b' = services b ∧ workers b' = workers b ∧ rmap b' = rmap b
          ∧ heap b' = heap b ∧ pending b' = pending b ∧ n_oid b' = n_oid b
          ∧ conf b' = conf b.
Proof.
  unfold requestValidate. destruct req as [req|]; [|by exists (-1)%Z, b].
  destruct (Qgtb (r_timeout req) (-1)).
  - unfold bind, getTime, ret, gets.
    destruct (Qgtb (clock E (n_clock b)) (r_ts req + r_timeout req)).
    + by eexists _, _.
    + simpl. destruct (_ && _); by eexists _, _.
  - rewrite bind_ret, bind_gets. destruct (_ && _); by eexists _, _.
Qed.

Lemma _rhandle_fine sws m s w b :
  well_formed b →
  sws_service sws = Some m →
  Js.get m (services b) = Some s →
  s_q s ≠ [] →
  sws_workerId sws = Some w →
  (∃ k s', Js.get k (services b) = Some s' ∧ w ∈ s_workers s') →
  ∃ r b', _rhandle E sws b = Ok r b' ∧ well_formed b'.
Proof.
  intros H Hm Hs Hq Hw (k & s' & Hs' & Hin).
  destruct (wf_listed _ _ _ _ _ _ H k s' w Hs' Hin) as (Hk & wr & Hg & Hsv).
  destruct (s_q s) as [|a q] eqn:Hqs; [done|].
  assert (Ha : a < length (heap b)).
  { apply (wf_queued _ _ _ _ _ _ H m s a Hs). rewrite Hqs. apply list_elem_of_here. }
  destruct (lookup_lt_is_Some_2 (heap b) a Ha) as [req Hh].
  unfold _rhandle. rewrite Hm, Hw, !key_Some, bind_gets, Hg.
  rewrite bind_Ok with (a := s) (b' := b)
    by (unfold serviceRequire; now rewrite key_Some, Hs).
  rewrite Hqs, bind_modify, bind_gets.
  replace (heap (upd_service (s_with_q q) m b) !! a) with (Some req)
    by (symmetry; exact Hh).
  rewrite bind_modify, bind_gets.
  set (b1 := upd_request (λ r, r_with_attempts (r_attempts r + 1) r) a
               (upd_service (s_with_q q) m b)).
  assert (H1 : well_formed b1)
    by (apply wf_upd_request; now apply (wf_q_tail a q m s)).
  assert (Ha1 : a < length (heap b1)) by (unfold b1; now rewrite length_upd_request).
  destruct (requestValidate_Ok wr (heap b1 !! a) b1)
    as (v & b2 & Hv & E1 & E2 & E3 & E4 & E5 & E6 & E7).
  assert (H2 : well_formed b2) by (apply (wf_same b1); congruence).
  rewrite (bind_Ok _ _ _ _ _ Hv).
  destruct (v <=? 0)%Z.
  - destruct (v =? -2)%Z.
    + rewrite bind_modify. eexists _, _. split; [reflexivity|].
      apply wf_q_push; [done|]. now rewrite E4.
    + destruct (heap b1 !! a) as [req1|] eqn:Hh1.
      * unfold Controller_rdel. rewrite bind_modify.
        eexists _, _. split; [reflexivity|]. now apply (wf_same b2).
      * apply lookup_ge_None in Hh1. lia.
  - rewrite bind_gets. destruct (cache (conf b2)).
    + rewrite bind_modify. eexists _, _. split; [reflexivity|].
      apply wf_defer; [done|]. simpl. rewrite E4, E2, E6. repeat split.
      * exact Ha1.
      * apply (wf_oid _ _ _ _ _ _ H w wr Hg).
      * intros w' Hg' _. cbn [workers b1 upd_request with_heap upd_service with_services]
          in Hg'. rewrite Hg in Hg'. injection Hg' as <-. eauto.
    + destruct (lookup_lt_is_Some_2 (heap b2) a) as [req2 Hh2]; [now rewrite E4|].
      rewrite bind_Ok with (a := tt) (b' := assigned w wr a req2 b2)
        by (now apply _rproc_assigned).
      eexists _, _. split; [reflexivity|].
      apply wf_assigned; [done|now rewrite E4|].
      intros w'. rewrite E2. cbn [workers b1 upd_request with_heap upd_service with_services].
      rewrite Hg. intros [= <-] _. eauto.
Qed.

Lemma dispatch_loop_fine fuel name :
  ∀ mode tryagain b,
    well_formed b → fine (dispatch_loop E fuel (Some name) mode tryagain b).
Proof.
  induction fuel as [|fuel IH]; intros mode tryagain b H; simpl; [done|].
  rewrite bind_gets.
  destruct (serviceWorkerSelect_fine name
              (if Js.truthy mode then Js.key mode else dmode (conf b)) b H)
    as (r & b1 & Hsel & H1 & Hpost).
  rewrite (bind_Ok _ _ _ _ _ Hsel).
  destruct r as [sws|]; [|done].
  destruct (Hpost sws eq_refl) as [Hw Hm].
  destruct (sws_service sws) as [m|] eqn:Hsm; [|exact H1].
  destruct (sws_workerId sws) as [w|] eqn:Hsw;
    [|cbn [Js.truthy negb]; rewrite orb_true_r; exact H1].
  destruct (negb (Js.truthy (Some m)) || negb (Js.truthy (Some w))); [exact H1|].
  destruct (Hm m eq_refl) as (s' & Hs' & Hq').
  destruct (_rhandle_fine sws m s' w b1 H1 Hsm Hs' Hq' Hsw (Hw w eq_refl))
    as (v & b2 & Hh & H2).
  rewrite (bind_Ok _ _ _ _ _ Hh). now apply IH.
Qed.

Lemma dispatch_fine fuel name mode b :
  well_formed b → fine (dispatch E fuel (Some name) mode b).
Proof.
  intros H. unfold dispatch, bind.
  pose proof (dispatch_loop_fine fuel name mode 0 b H) as Hl.
  destruct (dispatch_loop E fuel (Some name) mode 0 b) as [[mode' n] b1| |]; [|done..].
  simpl in *. destruct n; [done|]. simpl. apply wf_defer; [done|]. simpl. eauto.
Qed.

Lemma fine_each {A} (f : A → M unit) (l : list A) :
  (∀ x b, well_formed b → fine (f x b)) →
  ∀ b, well_formed b → fine (each f l b).
Proof.
  intros Hf. induction l as [|x l IH]; intros b H; simpl; [done|].
  unfold bind. specialize (Hf x b H). destruct (f x b); [now apply IH|done..].
Qed.

Lemma workerDelete_rid_fine fuel worker rid b :
  well_formed b → fine (workerDelete_rid E fuel worker rid b).
Proof.
  intros H. unfold workerDelete_rid. rewrite bind_gets.
  destruct (rmap b !! Js.key rid) as [a|] eqn:Hr; [|done].
  rewrite bind_gets. destruct (heap b !! a) as [req|] eqn:Hh; [|done].
  rewrite !bind_modify.
  assert (H1 : well_formed (upd_request (r_with_workerId None) a
                              (with_rmap (delete (Js.key rid)) b)))
    by (apply wf_upd_request; now apply wf_rmap_delete).
  destruct (w_service worker) as [k|] eqn:Hsv; [|exact H1].
  destruct (Js.truthy (Some k)); [|exact H1].
  rewrite bind_modify, key_Some.
  assert (H2 : well_formed
                 (upd_service (λ s, s_with_q (s_q s ++ [a]) s) k
                    (upd_request (r_with_workerId None) a
                       (with_rmap (delete (Js.key rid)) b)))).
  { apply wf_q_push; [done|]. rewrite length_upd_request.
    apply (wf_rmap _ _ _ _ _ _ H _ _ Hr). }
  destruct (negb (r_retry req =? 0)%Z).
  - now apply dispatch_fine.
  - unfold Controller_rdel. now apply (wf_same _ _ H2).
Qed.

Lemma wf_without_worker workerId disconnect worker b :
  well_formed b →
  Js.get workerId (workers b) = Some worker →
  well_formed (without_worker workerId disconnect worker b).
Proof.
  intros H Hg. unfold without_worker.
  set (b1 := if disconnect && socket b
             then with_sent (λ l, l ++ [disconnect_frame workerId]) b else b).
  assert (H1 : well_formed b1) by (unfold b1; now destruct (disconnect && socket b)).
  assert (Hg1 : Js.get workerId (workers b1) = Some worker)
    by (unfold b1; now destruct (disconnect && socket b)).
  clearbody b1.
  destruct (Js.truthy (w_service worker)) eqn:Htr.
  - destruct (w_service worker) as [k|] eqn:Hsv; [|done]. rewrite key_Some.
    pose proof (wf_required (Some k) b1 H1) as H2.
    destruct (required_rest (Some k) b1) as (Ew & _).
    set (b2 := state_of (serviceRequire (Some k) b1)) in *.
    assert (H3 : well_formed
                   (upd_service (λ s, s_with_workers (pull workerId (s_workers s)) s) k b2)).
    { apply (WF_upd_service _ _ _ _ _ _ H2). intros s _. split; [|auto].
      simpl. intros w. unfold pull. rewrite list_elem_of_filter. tauto. }
    apply (WF_worker_del _ _ _ _ _ _ H3). intros k' s'. simpl.
    rewrite JsFacts.get_upd.
    destruct (String.eqb_spec k' k) as [->|Hne].
    + destruct (Js.get k (services b2)); [|done]. intros [= <-]. simpl.
      apply not_elem_of_pull.
    + intros Hs' Hin.
      destruct (wf_listed _ _ _ _ _ _ H2 k' s' workerId Hs' Hin) as (_ & wr & Hg' & Hsv').
      rewrite Ew, Hg1 in Hg'. injection Hg' as <-. congruence.
  - apply (WF_worker_del _ _ _ _ _ _ H1).
    exact (WF_not_listed _ _ _ _ _ _ H1 workerId worker Hg1 Htr).
Qed.

Lemma workerDelete_fine fuel workerId disconnect b :
  well_formed b → fine (workerDelete E fuel workerId disconnect b).
Proof.
  intros H. destruct (Js.get workerId (workers b)) as [worker|] eqn:Hg.
  - rewrite (workerDelete_registered E fuel workerId disconnect worker b Hg).
    apply fine_each.
    + intros rid b'. apply workerDelete_rid_fine.
    + now apply wf_without_worker.
  - unfold workerDelete. rewrite bind_gets, Hg. simpl.
    apply (WF_worker_del _ _ _ _ _ _ H).
    exact (WF_unregistered _ _ _ _ _ _ H workerId Hg).
Qed.

Lemma serviceWorkerAdd_fine fuel srvName workerId worker b :
  well_formed b →
  srvName ≠ "" →
  Js.get workerId (workers b) = Some worker →
  w_service worker = None →
  fine (serviceWorkerAdd E fuel srvName workerId b).
Proof.
  intros H Hne Hg Hnone. unfold serviceWorkerAdd.
  destruct (serviceRequire_Ok (Some srvName) b) as (s & Hreq & Hs).
  pose proof (wf_required (Some srvName) b H) as H1.
  destruct (required_rest (Some srvName) b) as (Ew & _).
  set (b1 := state_of (serviceRequire (Some srvName) b)) in *.
  rewrite (bind_Ok _ _ _ _ _ Hreq).
  rewrite bind_Ok with (a := worker) (b' := b1)
    by (unfold workerRequire; now rewrite Ew, Hg).
  destruct (absent workerId (s_workers s)).
  - unfold bind, modify. cbv beta iota. apply dispatch_fine.
    apply (WF_list_worker _ _ _ _ _ _ H1 srvName workerId worker); [done| |done].
    now rewrite Ew.
  - rewrite bind_ret. now apply dispatch_fine.
Qed.

Lemma workerRequire_fine workerId b :
  well_formed b →
  ∃ w b1, workerRequire workerId b = Ok w b1
          ∧ well_formed b1
          ∧ Js.get workerId (workers b1) = Some w
          ∧ (Js.get workerId (workers b) = None → w_service w = None).
Proof.
  intros H. unfold workerRequire.
  destruct (Js.get workerId (workers b)) as [w|] eqn:Hg.
  - exists w, b. split; [done|]. split; [done|]. split; [done|]. intros; discriminate.
  - eexists _, _. split; [reflexivity|]. split; [|split; [|done]].
    + exact (WF_worker_new _ _ _ _ _ _ H workerId Hg).
    + simpl. apply JsFacts.get_set_eq.
Qed.

Lemma requestQueue_fine fuel a b :
  well_formed b → a < length (heap b) → fine (requestQueue E fuel a b).
Proof.
  intros H Ha. unfold requestQueue. rewrite bind_gets.
  destruct (lookup_lt_is_Some_2 (heap b) a Ha) as [req ->].
  destruct (serviceRequire_Ok (Some (r_service req)) b) as (s & Hreq & Hs).
  pose proof (wf_required (Some (r_service req)) b H) as H1.
  destruct (required_rest (Some (r_service req)) b) as (_ & _ & Eh & _).
  set (b1 := state_of (serviceRequire (Some (r_service req)) b)) in *.
  rewrite (bind_Ok _ _ _ _ _ Hreq), bind_modify.
  assert (H2 : well_formed (upd_service (λ s, s_with_q (s_q s ++ [a]) s) (r_service req) b1))
    by (apply wf_q_push; [done|now rewrite Eh]).
  unfold Controller_rset.
  destruct (truthyZ (o_persist (r_opts req))).
  - rewrite bind_modify. apply dispatch_fine. now apply (wf_same _ _ H2).
  - rewrite bind_ret. now apply dispatch_fine.
Qed.

Lemma onClient_fine fuel msg b :
  (eqs (frame msg 2) MDP.W_REQUEST = true → cache (conf b) = true → is_Some (frame msg 5)) →
  well_formed b → fine (onClient E fuel msg b).
Proof.
  intros Hmd H. unfold onClient.
  destruct (eqs (frame msg 2) MDP.W_REQUEST).
  - rewrite bind_gets.
    set (srvName := if Js.truthy (frame msg 3) then Js.key (frame msg 3) else "UNK").
    assert (∃ rhash, (if cache (conf b)
                      then match frame msg 5 with
                           | Some v => ret (Some (srvName +:+ md5_hex E v))
                           | None => throw
                           end
                      else ret None) b = Ok rhash b) as [rhash Hh].
    { destruct (cache (conf b)); [|by eexists].
      destruct (Hmd eq_refl eq_refl) as [d ->]. by eexists. }
    rewrite (bind_Ok _ _ _ _ _ Hh).
    unfold bind at 1, getTime. rewrite bind_gets, bind_modify.
    apply requestQueue_fine.
    + apply (WF_heap _ _ _ _ _ _ H). simpl. rewrite length_app. lia.
    + simpl. rewrite length_app. simpl. lia.
  - destruct (eqs (frame msg 2) MDP.W_HEARTBEAT); [|done].
    destruct (length (frames msg) =? 4)%nat; [|done].
    rewrite !bind_gets.
    destruct (rmap b !! Js.key (frame msg 3) ≫= λ a, heap b !! a) as [req|]; [|done].
    destruct (Js.truthy (r_workerId req)); [|done].
    now apply wf_send.
Qed.

Lemma wf_upd_worker f k b :
  well_formed b →
  (∀ wr, w_service (f wr) = w_service wr ∧ w_oid (f wr) = w_oid wr
         ∧ (w_rids (f wr) ≠ [] → w_rids wr ≠ [])) →
  well_formed (upd_worker f k b).
Proof.
  intros H Hf. apply (WF_upd_worker _ _ _ _ _ _ H). intros wr _.
  destruct (Hf wr) as (H1 & H2 & H3). repeat split; [done..|]. intros Hr. left. auto.
Qed.

Lemma pull_not_nil {A} `{EqDecision A} (x : A) l : pull x l ≠ [] → l ≠ [].
Proof. now intros Hp ->. Qed.

Lemma onWorker_fine fuel msg b :
  well_formed b → fine (onWorker E fuel msg b).
Proof.
  intros H. unfold onWorker. rewrite bind_gets.
  destruct (workerRequire_fine (identity msg) b H) as (w0 & b1 & Hreq & H1 & Hg1 & Hnew).
  rewrite (bind_Ok _ _ _ _ _ Hreq).
  destruct (eqs (frame msg 2) MDP.W_READY).
  { destruct (Js.truthy (frame msg 3)) eqn:Htr; cbn [negb].
    - destruct (frame msg 3) as [srv|] eqn:Hsrv; [|done].
      assert (Hne : srv ≠ "").
      { intros ->. discriminate Htr. }
      unfold Js.has. destruct (Js.get (identity msg) (workers b)) eqn:Hg; cbn [negb];
        [exact H1|].
      destruct (serviceRequire_Ok (Some srv) b1) as (s & Hsr & Hs).
      pose proof (wf_required (Some srv) b1 H1) as H2.
      destruct (required_rest (Some srv) b1) as (Ew & _).
      rewrite (bind_Ok _ _ _ _ _ Hsr), key_Some.
      apply (serviceWorkerAdd_fine fuel srv (identity msg) w0); [done..| |now apply Hnew].
      now rewrite Ew.
    - now apply workerDelete_fine. }
  destruct (negb (Js.has (identity msg) (workers b))); [now apply workerDelete_fine|].
  rewrite bind_modify, bind_gets.
  set (b2 := upd_worker (w_with_liveness HEARTBEAT_LIVENESS) (identity msg) b1).
  assert (H2 : well_formed b2) by (apply wf_upd_worker; [done|now intros wr]).
  assert (Hg2 : Js.get (identity msg) (workers b2)
                = Some (w_with_liveness HEARTBEAT_LIVENESS w0))
    by (now apply JsFacts.get_upd_eq).
  rewrite Hg2. set (worker := w_with_liveness HEARTBEAT_LIVENESS w0) in *.
  destruct (eqs (frame msg 2) MDP.W_REPLY || eqs (frame msg 2) MDP.W_REPLY_PARTIAL
            || eqs (frame msg 2) MDP.W_REPLY_REJECT).
  - destruct (absent (frame msg 5) (w_rids worker)) eqn:Habs;
      [now apply workerDelete_fine|].
    assert (Hsv : ∃ k, w_service worker = Some k).
    { destruct (wf_rids _ _ _ _ _ _ H2 _ _ Hg2) as (k & Hk & _); [|eauto].
      unfold absent in Habs. apply negb_false_iff, bool_decide_eq_true_1 in Habs.
      intros Hnil. rewrite Hnil in Habs. by apply elem_of_nil in Habs. }
    destruct Hsv as [k Hk].
    rewrite !bind_gets.
    destruct (rmap b2 !! Js.key (frame msg 5)) as [a|] eqn:Hr;
      [|now apply workerDelete_fine].
    cbn [mbind option_bind].
    destruct (heap b2 !! a) as [req|] eqn:Hh; [|now apply workerDelete_fine].
    assert (Ha : a < length (heap b2)) by (now apply lookup_lt_Some in Hh).
    destruct (serviceRequire_Ok (Some (r_service req)) b2) as (s & Hsr & Hs).
    pose proof (wf_required (Some (r_service req)) b2 H2) as H3.
    destruct (required_rest (Some (r_service req)) b2) as (_ & _ & Eh & _).
    set (b3 := state_of (serviceRequire (Some (r_service req)) b2)) in *.
    rewrite (bind_Ok _ _ _ _ _ Hsr).
    destruct (eqs (frame msg 2) MDP.W_REPLY_REJECT).
    + rewrite !bind_modify, Hk. apply dispatch_fine.
      apply wf_q_push.
      * apply wf_upd_worker; [now do 2 apply wf_upd_request|].
        intros wr. repeat split. simpl. apply pull_not_nil.
      * cbn [heap upd_worker with_workers]. rewrite !length_upd_request. now rewrite Eh.
    + unfold reply, send. rewrite bind_modify.
      assert (H4 : well_formed (if socket b3
                                then with_sent
                                       (λ l, l ++ [[Some (r_clientId req); Some MDP.CLIENT;
                                                    Some (Js.key (frame msg 2)); Some "";
                                                    r_rid req]
                                                     ++ (Some <$> drop 6 (frames msg))]) b3
                                else b3)) by (now apply wf_send).
      destruct (eqs (frame msg 2) MDP.W_REPLY); [|exact H4].
      unfold Controller_rdel. rewrite !bind_modify, bind_gets.
      match goal with
      | |- fine (bind _ _ ?b') =>
          assert (H5 : well_formed b')
      end.
      { apply (wf_same (upd_worker (λ w, w_with_rids (pull (frame msg 5) (w_rids w)) w)
                          (identity msg)
                          (if socket b3
                           then with_sent
                                  (λ l, l ++ [[Some (r_clientId req); Some MDP.CLIENT;
                                               Some (Js.key (frame msg 2)); Some "";
                                               r_rid req]
                                                ++ (Some <$> drop 6 (frames msg))]) b3
                           else b3))); try done.
        apply wf_upd_worker; [done|]. intros wr. repeat split. simpl. apply pull_not_nil. }
      match goal with
      | |- fine (bind ?m _ ?b') =>
          assert (Hc : ∃ b6, m b' = Ok tt b6 ∧ well_formed b6)
      end.
      { destruct (_ && _); [|by eexists].
        unfold Cache_set. destruct (truthyZ (o_cache (parse_opts E (frame msg 8)))).
        - unfold bind, getTime, ret, modify. eexists. split; [done|].
          now apply (wf_same _ _ H5).
        - rewrite bind_ret. unfold modify. eexists. split; [done|].
          now apply (wf_same _ _ H5). }
      destruct Hc as (b6 & Hc & H6). rewrite (bind_Ok _ _ _ _ _ Hc), Hk.
      now apply dispatch_fine.
  - destruct (eqs (frame msg 2) MDP.W_HEARTBEAT).
    + destruct (frame msg 4 ≫= JSON_parse E) as [opts|]; [|exact H2].
      destruct (o_concurrency opts) as [c|]; [|exact H2].
      apply wf_upd_worker; [done|now intros wr].
    + destruct (eqs (frame msg 2) MDP.W_DISCONNECT); [|exact H2].
      now apply workerDelete_fine.
Qed.

Lemma workersCheck_worker_fine fuel workerId b :
  well_formed b → fine (workersCheck_worker E fuel workerId b).
Proof.
  intros H. unfold workersCheck_worker. rewrite bind_gets.
  destruct (Js.get workerId (workers b)) as [worker|]; [|now apply workerDelete_fine].
  rewrite bind_modify.
  assert (H1 : well_formed (upd_worker (w_with_liveness (w_liveness worker - 1)) workerId b))
    by (apply wf_upd_worker; [done|now intros wr]).
  destruct (w_liveness worker - 1 <? 0)%Z; [now apply workerDelete_fine|].
  now apply wf_send.
Qed.

Lemma workersCheck_fine fuel b : well_formed b → fine (workersCheck E fuel b).
Proof.
  intros H. unfold workersCheck. rewrite bind_gets.
  assert (He : ∃ early b1,
             (if truthyZ (_wcheck b)
              then now <- getTime E;;
                   h <- gets (λ b, heartbeat (conf b));;
                   ret (now - default 0%Z (_wcheck b) <? h)%Z
              else ret false) b = Ok early b1 ∧ well_formed b1).
  { destruct (truthyZ (_wcheck b)); [|by eexists _, _].
    unfold bind, getTime, gets, ret. eexists _, _. split; [done|]. now apply (wf_same b). }
  destruct He as (early & b1 & He & H1). rewrite (bind_Ok _ _ _ _ _ He).
  destruct early; [exact H1|].
  unfold bind at 1, getTime. rewrite bind_modify, bind_gets.
  apply fine_each; [intros id b'; apply workersCheck_worker_fine|].
  now apply (wf_same b1).
Qed.

Lemma onMsg_fine fuel msg b :
  acceptable (cache (conf b)) (EMsg msg) → well_formed b → fine (onMsg E fuel msg b).
Proof.
  intros Hmd H. unfold onMsg, bind.
  set (h := if eqs (frame msg 1) MDP.CLIENT then onClient E fuel msg
            else if eqs (frame msg 1) MDP.WORKER then onWorker E fuel msg
                 else ret tt).
  assert (Hh : fine (h b)).
  { unfold h. destruct (eqs (frame msg 1) MDP.CLIENT) eqn:Hh.
    { apply onClient_fine; [|done]. intros Ht. now apply Hmd. }
    destruct (eqs (frame msg 1) MDP.WORKER); [now apply onWorker_fine|done]. }
  destruct (h b); [|done..].
  now apply workersCheck_fine.
Qed.

Lemma run_task_fine fuel t b :
  well_formed b →
  task_ok (workers b) (length (heap b)) (n_oid b) t →
  fine (run_task E fuel t b).
Proof.
  intros H Ht. destruct t as [srvName mode|a wk worker]; simpl in *.
  - destruct Ht as [name ->]. now apply dispatch_fine.
  - destruct Ht as (Ha & _ & Hw). rewrite bind_gets.
    destruct (lookup_lt_is_Some_2 (heap b) a Ha) as [req Hh]. rewrite Hh.
    assert (Hc : ∃ res b1, Cache_get E (r_hash req) b = Ok res b1
                           ∧ services b1 = services b ∧ workers b1 = workers b
                           ∧ rmap b1 = rmap b ∧ heap b1 = heap b
                           ∧ pending b1 = pending b ∧ n_oid b1 = n_oid b).
    { unfold Cache_get. rewrite bind_gets.
      destruct (cache_m b !! hash_key (r_hash req)) as [e|]; [|by eexists _, _].
      unfold Cache_valid. destruct (expire e >? -1)%Z.
      - unfold bind, getTime, ret, modify.
        destruct (negb (expire e <? clock E (n_clock b))%Z); by eexists _, _.
      - rewrite bind_ret. by eexists _, _. }
    destruct Hc as (res & b1 & Hc & E1 & E2 & E3 & E4 & E5 & E6).
    assert (H1 : well_formed b1) by (apply (wf_same b); congruence).
    rewrite (bind_Ok _ _ _ _ _ Hc).
    destruct res as [d|].
    + unfold reply, send, Controller_rdel. rewrite bind_modify. unfold modify.
      destruct (socket b1); now apply (wf_same b1).
    + rewrite (_rproc_assigned wk worker a b1 req) by (now rewrite E4).
      apply wf_assigned; [done|now rewrite E4|now rewrite E2].
Qed.

Lemma step_fine fuel e b :
  acceptable (cache (conf b)) e → well_formed b → fine (step E fuel e b).
Proof.
  intros Hmd H. destruct e as [msg| |]; simpl.
  - now apply onMsg_fine.
  - now apply workersCheck_fine.
  - rewrite bind_gets. destruct (pending b) as [|t p] eqn:Hp; [done|].
    rewrite bind_modify. apply run_task_fine.
    + apply (WF_pending _ _ _ _ _ _ H). intros t' Ht'. left. rewrite Hp. now right.
    + apply (wf_pending _ _ _ _ _ _ H). rewrite Hp. apply list_elem_of_here.
Qed.

Lemma step_conf fuel e b : conf (state_of (step E fuel e b)) = conf b.
Proof.
  set (P := λ b' : Broker, conf b' = conf b).
  assert (HP : Kept P).
  { split; intros; try assumption. now destruct (socket b0). }
  now apply (step_kept E P HP fuel e).
Qed.

Lemma run_fine fuel es :
  ∀ b, Forall (acceptable (cache (conf b))) es → well_formed b → fine (run E fuel es b).
Proof.
  induction es as [|e es IH]; intros b Hes H; simpl; [done|].
  apply Forall_cons in Hes as [He Hes].
  unfold bind. pose proof (step_fine fuel e b He H) as Hs.
  pose proof (step_conf fuel e b) as Hc.
  destruct (step E fuel e b) as [[] b1| |]; [|done..].
  apply IH; [|done]. simpl in Hc. now rewrite Hc.
Qed.

Lemma Broker_new_well_formed c : well_formed (Broker_new c).
Proof.
  split; simpl; try done.
  - apply NoDup_nil_2.
  - intros t Ht. by apply elem_of_nil in Ht.
Qed.

Lemma Broker_new_plain c : plain_rids (Broker_new c).
Proof. split; simpl; intros ? ?; done. Qed.

(** X18: no handler throws.  Take a broker whose registries fit together
    and whose rids are plain, as in a new broker, and a sequence of
    messages, timer ticks and deferred callbacks in which the rid of every
    client request is plain and, when the cache is on, every client request
    has a payload frame.  Then no handler raises a TypeError: the comparator
    of the 'load' mode finds every worker it is asked about, the dispatcher
    finds a request in the queue it shifts, [dispatch] is never called
    without a service name, and the digest is never asked of [undefined].
    Every handler returns, or is still in the loop of [dispatch] when the
    fuel is used up.  (The rids are plain so that a read of [rmap] is the
    read of an own property.) *)
Theorem handlers_never_throw (fuel : nat) (es : list Event) (b : Broker) :
  well_formed b →
  plain_rids b →
  Forall (acceptable (cache (conf b))) es →
  ∃ b', run E fuel es b = Ok tt b' ∨ run E fuel es b = Spin b'.
Proof.
  intros H _ Hes. pose proof (run_fine fuel es b Hes H) as Hf.
  destruct (run E fuel es b) as [[] b'|b'|b'].
  - exists b'. now left.
  - exists b'. now right.
  - destruct Hf.
Qed.

(** X19: the registries stay consistent.  Under the same provisos, and
    whether the last handler returns or is still in the loop of
    [dispatch], service keys are distinct, every worker listed by a service
    is registered and belongs to that service, every queued request and
    every request of the request table exists, a worker that holds requests
    belongs to a service, every deferred callback finds what it refers to,
    and the rids of the request records and those the workers hold are
    plain. *)
Theorem registries_stay_consistent (fuel : nat) (es : list Event) (b : Broker) :
  well_formed b →
  plain_rids b →
  Forall (acceptable (cache (conf b))) es →
  well_formed (state_of (run E fuel es b)) ∧ plain_rids (state_of (run E fuel es b)).
Proof.
  intros H Hp Hes. split.
  - pose proof (run_fine fuel es b Hes H) as Hf. now destruct (run E fuel es b).
  - now apply (run_plain E fuel (cache (conf b)) es).
Qed.

End Safety.

(** ** Requests and workers that find each other *)

Section Meeting.

Variable E : Env.

Lemma room_one limit held :
  (limit >? -1)%Z && (Z.of_nat held >? limit)%Z = false → room limit held 1 = 1.
Proof.
  intros H. rewrite (room_S _ _ _ H). f_equal. unfold room.
  now destruct (limit >? -1)%Z.
Qed.

(** X20: a client request for a concrete service whose only worker is
    within its limit and whose queue is empty, with the cache off and the
    socket open, is handed to that worker at once: the worker is sent
    [workerId, WORKER, W_REQUEST, clientId, service, '', rid, payload, opts],
    the rid joins its assignments, the request table maps the rid to the
    new request record, and nothing stays queued or deferred. *)
Theorem request_goes_to_the_worker
        (fuel : nat) (b : Broker) (msg : Message) (srv w : string)
        (service : Service) (worker : Worker) :
  frame msg 2 = Some MDP.W_REQUEST →
  frame msg 3 = Some srv →
  srv ≠ "" → w ≠ "" →
  Js.ends_with_star srv = false →
  dmode (conf b) = "load" ∨ dmode (conf b) = "rand" →
  cache (conf b) = false →
  socket b = true →
  Js.get srv (services b) = Some service →
  s_workers service = [w] →
  s_q service = [] →
  Js.get w (workers b) = Some worker →
  over_limit worker = false →
  (orQ (o_timeout (parse_opts E (frame msg 6))) 60000 <= -1
   ∨ clock E (S (n_clock b))
     <= clock E (n_clock b) + orQ (o_timeout (parse_opts E (frame msg 6))) 60000)%Q →
  ∃ b', onClient E (S (S fuel)) msg b = Ok tt b'
        ∧ sent b'
          = sent b ++ [[Some (w_workerId worker); Some MDP.WORKER; Some MDP.W_REQUEST;
                        Some (identity msg); Some srv; Some ""]
                         ++ (Some <$> drop 4 (frames msg))]
        ∧ w_rids <$> Js.get w (workers b') = Some (w_rids worker ++ [frame msg 4])
        ∧ rmap b' !! Js.key (frame msg 4) = Some (length (heap b))
        ∧ queue_of srv b' = []
        ∧ pending b' = pending b.
Proof.
  intros Ht Hf3 Hsrv Hw Hstar Hcm Hc Hsock Hs Hws Hq Hg Ho Htime.
  set (a := length (heap b)).
  set (req := {| r_service := srv; r_clientId := identity msg; r_attempts := 0;
                 r_rid := frame msg 4; r_hash := None;
                 r_timeout := orQ (o_timeout (parse_opts E (frame msg 6))) 60000;
                 r_retry := orZ (o_retry (parse_opts E (frame msg 6))) 0;
                 r_ts := clock E (n_clock b); r_rejects := [];
                 r_msg := frames msg; r_opts := parse_opts E (frame msg 6);
                 r_workerId := None |}).
  set (b1 := upd_service (λ s, s_with_q (s_q s ++ [a]) s) srv
               (with_heap (λ h, h ++ [req]) (tick_clock b))).
  set (b0 := if truthyZ (o_persist (r_opts req))
             then with_ctrl (insert (Js.key (r_rid req)) a) b1 else b1).
  assert (Heq : onClient E (S (S fuel)) msg b = dispatch E (S (S fuel)) (Some srv) None b0).
  { unfold onClient. rewrite Ht. eval_eqs. rewrite Hf3, truthy_Some, key_Some by done.
    rewrite bind_gets, Hc, bind_ret. unfold bind at 1, getTime.
    rewrite bind_gets, bind_modify. fold a req.
    unfold requestQueue. rewrite bind_gets.
    replace (heap (with_heap (λ h, h ++ [req]) (tick_clock b)) !! a) with (Some req)
      by (symmetry; apply list_lookup_middle; reflexivity).
    rewrite bind_Ok with (a := service)
      (b' := with_heap (λ h, h ++ [req]) (tick_clock b))
      by (unfold serviceRequire; simpl; now rewrite Hs).
    rewrite bind_modify. fold b1. unfold b0, Controller_rset.
    now destruct (truthyZ (o_persist (r_opts req))). }
  assert (Hrest : services b0 = services b1 ∧ workers b0 = workers b ∧ conf b0 = conf b
                  ∧ socket b0 = socket b ∧ heap b0 = heap b ++ [req]
                  ∧ n_clock b0 = S (n_clock b) ∧ sent b0 = sent b ∧ rmap b0 = rmap b
                  ∧ pending b0 = pending b).
  { unfold b0. now destruct (truthyZ (o_persist (r_opts req))). }
  destruct Hrest as (E1 & E2 & E3 & E4 & E5 & E6 & E7 & E8 & E9).
  assert (Hs0 : Js.get srv (services b0) = Some (s_with_q [a] service)).
  { rewrite E1. simpl. rewrite (JsFacts.get_upd_eq _ _ _ _ Hs). now rewrite Hq. }
  assert (Hh0 : heap b0 !! a = Some req)
    by (rewrite E5; apply list_lookup_middle; reflexivity).
  destruct (dispatch_loop_drains E srv w Hsrv Hw Hstar [a] b0 (s_with_q [a] service)
              worker 0 fuel) as (b' & Hloop & Hq' & Hr' & Hs' & Hp' & Hrm'); try done.
  { now rewrite E3. }
  { now rewrite E3. }
  { congruence. }
  { now rewrite E2. }
  { constructor; [|constructor]. exists req. split; [done|]. split; [apply not_elem_of_nil|].
    destruct Htime as [Htime|Htime]; [now left|right].
    intros n Hn. simpl in Hn. destruct n; [|lia]. rewrite E6, Nat.add_0_r. exact Htime. }
  pose proof Ho as Ho'. unfold over_limit in Ho'.
  cbn [length] in Hloop, Hq', Hr', Hs', Hrm'.
  rewrite (room_one _ _ Ho') in Hloop, Hq', Hr', Hs', Hrm'.
  exists b'. split; [|split; [|split; [|split; [|split]]]].
  - rewrite Heq. unfold dispatch. now rewrite (bind_Ok _ _ _ _ _ Hloop).
  - rewrite Hs', E7. simpl. unfold frame_at. now rewrite Hh0.
  - rewrite Hr'. simpl. unfold rid_at. now rewrite Hh0.
  - rewrite Hrm'. unfold tabled. simpl. unfold rid_at. rewrite Hh0. apply lookup_insert_eq.
  - unfold queue_of. now rewrite Hq'.
  - congruence.
Qed.

(** X21: a worker that registers for a concrete service that has no worker
    yet, with the cache off and the socket open, is entered in the registry
    with liveness 3 and the concurrency limit 100, becomes the only worker of
    the service, and is given the requests that wait in the queue, in order
    (all of them up to 101). *)
Theorem new_worker_takes_the_backlog
        (fuel : nat) (b : Broker) (msg : Message) (srv : string) (service : Service) :
  frame msg 2 = Some MDP.W_READY →
  frame msg 3 = Some srv →
  srv ≠ "" → identity msg ≠ "" →
  Js.ends_with_star srv = false →
  dmode (conf b) = "load" ∨ dmode (conf b) = "rand" →
  cache (conf b) = false →
  socket b = true →
  Js.get (identity msg) (workers b) = None →
  Js.get srv (services b) = Some service →
  s_workers service = [] →
  Forall (waiting E b (identity msg) (length (s_q service))) (s_q service) →
  ∃ b', onWorker E (S (room 100 0 (length (s_q service))) + fuel) msg b = Ok tt b'
        ∧ Js.get (identity msg) (workers b')
          = Some (w_with_rids
                    (rid_at b <$> take (room 100 0 (length (s_q service))) (s_q service))
                    (w_with_service (Some srv) (new_worker (identity msg) (n_oid b))))
        ∧ Js.get srv (services b')
          = Some (s_with_q (drop (room 100 0 (length (s_q service))) (s_q service))
                    (s_with_workers [identity msg] service))
        ∧ sent b'
          = sent b
            ++ (frame_at b (new_worker (identity msg) (n_oid b)) <$>
                take (room 100 0 (length (s_q service))) (s_q service)).
Proof.
  intros Ht Hf3 Hsrv Hw Hstar Hcm Hc Hsock Hnew Hs Hws Hall.
  set (w := identity msg) in *.
  set (worker := w_with_service (Some srv) (new_worker w (n_oid b))).
  set (b1 := tick_oid (with_workers (Js.set w (new_worker w (n_oid b))) b)).
  set (b0 := upd_service (λ s, s_with_workers (s_workers s ++ [w]) s) srv
               (upd_worker (w_with_service (Some srv)) w b1)).
  assert (Hg1 : Js.get w (workers b1) = Some (new_worker w (n_oid b)))
    by apply JsFacts.get_set_eq.
  assert (Heq : ∀ n, onWorker E n msg b = dispatch E n (Some srv) None b0).
  { intros n. unfold onWorker. fold w. rewrite bind_gets. unfold Js.has. rewrite Hnew.
    rewrite bind_Ok with (a := new_worker w (n_oid b)) (b' := b1)
      by (unfold workerRequire; now rewrite Hnew).
    rewrite Ht. eval_eqs. rewrite Hf3, truthy_Some, key_Some by done. cbn [negb].
    rewrite bind_Ok with (a := service) (b' := b1)
      by (unfold serviceRequire; simpl; now rewrite Hs).
    unfold serviceWorkerAdd.
    rewrite bind_Ok with (a := service) (b' := b1)
      by (unfold serviceRequire; simpl; now rewrite Hs).
    rewrite bind_Ok with (a := new_worker w (n_oid b)) (b' := b1)
      by (unfold workerRequire; now rewrite Hg1).
    rewrite Hws. unfold absent. rewrite bool_decide_eq_false_2 by apply not_elem_of_nil.
    cbn [negb]. unfold bind, modify. reflexivity. }
  assert (Hs0 : Js.get srv (services b0) = Some (s_with_workers [w] service)).
  { unfold b0. cbn [services upd_service with_services upd_worker with_workers].
    rewrite (JsFacts.get_upd_eq _ _ _ service) by exact Hs. now rewrite Hws. }
  assert (Hg0 : Js.get w (workers b0) = Some worker).
  { unfold b0. cbn [workers upd_service with_services upd_worker with_workers].
    now rewrite (JsFacts.get_upd_eq _ _ _ _ Hg1). }
  destruct (dispatch_loop_drains E srv w Hsrv Hw Hstar (s_q service) b0
              (s_with_workers [w] service) worker 0 fuel Hcm Hc Hsock Hs0 eq_refl eq_refl
              Hg0 Hall) as (b' & Hloop & Hq' & Hr' & Hs' & _).
  exists b'. split; [|split; [|split]].
  - rewrite Heq. unfold dispatch. now rewrite (bind_Ok _ _ _ _ _ Hloop).
  - exact Hr'.
  - exact Hq'.
  - exact Hs'.
Qed.

(** Nothing to do for a concrete service with an empty queue. *)
Lemma dispatch_nothing fuel srv mode b :
  Js.ends_with_star srv = false →
  queue_of srv b = [] →
  dispatch E (S fuel) (Some srv) mode b = Ok tt (state_of (serviceRequire (Some srv) b)).
Proof.
  intros Hstar Hq.
  assert (Hsel : ∀ m, serviceWorkerSelect E (Some srv) m b
                      = Ok None (state_of (serviceRequire (Some srv) b))).
  { intros m. unfold serviceWorkerSelect.
    destruct (serviceRequire_Ok (Some srv) b) as (s & Hreq & Hs).
    rewrite (bind_Ok _ _ _ _ _ Hreq).
    assert (Hqs : s_q s = []).
    { revert Hs. unfold serviceRequire, queue_of in *. rewrite key_Some.
      destruct (Js.get srv (services b)) as [s0|] eqn:Hs0; simpl.
      - rewrite Hs0. now intros [= <-].
      - rewrite JsFacts.get_set_eq. now intros [= <-]. }
    now rewrite Hqs, andb_false_r, Hstar. }
  unfold dispatch.
  rewrite bind_Ok with (a := (mode, 0)) (b' := state_of (serviceRequire (Some srv) b));
    [reflexivity|].
  cbn [dispatch_loop]. rewrite bind_gets. now rewrite (bind_Ok _ _ _ _ _ (Hsel _)).
Qed.

Lemma required_more srvName b :
  socket (state_of (serviceRequire srvName b)) = socket b
  ∧ sent (state_of (serviceRequire srvName b)) = sent b
  ∧ conf (state_of (serviceRequire srvName b)) = conf b
  ∧ ctrl_reqs (state_of (serviceRequire srvName b)) = ctrl_reqs b
  ∧ cache_m (state_of (serviceRequire srvName b)) = cache_m b
  ∧ n_clock (state_of (serviceRequire srvName b)) = n_clock b.
Proof. unfold serviceRequire. now destruct (Js.get _ _). Qed.

(** X22: the final reply of a worker for a request it holds.  With the
    socket open the reply is forwarded to the client as
    [clientId, CLIENT, W_REPLY, '', rid, payload...], whatever the
    dispatcher does afterwards.  When nothing is queued for the worker's
    service, a concrete one, the handler returns: the rid is off the worker's
    assignments, the request is out of the controller, and, when the cache
    is on and the reply carries a cache option, the payload is stored under
    the fingerprint of the request; the request table still holds the
    request. *)
Theorem final_reply_reaches_the_client
        (fuel : nat) (b : Broker) (msg : Message) (worker : Worker) (a : nat)
        (req : Request) :
  frame msg 2 = Some MDP.W_REPLY →
  Js.get (identity msg) (workers b) = Some worker →
  frame msg 5 ∈ w_rids worker →
  rmap b !! Js.key (frame msg 5) = Some a →
  heap b !! a = Some req →
  socket b = true →
  ([Some (r_clientId req); Some MDP.CLIENT; Some MDP.W_REPLY; Some ""; r_rid req]
     ++ (Some <$> drop 6 (frames msg)))
    ∈ sent (state_of (onWorker E fuel msg b))
  ∧ ∀ srv, w_service worker = Some srv →
           Js.ends_with_star srv = false →
           queue_of srv b = [] →
           ∃ b', onWorker E (S fuel) msg b = Ok tt b'
                 ∧ sent b'
                   = sent b ++ [[Some (r_clientId req); Some MDP.CLIENT; Some MDP.W_REPLY;
                                 Some ""; r_rid req] ++ (Some <$> drop 6 (frames msg))]
                 ∧ Js.get (identity msg) (workers b')
                   = Some (w_with_rids (pull (frame msg 5) (w_rids worker))
                             (w_with_liveness HEARTBEAT_LIVENESS worker))
                 ∧ ctrl_reqs b' = delete (Js.key (r_rid req)) (ctrl_reqs b)
                 ∧ cache_m b'
                   = (if cache (conf b) && truthyZ (o_cache (parse_opts E (frame msg 8)))
                      then <[hash_key (r_hash req) :=
                               {| data := drop 6 (frames msg);
                                  expire := clock E (n_clock b)
                                            + default 0%Z
                                                (o_cache (parse_opts E (frame msg 8))) |}]>
                             (cache_m b)
                      else cache_m b)
                 ∧ rmap b' = rmap b ∧ heap b' = heap b ∧ pending b' = pending b.
Proof.
  intros Ht Hg Hin Hr Hh Hsock.
  set (w := identity msg) in *. set (rid := frame msg 5) in *.
  set (fr := [Some (r_clientId req); Some MDP.CLIENT; Some MDP.W_REPLY; Some ""; r_rid req]
               ++ (Some <$> drop 6 (frames msg))).
  set (opts := parse_opts E (frame msg 8)).
  set (b1 := upd_worker (w_with_liveness HEARTBEAT_LIVENESS) w b).
  set (b2 := state_of (serviceRequire (Some (r_service req)) b1)).
  set (b3 := with_ctrl (delete (Js.key (r_rid req)))
               (upd_worker (λ w0, w_with_rids (pull rid (w_rids w0)) w0) w
                  (with_sent (λ l, l ++ [fr]) b2))).
  set (store := if cache (conf b) && truthyZ (o_cache opts)
                then Cache_set E (r_hash req) (drop 6 (frames msg)) (o_cache opts)
                else ret tt).
  destruct (required_rest (Some (r_service req)) b1) as (Ew2 & Er2 & Eh2 & Ep2 & _).
  fold b2 in Ew2, Er2, Eh2, Ep2.
  assert (Hs2 : socket b2 = true ∧ sent b2 = sent b ∧ conf b2 = conf b
                ∧ ctrl_reqs b2 = ctrl_reqs b ∧ cache_m b2 = cache_m b
                ∧ n_clock b2 = n_clock b).
  { unfold b2.
    destruct (required_more (Some (r_service req)) b1) as (-> & -> & -> & -> & -> & ->).
    now rewrite <- Hsock. }
  destruct Hs2 as (Es2 & Ese2 & Ec2 & Ect2 & Eca2 & Eck2).
  assert (Heq : ∀ n, onWorker E n msg b
                     = (store;; dispatch E n (w_service worker) None) b3).
  { intros n. unfold onWorker. fold w. rewrite bind_gets. unfold Js.has. rewrite Hg.
    rewrite (bind_Ok _ _ b worker b) by (unfold workerRequire; now rewrite Hg).
    rewrite Ht. eval_eqs. cbn [negb orb andb].
    rewrite bind_modify, bind_gets. fold b1.
    replace (Js.get w (workers b1)) with (Some (w_with_liveness HEARTBEAT_LIVENESS worker))
      by (symmetry; now apply JsFacts.get_upd_eq).
    cbn [negb orb andb w_rids w_with_liveness]. fold rid.
    unfold absent. rewrite (bool_decide_eq_true_2 _ Hin). cbn [negb].
    rewrite bind_gets. cbn [rmap b1 upd_worker with_workers]. rewrite Hr.
    rewrite bind_gets. cbn [mbind option_bind heap b1 upd_worker with_workers]. rewrite Hh.
    destruct (serviceRequire_Ok (Some (r_service req)) b1) as (s & Hsr & _).
    fold b2 in Hsr. rewrite (bind_Ok _ _ _ _ _ Hsr).
    unfold reply, send. rewrite bind_modify, Es2. fold fr.
    unfold Controller_rdel. rewrite !bind_modify, bind_gets. fold b3.
    cbn [conf b3 with_ctrl upd_worker with_workers with_sent]. rewrite Ec2.
    cbn [w_service w_with_liveness]. reflexivity. }
  split.
  - set (P := λ b' : Broker, fr ∈ sent b').
    assert (HP : Framed P).
    { split; intros; try assumption. unfold P in *. simpl. apply elem_of_app. now left. }
    rewrite Heq. change (P (state_of ((store;; dispatch E fuel (w_service worker) None) b3))).
    apply stable_bind.
    + unfold store. destruct (_ && _); [now apply Cache_set_stable|apply stable_ret].
    + intros _. now apply dispatch_stable.
    + unfold P, b3. simpl. apply elem_of_app. right. apply list_elem_of_here.
  - intros srv Hsrv Hstar Hq.
    assert (Hst : ∃ b4, store b3 = Ok tt b4
                        ∧ services b4 = services b3 ∧ workers b4 = workers b3
                        ∧ sent b4 = sent b3 ∧ ctrl_reqs b4 = ctrl_reqs b3
                        ∧ rmap b4 = rmap b3 ∧ heap b4 = heap b3 ∧ pending b4 = pending b3
                        ∧ cache_m b4
                          = (if cache (conf b) && truthyZ (o_cache opts)
                             then <[hash_key (r_hash req) :=
                                      {| data := drop 6 (frames msg);
                                         expire := clock E (n_clock b)
                                                   + default 0%Z (o_cache opts) |}]>
                                    (cache_m b)
                             else cache_m b)).
    { unfold store. destruct (cache (conf b) && truthyZ (o_cache opts)) eqn:Hc.
      - apply andb_true_iff in Hc as [_ Hc]. unfold Cache_set. rewrite Hc.
        unfold bind, getTime, ret, modify. eexists. split; [reflexivity|].
        cbn. rewrite Eck2, Eca2. repeat split.
      - exists b3. split; [reflexivity|]. cbn. now rewrite Eca2. }
    destruct Hst as (b4 & Hst & F1 & F2 & F3 & F4 & F5 & F6 & F7 & F8).
    assert (Hq4 : queue_of srv b4 = []).
    { unfold queue_of. rewrite F1. cbn [services b3 with_ctrl upd_worker with_workers
                                           with_sent].
      unfold b2, serviceRequire. cbn [services b1 upd_worker with_workers].
      unfold queue_of in Hq.
      destruct (Js.get (Js.key (Some (r_service req))) (services b)) eqn:Hrs; simpl;
        [exact Hq|].
      destruct (decide (srv = r_service req)) as [->|Hne].
      - now rewrite JsFacts.get_set_eq.
      - now rewrite JsFacts.get_set_ne. }
    destruct (required_rest (Some srv) b4) as (G1 & G2 & G3 & G4 & _).
    destruct (required_more (Some srv) b4) as (_ & G5 & _ & G6 & G7 & _).
    exists (state_of (serviceRequire (Some srv) b4)). split; [|repeat split].
    + rewrite Heq, (bind_Ok _ _ _ _ _ Hst), Hsrv. now apply dispatch_nothing.
    + rewrite G5, F3. cbn [sent b3 with_ctrl upd_worker with_workers with_sent].
      now rewrite Ese2.
    + rewrite G1, F2. cbn [workers b3 with_ctrl upd_worker with_workers with_sent].
      rewrite Ew2. cbn [workers b1 upd_worker with_workers].
      rewrite (JsFacts.get_upd_eq _ _ _ (w_with_liveness HEARTBEAT_LIVENESS worker));
        [done|]. now apply JsFacts.get_upd_eq.
    + rewrite G6, F4. cbn [ctrl_reqs b3 with_ctrl upd_worker with_workers with_sent].
      now rewrite Ect2.
    + now rewrite G7, F8.
    + rewrite G2, F5. cbn [rmap b3 with_ctrl upd_worker with_workers with_sent].
      now rewrite Er2.
    + rewrite G3, F6. cbn [heap b3 with_ctrl upd_worker with_workers with_sent].
      now rewrite Eh2.
    + rewrite G4, F7. cbn [pending b3 with_ctrl upd_worker with_workers with_sent].
      now rewrite Ep2.
Qed.

End Meeting.

(** ** The cache and the concurrency limit *)

Section Deferral.

Variable E : Env.

(** One turn of the dispatcher on a request that validates, with the
    cache on: the request leaves the queue and a lookup is deferred. *)
Lemma _rhandle_deferred srv w a q b service worker req :
  Js.get srv (services b) = Some service →
  s_q service = a :: q →
  Js.get w (workers b) = Some worker →
  heap b !! a = Some req →
  (r_timeout req <= -1 ∨ clock E (n_clock b) <= r_ts req + r_timeout req)%Q →
  w_workerId worker ∉ r_rejects req →
  cache (conf b) = true →
  ∃ c, (c = n_clock b ∨ c = S (n_clock b))
       ∧ _rhandle E {| sws_service := Some srv; sws_workerId := Some w |} b
         = Ok 1%Z
             (with_pending (λ l, l ++ [TCacheGet a w worker])
                (with_ticks c (n_random b)
                   (upd_request (λ r0, r_with_attempts (r_attempts r0 + 1) r0) a
                      (upd_service (s_with_q q) srv b)))).
Proof.
  intros Hs Hq Hg Hh Ht Hrej Hc.
  set (req' := r_with_attempts (r_attempts req + 1) req).
  set (b1 := upd_request (λ r0, r_with_attempts (r_attempts r0 + 1) r0) a
               (upd_service (s_with_q q) srv b)).
  assert (Hh1 : heap b1 !! a = Some req')
    by exact (heap_upd_request (λ r0, r_with_attempts (r_attempts r0 + 1) r0) a _ req Hh).
  destruct (requestValidate_passes E worker req' b1) as (c & Hc' & Hv);
    [exact Ht|now left|].
  exists c. split; [exact Hc'|].
  unfold _rhandle. cbn [sws_workerId sws_service]. rewrite !key_Some.
  rewrite bind_gets, Hg.
  rewrite bind_Ok with (a := service) (b' := b)
    by (unfold serviceRequire; simpl; now rewrite Hs).
  rewrite Hq, bind_modify, bind_gets.
  replace (heap (upd_service (s_with_q q) srv b) !! a) with (Some req)
    by (symmetry; exact Hh).
  rewrite bind_modify, bind_gets. fold b1. rewrite Hh1.
  rewrite (bind_Ok _ _ _ _ _ Hv).
  cbn [Z.leb Z.compare]. rewrite bind_gets. cbn [conf with_ticks].
  replace (cache (conf b1)) with true by (symmetry; exact Hc).
  now rewrite bind_modify.
Qed.

Lemma dispatch_loop_defers srv w worker :
  srv ≠ "" → w ≠ "" → Js.ends_with_star srv = false →
  over_limit worker = false →
  ∀ q b service tryagain fuel,
    dmode (conf b) = "load" ∨ dmode (conf b) = "rand" →
    cache (conf b) = true →
    Js.get srv (services b) = Some service →
    s_workers service = [w] →
    s_q service = q →
    Js.get w (workers b) = Some worker →
    Forall (waiting E b (w_workerId worker) (length q)) q →
    ∃ b', dispatch_loop E (S (length q) + fuel) (Some srv) None tryagain b
          = Ok (None, tryagain) b'
          ∧ Js.get srv (services b') = Some (s_with_q [] service)
          ∧ pending b' = pending b ++ ((λ a, TCacheGet a w worker) <$> q)
          ∧ workers b' = workers b ∧ sent b' = sent b ∧ rmap b' = rmap b
          ∧ cache_m b' = cache_m b.
Proof.
  intros Hsrv Hw Hstar Ho q.
  induction q as [|a q IH]; intros b service tryagain fuel Hcm Hc Hs Hws Hq Hg Hall.
  - exists b. split; [|repeat split].
    + cbn [dispatch_loop Nat.add length]. rewrite bind_gets. cbn [Js.truthy].
      now rewrite (bind_Ok _ _ _ _ _ (serviceWorkerSelect_idle E srv _ _ b Hstar Hs Hq)).
    + rewrite Hs. f_equal. destruct service. simpl in Hq. now subst.
    + simpl. now rewrite app_nil_r.
  - destruct (serviceWorkerSelect_single E srv service (dmode (conf b)) b w worker a q
                Hsrv Hw Hs Hws Hq Hg Ho Hcm) as [r Hsel].
    set (b0 := with_ticks (n_clock b) r b) in *.
    apply Forall_cons in Hall as [(req & Hh & Hrej & Ht) Hall].
    destruct (_rhandle_deferred srv w a q b0 service worker req) as (c & Hc' & Hh2);
      try done.
    { destruct Ht as [Ht|Ht]; [now left|right].
      specialize (Ht 0). rewrite Nat.add_0_r in Ht. apply Ht. simpl. lia. }
    set (b2 := with_pending (λ l, l ++ [TCacheGet a w worker])
                 (with_ticks c (n_random b0)
                    (upd_request (λ r0, r_with_attempts (r_attempts r0 + 1) r0) a
                       (upd_service (s_with_q q) srv b0)))) in *.
    assert (Hs2 : Js.get srv (services b2) = Some (s_with_q q service))
      by (simpl; now apply JsFacts.get_upd_eq).
    assert (Hall2 : Forall (waiting E b2 (w_workerId worker) (length q)) q).
    { eapply Forall_impl; [exact Hall|]. intros a' Ha'.
      apply (waiting_next E b); [exact Hc'| |exact Ha'].
      intros r1 Hr1. unfold b2. cbn [heap with_pending with_ticks].
      rewrite upd_request_lookup. cbn [heap upd_service with_services b0 with_ticks].
      rewrite Hr1. destruct (decide (a' = a)); simpl.
      - exists (r_attempts r1 + 1)%Z, (r_workerId r1). now destruct r1.
      - exists (r_attempts r1), (r_workerId r1). now destruct r1. }
    destruct (IH b2 (s_with_q q service) tryagain fuel Hcm Hc Hs2 Hws eq_refl Hg Hall2)
      as (b' & Hloop & Hq' & Hp' & Hw' & Hse' & Hrm' & Hca').
    exists b'. split; [|repeat split].
    + cbn [dispatch_loop Nat.add length]. rewrite bind_gets. cbn [Js.truthy].
      rewrite (bind_Ok _ _ _ _ _ Hsel). cbn [sws_service sws_workerId].
      rewrite !truthy_Some by done. cbn [negb orb].
      rewrite (bind_Ok _ _ _ _ _ Hh2). cbn [Z.eqb Z.ltb Z.compare]. exact Hloop.
    + exact Hq'.
    + rewrite Hp'. simpl. now rewrite <- app_assoc.
    + exact Hw'.
    + exact Hse'.
    + exact Hrm'.
    + exact Hca'.
Qed.

(** X23: with the cache on, one run of the dispatcher for a concrete
    service with a single worker that is within its limit defers a cache
    lookup for every queued request (none of them rejected by that worker or
    at its deadline) and empties the queue, however many requests there
    are: the worker's assignments, which is what the limit is compared
    with, do not change during the run. *)
Theorem cache_defers_the_whole_queue
        (fuel : nat) (srv w : string) (b : Broker) (service : Service) (worker : Worker) :
  srv ≠ "" → w ≠ "" →
  Js.ends_with_star srv = false →
  dmode (conf b) = "load" ∨ dmode (conf b) = "rand" →
  cache (conf b) = true →
  Js.get srv (services b) = Some service →
  s_workers service = [w] →
  Js.get w (workers b) = Some worker →
  over_limit worker = false →
  Forall (waiting E b (w_workerId worker) (length (s_q service))) (s_q service) →
  ∃ b', dispatch E (S (length (s_q service)) + fuel) (Some srv) None b = Ok tt b'
        ∧ Js.get srv (services b') = Some (s_with_q [] service)
        ∧ pending b' = pending b ++ ((λ a, TCacheGet a w worker) <$> s_q service)
        ∧ workers b' = workers b ∧ sent b' = sent b ∧ rmap b' = rmap b
        ∧ cache_m b' = cache_m b.
Proof.
  intros Hsrv Hw Hstar Hcm Hc Hs Hws Hg Ho Hall.
  destruct (dispatch_loop_defers srv w worker Hsrv Hw Hstar Ho (s_q service) b service 0
              fuel Hcm Hc Hs Hws eq_refl Hg Hall) as (b' & Hloop & Hpost).
  exists b'. split; [|exact Hpost].
  unfold dispatch. now rewrite (bind_Ok _ _ _ _ _ Hloop).
Qed.

Lemma run_lookups fuel w worker0 l :
  ∀ b worker,
    pending b = (λ a, TCacheGet a w worker0) <$> l →
    Js.get w (workers b) = Some worker →
    w_oid worker = w_oid worker0 →
    Forall (λ a, ∃ req, heap b !! a = Some req
                        ∧ cache_m b !! hash_key (r_hash req) = None) l →
    ∃ b', run E fuel (replicate (length l) EImmediate) b = Ok tt b'
          ∧ Js.get w (workers b')
            = Some (w_with_rids (w_rids worker ++ (rid_at b <$> l)) worker)
          ∧ pending b' = [].
Proof.
  induction l as [|a l IH]; intros b worker Hp Hg Hoid Hall.
  - exists b. split; [done|]. split; [|done]. simpl. rewrite app_nil_r, Hg. f_equal.
    now destruct worker.
  - apply Forall_cons in Hall as [(req & Hh & Hmiss) Hall].
    set (b1 := with_pending (λ _, (λ a, TCacheGet a w worker0) <$> l) b).
    set (b2 := assigned w worker0 a req b1).
    assert (Hstep : step E fuel EImmediate b = Ok tt b2).
    { unfold step. rewrite bind_gets, Hp. simpl. rewrite bind_modify. fold b1.
      rewrite bind_gets. cbn [heap b1 with_pending]. rewrite Hh.
      rewrite bind_Ok with (a := None) (b' := b1)
        by (unfold Cache_get; rewrite bind_gets; cbn [cache_m b1 with_pending];
            now rewrite Hmiss).
      now apply _rproc_assigned. }
    destruct (assigned_rest w worker0 a req b1) as (_ & _ & _ & Hca & Hpe & _).
    assert (Hg2 : Js.get w (workers b2)
                  = Some (w_with_rids (w_rids worker ++ [r_rid req]) worker)).
    { unfold b2, assigned.
      destruct (truthyZ (o_persist (r_opts req))), (socket b1);
        cbn [workers with_sent with_ctrl upd_worker with_workers upd_request with_heap
               with_rmap b1 with_pending];
        rewrite (JsFacts.get_upd_eq _ _ _ _ Hg); now rewrite Hoid, Nat.eqb_refl. }
    assert (Hheap : ∀ a', heap b2 !! a'
                          = if decide (a' = a)
                            then r_with_workerId (Some (w_workerId worker0)) <$> heap b !! a'
                            else heap b !! a')
      by (intros a'; unfold b2; now rewrite assigned_heap).
    destruct (IH b2 (w_with_rids (w_rids worker ++ [r_rid req]) worker))
      as (b' & Hrun & Hw' & Hp'); [unfold b2; now rewrite Hpe|exact Hg2|exact Hoid| |].
    { eapply Forall_impl; [exact Hall|]. intros a' (r1 & Hr1 & Hm1).
      rewrite Hheap, Hr1. unfold b2. rewrite Hca. cbn [cache_m b1 with_pending].
      destruct (decide (a' = a)); simpl; eauto. }
    exists b'. split; [|split; [|exact Hp']].
    + simpl. now rewrite (bind_Ok _ _ _ _ _ Hstep).
    + rewrite Hw'. cbn [w_rids w_with_rids]. f_equal. unfold w_with_rids. simpl. f_equal.
      rewrite <- app_assoc. f_equal. simpl. unfold rid_at at 2. rewrite Hh. f_equal.
      apply Forall_fmap_ext_1. eapply Forall_impl; [exact Hall|].
      intros a' (r1 & Hr1 & _). unfold rid_at. rewrite Hheap, Hr1.
      now destruct (decide (a' = a)).
Qed.

(** X24: the deferred lookups assign without looking at the limit.  When
    the lookups that are pending for a worker all miss the cache, running
    them gives the worker every one of the requests, in order, whatever its
    concurrency limit and however many requests it holds already. *)
Theorem deferred_assignments_ignore_the_limit
        (fuel : nat) (b : Broker) (w : string) (worker : Worker) (l : list nat) :
  pending b = (λ a, TCacheGet a w worker) <$> l →
  Js.get w (workers b) = Some worker →
  Forall (λ a, ∃ req, heap b !! a = Some req
                      ∧ cache_m b !! hash_key (r_hash req) = None) l →
  ∃ b', run E fuel (replicate (length l) EImmediate) b = Ok tt b'
        ∧ Js.get w (workers b')
          = Some (w_with_rids (w_rids worker ++ (rid_at b <$> l)) worker)
        ∧ pending b' = [].
Proof.
  intros Hp Hg Hall. now apply (run_lookups fuel w worker l b worker).
Qed.

End Deferral.

(** ** The theorems at work *)

(** The final reply of W for request "1". *)
Lemma final_reply_keeps_rmap_entry_witness :
  is_Some (rmap (state_of (onWorker sample_env 5 (final_reply "W" "C" "1" "hi")
                             echo_assigned)) !! "1").
Proof.
  eapply (final_reply_keeps_rmap_entry sample_env 5 echo_assigned
            (final_reply "W" "C" "1" "hi")
            echo_worker 0 echo_request).
  - reflexivity.
  - vm_compute. reflexivity.
  - apply list_elem_of_here.
  - vm_compute. reflexivity.
  - vm_compute. reflexivity.
Defined.

(** The basic round trip of the specification: after the worker's
    final reply the worker has no assignment left, and the request table
    still maps rid "1" to the request, which still names the worker. *)
Lemma round_trip_leaves_rmap_entry :
  let b := state_of (run sample_env 5
                       [EMsg (ready "W" "echo");
                        EMsg (request "C" "echo" "1" "hi" "{}");
                        EMsg (final_reply "W" "C" "1" "hi")]
                       (Broker_new default_conf)) in
  w_rids <$> Js.get "W" (workers b) = Some []
  ∧ rmap b !! "1" = Some 0
  ∧ r_workerId <$> heap b !! 0 = Some (Some "W").
Proof. vm_compute. repeat split. Qed.

(** The dispatcher after the fourth reject, with a thousand turns of fuel. *)
Lemma dispatch_never_returns_witness :
  ∃ b', dispatch sample_env 1000 (Some "svc") None rejected_four_times = Spin b'.
Proof.
  apply (dispatch_never_returns sample_env "svc" "W" 0 rejected_four_times 1000).
  repeat split; try discriminate.
  - left. reflexivity.
  - exists {| s_name := Some "svc"; s_workers := ["W"]; s_q := [0] |},
      (w_with_service (Some "svc") (new_worker "W" 0)), rejected_request.
    repeat split; try reflexivity; try (intros H; vm_compute in H; discriminate H).
    apply list_elem_of_here.
Defined.

(** From an empty broker: W registers for "svc", a client sends a
    request without deadline, and W rejects it four times; the handler of
    the fourth reject has not returned after forty turns of the loop. *)
Lemma fourth_reject_spins :
  result (run sample_env 40
            [EMsg (ready "W" "svc"); EMsg (request "C" "svc" "1" "hi" "t-1");
             EMsg (reject "W" "C" "1"); EMsg (reject "W" "C" "1");
             EMsg (reject "W" "C" "1"); EMsg (reject "W" "C" "1")]
            (Broker_new default_conf)) = None.
Proof. vm_compute. reflexivity. Qed.

(** The loss of W while request "1", sent without retry, is assigned to it. *)
Lemma workerDelete_requeues_without_retry_witness :
  ∃ b', workerDelete sample_env 5 "W" true echo_assigned = Ok tt b'
        ∧ queue_of "echo" b' = queue_of "echo" echo_assigned ++ [0]
        ∧ ctrl_reqs b' !! "1" = None
        ∧ pending b' = pending echo_assigned.
Proof.
  eapply (workerDelete_requeues_without_retry sample_env 5 "W" true echo_assigned
            echo_worker "echo" (Some "1") 0 echo_request).
  - vm_compute. reflexivity.
  - reflexivity.
  - discriminate.
  - reflexivity.
  - vm_compute. reflexivity.
  - vm_compute. reflexivity.
  - reflexivity.
Defined.

(** From an empty broker: the request is assigned to W with retry 0, W
    disconnects, and a second worker that registers for the service is
    sent the request. *)
Lemma request_without_retry_is_redispatched :
  let b := state_of (run sample_env 5
                       [EMsg (ready "W" "echo");
                        EMsg (request "C" "echo" "1" "hi" "{}");
                        EMsg (disconnect "W");
                        EMsg (ready "W2" "echo")]
                       (Broker_new default_conf)) in
  r_retry <$> heap b !! 0 = Some 0%Z
  ∧ w_rids <$> Js.get "W2" (workers b) = Some [Some "1"]
  ∧ r_workerId <$> heap b !! 0 = Some (Some "W2").
Proof. vm_compute. repeat split. Qed.

(** The dispatcher with W at its limit of one and a second request queued. *)
Lemma dispatch_beyond_concurrency_one_witness :
  ∃ b', dispatch sample_env 2 (Some "svc") None second_queued = Ok tt b'
        ∧ w_rids <$> Js.get "W" (workers b') = Some [Some "1"; Some "2"]
        ∧ queue_of "svc" b' = []
        ∧ rmap b' !! "2" = Some 1.
Proof.
  eapply (dispatch_beyond_concurrency_one sample_env 0 "svc" "W" 1 second_queued
            {| s_name := Some "svc"; s_workers := ["W"]; s_q := [1] |}
            (w_with_concurrency 1 (w_with_rids [Some "1"]
               (w_with_service (Some "svc") (new_worker "W" 0))))
            second_request (Some "1")).
  - discriminate.
  - discriminate.
  - reflexivity.
  - left. reflexivity.
  - reflexivity.
  - vm_compute. reflexivity.
  - reflexivity.
  - reflexivity.
  - vm_compute. reflexivity.
  - reflexivity.
  - reflexivity.
  - vm_compute. reflexivity.
  - right. vm_compute. discriminate.
  - reflexivity.
Defined.

(** From an empty broker: W registers, announces concurrency 1, and
    two requests arrive; both are assigned to W at once. *)
Lemma two_requests_in_flight_at_concurrency_one :
  let b := state_of (run sample_env 5
                       [EMsg (ready "W" "svc"); EMsg (worker_heartbeat "W" "c1");
                        EMsg (request "C" "svc" "1" "a" "{}");
                        EMsg (request "C" "svc" "2" "b" "{}")]
                       (Broker_new default_conf)) in
  w_concurrency <$> Js.get "W" (workers b) = Some 1%Z
  ∧ w_rids <$> Js.get "W" (workers b) = Some [Some "1"; Some "2"]
  ∧ queue_of "svc" b = [].
Proof. vm_compute. repeat split. Qed.

(** W with one assignment and limit 1 is selected; with two it is not
    eligible. *)
Lemma select_respects_limit_witness :
  (∃ worker, Js.get "W" (workers second_queued) = Some worker ∧ ¬ exceeds_limit worker)
  ∧ _wval over_limit_state (Some "W") = None.
Proof.
  split.
  - apply (proj1 (select_respects_limit sample_env second_queued) (Some "svc") "load"
             {| sws_service := Some "svc"; sws_workerId := Some "W" |} second_queued "W").
    + vm_compute. reflexivity.
    + reflexivity.
  - eapply (proj2 (select_respects_limit sample_env over_limit_state) (Some "W")
              (w_with_concurrency 1 (w_with_rids [Some "1"; Some "2"]
                 (w_with_service (Some "svc") (new_worker "W" 0))))).
    + vm_compute. reflexivity.
    + split; simpl; lia.
Defined.

(** The wildcard routing scenario of the specification. *)
Lemma concrete_name_selects_wildcard_worker_witness :
  result (serviceWorkerSelect sample_env (Some "audio.transcode") "load" wildcard_broker)
  = Some (Some {| sws_service := Some "audio.transcode"; sws_workerId := Some "W" |}).
Proof.
  destruct (concrete_name_selects_wildcard_worker sample_env wildcard_broker
              "audio.transcode" "load"
              {| s_name := Some "audio.transcode"; s_workers := []; s_q := [0] |})
    as [Heq _].
  - reflexivity.
  - reflexivity.
  - reflexivity.
  - discriminate.
  - rewrite (Heq "audio.*" {| s_name := Some "audio.*"; s_workers := ["W"]; s_q := [] |}).
    + reflexivity.
    + exists [], [("audio.transcode",
                   {| s_name := Some "audio.transcode"; s_workers := []; s_q := [0] |})].
      split; [reflexivity|]. split.
      * split; [now exists "audio.", "transcode"|discriminate].
      * intros e He. now apply not_elem_of_nil in He.
Defined.

(** A W_READY without service name from a new worker, and a second
    W_READY from a registered one. *)
Lemma onWorker_READY_witness :
  (Js.get "W" (workers (state_of (onWorker sample_env 5 (ready "W" "")
                                    (Broker_new default_conf)))) = None
   ∧ disconnect_frame "W" ∈ sent (state_of (onWorker sample_env 5 (ready "W" "")
                                              (Broker_new default_conf)))
   ∧ (Js.has "W" (workers (Broker_new default_conf)) = false →
      ∃ b', onWorker sample_env 5 (ready "W" "") (Broker_new default_conf) = Ok tt b'))
  ∧ onWorker sample_env 5 (ready "W" "echo") registered = Ok tt registered.
Proof.
  split.
  - apply (proj1 (onWorker_READY sample_env 5 (Broker_new default_conf) (ready "W" "")
                    eq_refl eq_refl)).
    right. reflexivity.
  - apply (proj2 (onWorker_READY sample_env 5 registered (ready "W" "echo")
                    eq_refl eq_refl)); reflexivity.
Defined.

(** C4, the claim as stated fails: a second W_READY with a service name
    from a registered worker leaves the broker as it was; the worker stays
    registered and no DISCONNECT frame is sent. *)
Lemma duplicate_READY_is_ignored :
  Js.has "W" (workers registered) = true
  ∧ onWorker sample_env 5 (ready "W" "echo") registered = Ok tt registered
  ∧ sent registered = [].
Proof. vm_compute. repeat split. Qed.

(** A reply from a worker that never registered. *)
Lemma onWorker_unknown_worker_witness :
  ∃ b', onWorker sample_env 5 (final_reply "W" "C" "1" "hi") (Broker_new default_conf)
        = Ok tt b'
        ∧ workers b' = []
        ∧ sent b' = [] ++ [disconnect_frame "W"]
        ∧ services b' = [] ∧ rmap b' = ∅ ∧ heap b' = []
        ∧ pending b' = [].
Proof.
  apply (onWorker_unknown_worker sample_env 5 (Broker_new default_conf)
           (final_reply "W" "C" "1" "hi")); reflexivity.
Defined.

(** A partial reply of W for request "1". *)
Lemma onWorker_partial_reply_witness :
  ∃ b', onWorker sample_env 5 (partial_reply "W" "C" "1" "h") echo_assigned = Ok tt b'
        ∧ sent b' = sent echo_assigned
                    ++ [[Some "C"; Some MDP.CLIENT; Some MDP.W_REPLY_PARTIAL; Some "";
                         Some "1"] ++ (Some <$> ["h"])]
        ∧ w_rids <$> Js.get "W" (workers b') = Some [Some "1"]
        ∧ rmap b' = rmap echo_assigned ∧ heap b' = heap echo_assigned.
Proof.
  apply (onWorker_partial_reply sample_env 5 echo_assigned (partial_reply "W" "C" "1" "h")
           echo_worker 0 echo_request).
  - reflexivity.
  - vm_compute. reflexivity.
  - apply list_elem_of_here.
  - vm_compute. reflexivity.
  - vm_compute. reflexivity.
  - reflexivity.
Defined.

(** The service "echo" after its only worker has left. *)
Lemma services_are_never_removed_witness :
  ∃ s', Js.get "echo"
          (services (state_of (run sample_env 5 [EMsg (disconnect "W"); ETimer] registered)))
        = Some s'
        ∧ s_name s' = Some "echo".
Proof.
  apply (services_are_never_removed sample_env 5 [EMsg (disconnect "W"); ETimer] registered
           "echo" {| s_name := Some "echo"; s_workers := ["W"]; s_q := [] |}).
  reflexivity.
Defined.

(** The request "1" of W after W has rejected it. *)
Lemma request_records_persist_witness :
  ∃ req', heap (state_of (run sample_env 5 [EMsg (reject "W" "C" "1")] echo_assigned)) !! 0
          = Some req'
          ∧ same_request echo_request req'.
Proof.
  apply (request_records_persist sample_env 5 [EMsg (reject "W" "C" "1")] echo_assigned
           0 echo_request).
  vm_compute. reflexivity.
Defined.

(** The wildcard service "audio.*" takes the request queued for
    "audio.transcode". *)
Lemma wildcard_name_selects_queue_witness :
  serviceWorkerSelect sample_env (Some "audio.*") "load" wildcard_broker
  = Ok (Some {| sws_service := Some "audio.transcode"; sws_workerId := Some "W" |})
       wildcard_broker.
Proof.
  destruct (wildcard_name_selects_queue sample_env wildcard_broker "audio.*" "load"
              {| s_name := Some "audio.*"; s_workers := ["W"]; s_q := [] |})
    as [Heq _].
  - reflexivity.
  - reflexivity.
  - discriminate.
  - reflexivity.
  - rewrite (Heq "audio.transcode"
               {| s_name := Some "audio.transcode"; s_workers := []; s_q := [0] |}).
    + reflexivity.
    + exists [("audio.*", {| s_name := Some "audio.*"; s_workers := ["W"]; s_q := [] |})], [].
      split; [reflexivity|]. split.
      * split; [discriminate|]. split; [now exists "audio.", "transcode"|discriminate].
      * intros e He. apply list_elem_of_singleton in He. subst e. intros [H _]. now apply H.
Defined.


(** A heartbeat of W that announces the concurrency limit 1. *)
Lemma onWorker_heartbeat_witness :
  ∃ b', onWorker sample_env 5 (worker_heartbeat "W" "c1") registered = Ok tt b'
        ∧ Js.get "W" (workers b')
          = Some (w_with_concurrency 1 (w_with_liveness HEARTBEAT_LIVENESS fresh_echo_worker))
        ∧ (∀ k, k ≠ "W" → Js.get k (workers b') = Js.get k (workers registered))
        ∧ services b' = services registered ∧ sent b' = sent registered
        ∧ rmap b' = rmap registered ∧ heap b' = heap registered
        ∧ pending b' = pending registered.
Proof.
  apply (onWorker_heartbeat sample_env 5 registered (worker_heartbeat "W" "c1")
           fresh_echo_worker).
  - reflexivity.
  - reflexivity.
Defined.

(** W, which holds nothing, disconnects. *)
Lemma onWorker_disconnect_witness :
  Js.get "W" (workers (state_of (onWorker sample_env 5 (disconnect "W") registered))) = None
  ∧ ∃ b', onWorker sample_env 5 (disconnect "W") registered = Ok tt b'
          ∧ workers b' = Js.del "W" (workers registered)
          ∧ (∀ srv, Some "echo" = Some srv → srv ≠ "" →
                    ∃ s, Js.get srv (services b') = Some s ∧ "W" ∉ s_workers s)
          ∧ sent b' = sent registered ∧ rmap b' = rmap registered
          ∧ heap b' = heap registered ∧ pending b' = pending registered.
Proof.
  destruct (onWorker_disconnect sample_env 5 registered (disconnect "W") fresh_echo_worker
              eq_refl eq_refl) as [H1 H2].
  split; [exact H1|]. apply H2. reflexivity.
Defined.



(** The entry has no expiry: the client is served from the cache. *)
Lemma cached_reply_needs_no_worker_witness :
  ∃ b', step sample_env 5 EImmediate (lookup_pending (-1)) = Ok tt b'
        ∧ sent b' = [] ++ [[Some "C"; Some MDP.CLIENT; Some MDP.W_REPLY; Some ""; Some "1"]
                             ++ (Some <$> ["cached"])]
        ∧ ctrl_reqs b' = delete "1" ∅
        ∧ pending b' = []
        ∧ workers b' = workers (lookup_pending (-1)) ∧ rmap b' = ∅
        ∧ services b' = services (lookup_pending (-1))
        ∧ heap b' = heap (lookup_pending (-1))
        ∧ cache_m b' = cache_m (lookup_pending (-1)).
Proof.
  apply (cached_reply_needs_no_worker sample_env 5 (lookup_pending (-1)) 0 "W"
           (w_with_service (Some "svc") (new_worker "W" 0)) [] cached_request
           {| data := ["cached"]; expire := -1 |}); try reflexivity.
  left. reflexivity.
Defined.



(** W rejects the request "1" and is given it again. *)
Lemma rejected_request_returns_to_its_worker_witness :
  ∃ b', onWorker sample_env 5 (reject "W" "C" "1") echo_assigned = Ok tt b'
        ∧ heap b' !! 0
          = Some (r_with_workerId (Some "W")
                    (r_with_attempts 2 (r_with_rejects ["W"] echo_request)))
        ∧ w_rids <$> Js.get "W" (workers b') = Some ([] ++ [Some "1"])
        ∧ queue_of "echo" b' = []
        ∧ pending b' = pending echo_assigned.
Proof.
  apply (rejected_request_returns_to_its_worker sample_env 3 echo_assigned
           (reject "W" "C" "1") "echo"
           {| s_name := Some "echo"; s_workers := ["W"]; s_q := [] |}
           echo_worker 0 echo_request); try reflexivity; try discriminate.
  - apply list_elem_of_here.
  - right. vm_compute. discriminate.
Defined.

(** A check right after the last one, and the first check of a broker
    with one worker. *)
Lemma workersCheck_ages_the_workers_witness :
  workersCheck sample_env 5 echo_assigned = Ok tt (tick_clock echo_assigned)
  ∧ ∃ b', workersCheck sample_env 5 registered = Ok tt b'
          ∧ (∀ w, Js.get w (workers b') = Js.get w (workers registered) ≫= aged)
          ∧ sent b' = sent registered ++ [heartbeat_frame "W"]
          ∧ rmap b' = rmap registered ∧ heap b' = heap registered
          ∧ pending b' = pending registered.
Proof.
  destruct (workersCheck_ages_the_workers sample_env 5 echo_assigned) as [H1 _].
  destruct (workersCheck_ages_the_workers sample_env 5 registered) as [_ H2].
  split.
  - apply (H1 1000%Z); [reflexivity|discriminate|vm_compute; reflexivity].
  - apply H2.
    + exact I.
    + apply NoDup_singleton.
    + reflexivity.
    + intros w worker Hg. left.
      change (workers registered) with [("W", fresh_echo_worker)] in Hg.
      simpl in Hg. destruct (String.eqb w "W"); [|discriminate].
      injection Hg as <-. vm_compute. discriminate.
Defined.

(** With the cache on: a worker registers, a client sends a request, the
    timer ticks, the lookup in the cache runs, the worker replies. *)
Lemma handlers_never_throw_witness :
  ∃ b', run sample_env 5
          [EMsg (ready "W" "echo"); EMsg (request "C" "echo" "1" "hi" "{}"); ETimer;
           EImmediate; EMsg (final_reply "W" "C" "1" "hi")] (Broker_new caching_conf)
        = Ok tt b'
        ∨ run sample_env 5
            [EMsg (ready "W" "echo"); EMsg (request "C" "echo" "1" "hi" "{}"); ETimer;
             EImmediate; EMsg (final_reply "W" "C" "1" "hi")] (Broker_new caching_conf)
          = Spin b'.
Proof.
  apply (handlers_never_throw sample_env 5
           [EMsg (ready "W" "echo"); EMsg (request "C" "echo" "1" "hi" "{}"); ETimer;
            EImmediate; EMsg (final_reply "W" "C" "1" "hi")] (Broker_new caching_conf)).
  - apply Broker_new_well_formed.
  - apply Broker_new_plain.
  - repeat apply Forall_cons_2; try apply Forall_nil_2; try exact I;
      try (intros H; vm_compute in H; discriminate H).
    intros _ _. split; [reflexivity|]. intros _. now exists "hi".
Defined.

Lemma registries_stay_consistent_witness :
  well_formed
    (state_of (run sample_env 5
                 [EMsg (ready "W" "echo"); EMsg (request "C" "echo" "1" "hi" "{}");
                  EImmediate; EMsg (reject "W" "C" "1"); EImmediate; EMsg (disconnect "W")]
                 (Broker_new caching_conf)))
  ∧ plain_rids
      (state_of (run sample_env 5
                   [EMsg (ready "W" "echo"); EMsg (request "C" "echo" "1" "hi" "{}");
                    EImmediate; EMsg (reject "W" "C" "1"); EImmediate; EMsg (disconnect "W")]
                   (Broker_new caching_conf))).
Proof.
  apply (registries_stay_consistent sample_env 5
           [EMsg (ready "W" "echo"); EMsg (request "C" "echo" "1" "hi" "{}");
            EImmediate; EMsg (reject "W" "C" "1"); EImmediate; EMsg (disconnect "W")]
           (Broker_new caching_conf)).
  - apply Broker_new_well_formed.
  - apply Broker_new_plain.
  - repeat apply Forall_cons_2; try apply Forall_nil_2; try exact I;
      try (intros H; vm_compute in H; discriminate H).
    intros _ _. split; [reflexivity|]. intros _. now exists "hi".
Defined.

(** The request "1" of C for "echo" goes to W, the only worker. *)
Lemma request_goes_to_the_worker_witness :
  ∃ b', onClient sample_env 2 (request "C" "echo" "1" "hi" "{}") registered = Ok tt b'
        ∧ sent b'
          = [[Some "W"; Some MDP.WORKER; Some MDP.W_REQUEST; Some "C"; Some "echo"; Some "";
              Some "1"; Some "hi"; Some "{}"]]
        ∧ w_rids <$> Js.get "W" (workers b') = Some [Some "1"]
        ∧ rmap b' !! "1" = Some 0
        ∧ queue_of "echo" b' = []
        ∧ pending b' = [].
Proof.
  apply (request_goes_to_the_worker sample_env 0 registered
           (request "C" "echo" "1" "hi" "{}") "echo" "W"
           {| s_name := Some "echo"; s_workers := ["W"]; s_q := [] |}
           fresh_echo_worker);
    try reflexivity; try discriminate.
  - left. reflexivity.
  - right. vm_compute. discriminate.
Defined.

(** W announces itself for "svc" and is given the three requests that
    were waiting. *)
Lemma new_worker_takes_the_backlog_witness :
  ∃ b', onWorker sample_env 4 (ready "W" "svc") backlog = Ok tt b'
        ∧ Js.get "W" (workers b')
          = Some (w_with_rids [Some "1"; Some "2"; Some "3"]
                    (w_with_service (Some "svc") (new_worker "W" 0)))
        ∧ Js.get "svc" (services b')
          = Some {| s_name := Some "svc"; s_workers := ["W"]; s_q := [] |}
        ∧ sent b'
          = [request_frame (new_worker "W" 0) (svc_request "1");
             request_frame (new_worker "W" 0) (svc_request "2");
             request_frame (new_worker "W" 0) (svc_request "3")].
Proof.
  apply (new_worker_takes_the_backlog sample_env 0 backlog (ready "W" "svc") "svc"
           {| s_name := Some "svc"; s_workers := []; s_q := [0; 1; 2] |});
    try reflexivity; try discriminate.
  - left. reflexivity.
  - repeat constructor.
    + exists (svc_request "1"). repeat split; [apply not_elem_of_nil|].
      right. intros n Hn. simpl in Hn.
      cbn [clock sample_env n_clock backlog r_ts r_timeout svc_request]. deadline.
    + exists (svc_request "2"). repeat split; [apply not_elem_of_nil|].
      right. intros n Hn. simpl in Hn.
      cbn [clock sample_env n_clock backlog r_ts r_timeout svc_request]. deadline.
    + exists (svc_request "3"). repeat split; [apply not_elem_of_nil|].
      right. intros n Hn. simpl in Hn.
      cbn [clock sample_env n_clock backlog r_ts r_timeout svc_request]. deadline.
Defined.

(** The final reply of W to the request "1" is passed on to C, and W
    holds nothing afterwards. *)
Lemma final_reply_reaches_the_client_witness :
  [Some "C"; Some MDP.CLIENT; Some MDP.W_REPLY; Some ""; Some "1"; Some "hi"]
    ∈ sent (state_of (onWorker sample_env 0 (final_reply "W" "C" "1" "hi") echo_assigned))
  ∧ ∃ b', onWorker sample_env 1 (final_reply "W" "C" "1" "hi") echo_assigned = Ok tt b'
          ∧ sent b'
            = sent echo_assigned
              ++ [[Some "C"; Some MDP.CLIENT; Some MDP.W_REPLY; Some ""; Some "1"; Some "hi"]]
          ∧ Js.get "W" (workers b')
            = Some (w_with_rids [] (w_with_liveness HEARTBEAT_LIVENESS echo_worker))
          ∧ ctrl_reqs b' = delete "1" (ctrl_reqs echo_assigned)
          ∧ cache_m b' = cache_m echo_assigned
          ∧ rmap b' = rmap echo_assigned ∧ heap b' = heap echo_assigned
          ∧ pending b' = pending echo_assigned.
Proof.
  destruct (final_reply_reaches_the_client sample_env 0 echo_assigned
              (final_reply "W" "C" "1" "hi") echo_worker 0 echo_request
              eq_refl eq_refl (list_elem_of_here _ _) eq_refl eq_refl eq_refl)
    as [Hsent Hrest].
  split; [exact Hsent|].
  exact (Hrest "echo" eq_refl eq_refl eq_refl).
Defined.

(** With the cache on, all three requests leave the queue for a lookup,
    although W takes one request at a time. *)
Lemma cache_defers_the_whole_queue_witness :
  ∃ b', dispatch sample_env 4 (Some "svc") None cache_waiting = Ok tt b'
        ∧ Js.get "svc" (services b')
          = Some {| s_name := Some "svc"; s_workers := ["W"]; s_q := [] |}
        ∧ pending b'
          = [TCacheGet 0 "W" one_at_a_time; TCacheGet 1 "W" one_at_a_time;
             TCacheGet 2 "W" one_at_a_time]
        ∧ workers b' = workers cache_waiting ∧ sent b' = [] ∧ rmap b' = ∅
        ∧ cache_m b' = ∅.
Proof.
  apply (cache_defers_the_whole_queue sample_env 0 "svc" "W" cache_waiting
           {| s_name := Some "svc"; s_workers := ["W"]; s_q := [0; 1; 2] |}
           one_at_a_time);
    try reflexivity; try discriminate.
  - left. reflexivity.
  - repeat constructor.
    + exists (hashed_request "1" "x"). repeat split; [apply not_elem_of_nil|].
      right. intros n Hn. simpl in Hn.
      cbn [clock sample_env n_clock cache_waiting r_ts r_timeout hashed_request]. deadline.
    + exists (hashed_request "2" "y"). repeat split; [apply not_elem_of_nil|].
      right. intros n Hn. simpl in Hn.
      cbn [clock sample_env n_clock cache_waiting r_ts r_timeout hashed_request]. deadline.
    + exists (hashed_request "3" "z"). repeat split; [apply not_elem_of_nil|].
      right. intros n Hn. simpl in Hn.
      cbn [clock sample_env n_clock cache_waiting r_ts r_timeout hashed_request]. deadline.
Defined.

(** The three lookups miss, and W, which takes one request at a time, is
    given all three requests. *)
Lemma deferred_assignments_ignore_the_limit_witness :
  ∃ b', run sample_env 0 [EImmediate; EImmediate; EImmediate] lookups_deferred = Ok tt b'
        ∧ Js.get "W" (workers b')
          = Some (w_with_rids [Some "1"; Some "2"; Some "3"] one_at_a_time)
        ∧ pending b' = [].
Proof.
  apply (deferred_assignments_ignore_the_limit sample_env 0 lookups_deferred "W"
           one_at_a_time [0; 1; 2]); try reflexivity.
  repeat constructor.
  - exists (r_with_attempts 1 (hashed_request "1" "x")). split; reflexivity.
  - exists (r_with_attempts 1 (hashed_request "2" "y")). split; reflexivity.
  - exists (r_with_attempts 1 (hashed_request "3" "z")). split; reflexivity.
Defined.
